(** * w-bot: the reminder subsystem, the intent classifier and the chat
      history, embedded from the JavaScript sources

    Sources embedded here:
    - [src/services/reminderService.js]: class ReminderService;
    - [src/index.js], from line 193 on, the text of
      [handlers/messageHandler.js]: class MessageHandler ([handleCommand],
      [detectIntent], [handleCancelReminderCommand]);
    - [src/services/mistralService.js]: class MistralService ([chat],
      [clearConversationHistory], [getConversationHistory],
      [cleanupOldConversations]); and, from line 295 on, the text of
      [services/whatsappService.js]: [formatPhone].

    Conventions of the embedding.
    - An instant is the number of milliseconds since the Unix epoch
      ([moment#valueOf]), a [Z].  The process runs with local zone UTC, so
      the local-time setters of moment act on the UTC fields.
    - Every wall-clock read [moment()] of one call is the explicit
      parameter [now] of that call.
    - JavaScript strings are modelled as ASCII strings.
    - The [message] of a reminder is a string, as the command handler
      creates it; the create of a value of another type, which
      POST /set-reminder does not exclude, is not described.
    - Stateful methods run in a small state-and-exception monad over the
      service's fields: a mutation made before a [throw] stays made.
    - An [async] method runs to its end: no other request is interleaved at
      its [await]s. *)

From Stdlib Require Import ZArith Lia ZifyBool List Ascii String Bool Sorted
  Permutation.
From stdpp Require Import base option list gmap strings.

Import ListNotations.
Local Open Scope string_scope.
Local Open Scope Z_scope.

(* ===================================================================== *)
(** * Part I. Definitions                                                  *)
(* ===================================================================== *)

(** ** The moment.js operations the services use (zone UTC) *)
Module Moment.

Definition msPerSecond : Z := 1000.
Definition msPerMinute : Z := 60000.
Definition msPerHour : Z := 3600000.
Definition msPerDay : Z := 86400000.

(** ECMAScript [Day(t)] and the time fields of an instant. *)
Definition Day (t : Z) : Z := t / msPerDay.
Definition hour (t : Z) : Z := (t mod msPerDay) / msPerHour.
Definition minute (t : Z) : Z := (t mod msPerHour) / msPerMinute.
Definition second (t : Z) : Z := (t mod msPerMinute) / msPerSecond.
Definition millisecond (t : Z) : Z := t mod msPerSecond.

(** ECMAScript [MakeTime] and [MakeDate]. *)
Definition MakeTime (h m s ms : Z) : Z :=
  h * msPerHour + m * msPerMinute + s * msPerSecond + ms.
Definition MakeDate (day time : Z) : Z := day * msPerDay + time.

(** [mom.hour(h)], [mom.minute(m)], [mom.second(s)]: [Date#setHours],
    [Date#setMinutes], [Date#setSeconds]; the other fields are kept and an
    out-of-range value bubbles into the next field. *)
Definition setHour (h t : Z) : Z :=
  MakeDate (Day t) (MakeTime h (minute t) (second t) (millisecond t)).
Definition setMinute (m t : Z) : Z :=
  MakeDate (Day t) (MakeTime (hour t) m (second t) (millisecond t)).
Definition setSecond (s t : Z) : Z :=
  MakeDate (Day t) (MakeTime (hour t) (minute t) s (millisecond t)).

(** Proleptic Gregorian calendar. Months are 1..12 in [civil] triples. *)
Definition isLeapYear (y : Z) : bool :=
  ((y mod 4 =? 0) && negb (y mod 100 =? 0)) || (y mod 400 =? 0).

(** moment's [daysInMonth(year, month)], month counted from 0 and allowed
    to overflow into the neighbouring years. *)
Definition daysInMonth (y m : Z) : Z :=
  let modMonth := m mod 12 in
  let y' := y + (m - modMonth) / 12 in
  if modMonth =? 1 then (if isLeapYear y' then 29 else 28)
  else 31 - ((modMonth mod 7) mod 2).

(** Days since 1970-01-01 of the civil date [y]-[m]-[d]. *)
Definition daysFromCivil (y m d : Z) : Z :=
  let y' := if m <=? 2 then y - 1 else y in
  let era := y' / 400 in
  let yoe := y' - era * 400 in
  let doy := (153 * (m + (if 2 <? m then -3 else 9)) + 2) / 5 + d - 1 in
  let doe := yoe * 365 + yoe / 4 - yoe / 100 + doy in
  era * 146097 + doe - 719468.

(** The civil date (year, month 1..12, day) of a day number. *)
Definition civilFromDays (z : Z) : Z * Z * Z :=
  let z' := z + 719468 in
  let era := z' / 146097 in
  let doe := z' - era * 146097 in
  let yoe := (doe - doe / 1460 + doe / 36524 - doe / 146096) / 365 in
  let doy := doe - (365 * yoe + yoe / 4 - yoe / 100) in
  let mp := (5 * doy + 2) / 153 in
  let d := doy - (153 * mp + 2) / 5 + 1 in
  let m := if mp <? 10 then mp + 3 else mp - 9 in
  (yoe + era * 400 + (if m <=? 2 then 1 else 0), m, d).

Definition year (t : Z) : Z := fst (fst (civilFromDays (Day t))).
Definition month (t : Z) : Z := snd (fst (civilFromDays (Day t))) - 1.
Definition date (t : Z) : Z := snd (civilFromDays (Day t)).

(** An instant from its UTC fields (month 1..12). *)
Definition utc (y m d h mi s ms : Z) : Z :=
  MakeDate (daysFromCivil y m d) (MakeTime h mi s ms).

(** [mom.add(n, 'minute' | 'hour')]: plain milliseconds. *)
Definition addMinutes (n t : Z) : Z := t + n * msPerMinute.
Definition addHours (n t : Z) : Z := t + n * msPerHour.
(** [mom.add(n, 'day' | 'week')]: [Date#setDate(date + n)]. *)
Definition addDays (n t : Z) : Z := t + n * msPerDay.
Definition addWeeks (n t : Z) : Z := addDays (7 * n) t.
(** [mom.add(n, 'month')]: moment's [setMonth], the day of the month
    clamped to the length of the target month, the time of day kept. *)
Definition addMonths (n t : Z) : Z :=
  let value := month t + n in
  let dayOfMonth := Z.min (date t) (daysInMonth (year t) value) in
  MakeDate (daysFromCivil (year t + value / 12) (value mod 12 + 1) dayOfMonth)
           (t mod msPerDay).

Definition isBefore (a b : Z) : bool := a <? b.
Definition isAfter (a b : Z) : bool := b <? a.
Definition isSameOrAfter (a b : Z) : bool := b <=? a.

(** [a.diff(b, 'minutes')]: the difference truncated towards zero
    (moment's [absFloor]). *)
Definition diffMinutes (a b : Z) : Z := Z.quot (a - b) msPerMinute.

(** [moment([year, month, day])], month counted from 0: local midnight of
    that date, or an invalid moment when a field overflows. *)
Definition fromArray (y m d : Z) : option Z :=
  if (0 <=? m) && (m <=? 11) && (1 <=? d) && (d <=? daysInMonth y m)
  then Some (utc y (m + 1) d 0 0 0 0) else None.

(** Decimal rendering with zero padding, for [format]. *)
Definition digitChar (d : Z) : ascii := ascii_of_nat (48 + Z.to_nat d).
Fixpoint pad (width : nat) (n : Z) : string :=
  match width with
  | O => ""
  | S w => pad w (n / 10) ++ String (digitChar (n mod 10)) ""
  end.

(** [mom.format('YYYY-MM-DD HH:mm')]. *)
Definition format_YYYY_MM_DD_HH_mm (t : Z) : string :=
  pad 4 (year t) ++ "-" ++ pad 2 (month t + 1) ++ "-" ++ pad 2 (date t)
    ++ " " ++ pad 2 (hour t) ++ ":" ++ pad 2 (minute t).

End Moment.

(** ** JavaScript string methods and the regular expressions of the sources *)
Module Text.

Definition isUpper (a : ascii) : bool :=
  let n := nat_of_ascii a in (65 <=? n)%nat && (n <=? 90)%nat.
Definition isDigit (a : ascii) : bool :=
  let n := nat_of_ascii a in (48 <=? n)%nat && (n <=? 57)%nat.
(** [\s] on ASCII: TAB, LF, VT, FF, CR and the space. *)
Definition isSpace (a : ascii) : bool :=
  let n := nat_of_ascii a in ((9 <=? n)%nat && (n <=? 13)%nat) || (n =? 32)%nat.
(** Line terminators, which [.] does not match. *)
Definition isLineTerminator (a : ascii) : bool :=
  let n := nat_of_ascii a in (n =? 10)%nat || (n =? 13)%nat.

Definition lowerChar (a : ascii) : ascii :=
  if isUpper a then ascii_of_nat (nat_of_ascii a + 32) else a.

(** [s.toLowerCase()] *)
Fixpoint toLowerCase (s : string) : string :=
  match s with
  | EmptyString => EmptyString
  | String a s' => String (lowerChar a) (toLowerCase s')
  end.

(** [s.startsWith(p)] *)
Definition startsWith (s p : string) : bool := String.prefix p s.

(** [s.includes(p)] *)
Fixpoint includes (s p : string) : bool :=
  startsWith s p ||
  match s with
  | EmptyString => false
  | String _ s' => includes s' p
  end.

Fixpoint dropSpaces (s : string) : string :=
  match s with
  | String a s' => if isSpace a then dropSpaces s' else s
  | EmptyString => EmptyString
  end.

Fixpoint rev_string (s acc : string) : string :=
  match s with
  | EmptyString => acc
  | String a s' => rev_string s' (String a acc)
  end.

(** [s.trim()] *)
Definition trim (s : string) : string :=
  rev_string (dropSpaces (rev_string (dropSpaces s) "")) "".

(** [parseInt] of a string of decimal digits. *)
Fixpoint parseDigits (s : string) (acc : Z) : Z :=
  match s with
  | EmptyString => acc
  | String a s' => parseDigits s' (10 * acc + Z.of_nat (nat_of_ascii a - 48))
  end.
Definition parseInt (s : string) : Z := parseDigits s 0.

(** The fragment of JavaScript regular expressions the sources use. *)
Inductive regex : Type :=
| Lit (p : string)              (* a literal run of characters *)
| Digit                         (* \d *)
| Space                         (* \s *)
| AnyChar                       (* .  *)
| Cat (r1 r2 : regex)           (* r1 r2 *)
| Alt (r1 r2 : regex)           (* r1|r2 *)
| Opt (r : regex)               (* r? , greedy *)
| Star (r : regex)              (* r* , greedy *)
| Cap (i : nat) (r : regex).    (* the i-th capture group (r) *)

(** The captures of a match: group number and captured text; a group that
    took no part in the match is absent ([undefined]). *)
Definition captures : Type := list (nat * string).

Fixpoint group (i : nat) (c : captures) : option string :=
  match c with
  | [] => None
  | (j, s) :: c' => if (i =? j)%nat then Some s else group i c'
  end.

(** Backtracking matcher at the start of [s], in continuation-passing
    style: [k] receives the rest of the input and the captures so far. *)
Fixpoint exec (r : regex) (s : string) (c : captures)
         (k : string -> captures -> option captures) : option captures :=
  match r with
  | Lit p =>
      if startsWith s p
      then k (substring (String.length p) (String.length s - String.length p) s) c
      else None
  | Digit =>
      match s with
      | String a s' => if isDigit a then k s' c else None
      | EmptyString => None
      end
  | Space =>
      match s with
      | String a s' => if isSpace a then k s' c else None
      | EmptyString => None
      end
  | AnyChar =>
      match s with
      | String a s' => if isLineTerminator a then None else k s' c
      | EmptyString => None
      end
  | Cat r1 r2 => exec r1 s c (fun s' c' => exec r2 s' c' k)
  | Alt r1 r2 =>
      match exec r1 s c k with
      | Some res => Some res
      | None => exec r2 s c k
      end
  | Opt r1 =>
      match exec r1 s c k with
      | Some res => Some res
      | None => k s c
      end
  | Star r1 =>
      (fix loop (n : nat) (s : string) (c : captures) {struct n} : option captures :=
         match n with
         | O => k s c
         | S n' =>
             match exec r1 s c
                     (fun s' c' =>
                        if (String.length s' <? String.length s)%nat
                        then loop n' s' c' else None) with
             | Some res => Some res
             | None => k s c
             end
         end) (String.length s) s c
  | Cap i r1 =>
      exec r1 s c
        (fun s' c' =>
           k s' ((i, substring 0 (String.length s - String.length s') s) :: c'))
  end.

(** [s.match(r)] / [r.test(s)] for a non-global [r]: the leftmost match. *)
Fixpoint search (r : regex) (s : string) : option captures :=
  match exec r s [] (fun _ c => Some c) with
  | Some c => Some c
  | None =>
      match s with
      | EmptyString => None
      | String _ s' => search r s'
      end
  end.

Definition test (r : regex) (s : string) : bool :=
  match search r s with Some _ => true | None => false end.

Fixpoint cat (rs : list regex) : regex :=
  match rs with
  | [] => Lit ""
  | [r] => r
  | r :: rs' => Cat r (cat rs')
  end.

End Text.

(** ** State and exceptions

    A JavaScript method reads and mutates the fields of its service object
    and either returns or throws an [Error] with a message.  A computation
    maps the state before to an outcome and the state after; the state after
    a [Throw] holds every mutation made before it.  [OutOfFuel] is the
    outcome of a bounded loop that was not given enough steps. *)
Module Eff.

Inductive Outcome (A : Type) : Type :=
| Return (a : A)
| Throw (msg : string)
| OutOfFuel.
Arguments Return {A} a.
Arguments Throw {A} msg.
Arguments OutOfFuel {A}.

Definition M (S A : Type) : Type := S -> Outcome A * S.

Definition ret {S A} (a : A) : M S A := fun s => (Return a, s).
Definition throw {S A} (msg : string) : M S A := fun s => (Throw msg, s).
Definition stop {S A} : M S A := fun s => (OutOfFuel, s).

Definition bind {S A B} (m : M S A) (k : A -> M S B) : M S B :=
  fun s =>
    match m s with
    | (Return a, s') => k a s'
    | (Throw msg, s') => (Throw msg, s')
    | (OutOfFuel, s') => (OutOfFuel, s')
    end.

(** [try { m } catch (error) { h error.message }] *)
Definition try_catch {S A} (m : M S A) (h : string -> M S A) : M S A :=
  fun s =>
    match m s with
    | (Throw msg, s') => h msg s'
    | res => res
    end.

Definition gets {S A} (f : S -> A) : M S A := fun s => (Return (f s), s).
Definition modify {S} (f : S -> S) : M S unit := fun s => (Return tt, f s).

End Eff.

Declare Scope eff_scope.
Delimit Scope eff_scope with eff.
Notation "'let*' x := m 'in' k" := (Eff.bind m (fun x => k))
  (at level 10, x name, m at level 100, k at level 200) : eff_scope.
Notation "m ;; k" := (Eff.bind m (fun _ => k))
  (at level 100, k at level 200, right associativity) : eff_scope.

(** ** src/services/reminderService.js *)
Module ReminderService.
Import Eff.
Local Open Scope eff_scope.

(** A reminder object, with every property the service ever writes;
    a property not yet written ([sent_at], [error], [updated_at]) is
    [None]. [recurrence_type] is [null] or a string. *)
Record Reminder : Type := mkReminder {
  id : string;
  phone : string;
  message : string;
  datetime : Z;
  timezone : string;
  recurring : bool;
  recurrence_type : option string;
  priority : string;
  status : string;
  created_at : Z;
  sent : bool;
  sent_at : option Z;
  error : option string;
  updated_at : option Z
}.

Definition set_status (v : string) (r : Reminder) : Reminder :=
  mkReminder (id r) (phone r) (message r) (datetime r) (timezone r)
    (recurring r) (recurrence_type r) (priority r) v (created_at r)
    (sent r) (sent_at r) (error r) (updated_at r).
Definition set_sent (v : bool) (r : Reminder) : Reminder :=
  mkReminder (id r) (phone r) (message r) (datetime r) (timezone r)
    (recurring r) (recurrence_type r) (priority r) (status r) (created_at r)
    v (sent_at r) (error r) (updated_at r).
Definition set_sent_at (v : option Z) (r : Reminder) : Reminder :=
  mkReminder (id r) (phone r) (message r) (datetime r) (timezone r)
    (recurring r) (recurrence_type r) (priority r) (status r) (created_at r)
    (sent r) v (error r) (updated_at r).
Definition set_error (v : option string) (r : Reminder) : Reminder :=
  mkReminder (id r) (phone r) (message r) (datetime r) (timezone r)
    (recurring r) (recurrence_type r) (priority r) (status r) (created_at r)
    (sent r) (sent_at r) v (updated_at r).
Definition set_updated_at (v : option Z) (r : Reminder) : Reminder :=
  mkReminder (id r) (phone r) (message r) (datetime r) (timezone r)
    (recurring r) (recurrence_type r) (priority r) (status r) (created_at r)
    (sent r) (sent_at r) (error r) v.

(** The [options] of [setReminder], with their defaults. *)
Record SetOptions : Type := mkSetOptions {
  opt_timezone : string;
  opt_recurring : bool;
  opt_recurrence_type : option string;
  opt_priority : string
}.
Definition defaultSetOptions : SetOptions :=
  mkSetOptions "UTC" false None "normal".

(** The [options] of [getUserReminders], with their defaults. *)
Record ListOptions : Type := mkListOptions {
  opt_status : string;
  opt_limit : Z;
  opt_sort : string
}.
Definition defaultListOptions : ListOptions :=
  mkListOptions "all" 50 "datetime".

(** The [datetime] of a patch, by the two things [updateReminder] asks of
    it.  Is the value truthy?  Only then is it validated.  And what does
    [moment(updates.datetime)] make of it: an instant, or an invalid moment
    ([None])?
    - [Truthy parsed]: a non-empty string, a non-zero number, a [Date].
    - [Zero]: the number 0.  It is falsy, so the guard [if (updates.datetime)]
      skips the validation, and [Object.assign] writes it all the same; read
      back through [moment], it is the epoch.
    The other falsy values (the empty string, [null], [false], [NaN]) pass the
    guard as 0 does and are written as 0 is, but the [datetime] they leave is
    not an instant any more: a [Reminder] cannot hold it, and they are no
    values of this type. *)
Inductive DatetimeValue : Type :=
| Truthy (parsed : option Z)
| Zero.

(** The [updates] object of [updateReminder]: each property of a reminder
    is absent ([None]) or carries the new value. *)
Record Updates : Type := mkUpdates {
  upd_id : option string;
  upd_phone : option string;
  upd_message : option string;
  upd_datetime : option DatetimeValue;
  upd_timezone : option string;
  upd_recurring : option bool;
  upd_recurrence_type : option (option string);
  upd_priority : option string;
  upd_status : option string;
  upd_created_at : option Z;
  upd_sent : option bool;
  upd_sent_at : option (option Z);
  upd_error : option (option string);
  upd_updated_at : option (option Z)
}.
Definition noUpdates : Updates :=
  mkUpdates None None None None None None None None None None None None None None.

(** The Notifier: [whatsappService.sendMessage(phone, text)] either
    resolves ([None]) or throws an error with a message.  The first
    argument counts the calls made before this one. *)
Definition Notifier : Type := nat -> string -> string -> option string.

(** The service object and the two collaborators it touches.
    [reminders] is the [Map] from phone to the array of that phone's
    reminders, in insertion order of the keys. *)
Record World : Type := mkWorld {
  reminders : list (string * list Reminder);
  whatsappService : option Notifier;
  uuidCalls : nat;                    (* calls of uuidv4() so far *)
  sendCalls : nat;                    (* calls of sendMessage so far *)
  outbox : list (string * string)     (* messages sent, oldest first *)
}.

Definition constructor : World := mkWorld [] None 0 0 [].

Definition set_reminders (v : list (string * list Reminder)) (w : World) : World :=
  mkWorld v (whatsappService w) (uuidCalls w) (sendCalls w) (outbox w).

(** [Map#get], [Map#has], [Map#set] on the reminders map. *)
Fixpoint map_get (key : string) (m : list (string * list Reminder))
  : option (list Reminder) :=
  match m with
  | [] => None
  | (k, v) :: m' => if (k =? key)%string then Some v else map_get key m'
  end.
Definition map_has (key : string) (m : list (string * list Reminder)) : bool :=
  match map_get key m with Some _ => true | None => false end.
Fixpoint map_set (key : string) (v : list Reminder)
         (m : list (string * list Reminder)) : list (string * list Reminder) :=
  match m with
  | [] => [(key, v)]
  | (k, v') :: m' =>
      if (k =? key)%string then (k, v) :: m' else (k, v') :: map_set key v m'
  end.

(** A reference to a reminder object: the key of the array that holds it
    and its index there.  Arrays only grow at the end while references are
    live, so a reference keeps naming the same object. *)
Definition Ref : Type := (string * nat)%type.

Definition deref (ref : Ref) (w : World) : option Reminder :=
  match map_get (fst ref) (reminders w) with
  | Some arr => arr !! snd ref
  | None => None
  end.

(** Mutation of the object behind a reference. *)
Definition assign (ref : Ref) (f : Reminder -> Reminder) (w : World) : World :=
  match map_get (fst ref) (reminders w) with
  | Some arr =>
      match arr !! snd ref with
      | Some r => set_reminders (map_set (fst ref) (<[snd ref := f r]> arr) (reminders w)) w
      | None => w
      end
  | None => w
  end.

(** [this.reminders.get(key).push(r)] on an existing array. *)
Definition push (key : string) (r : Reminder) (w : World) : World :=
  match map_get key (reminders w) with
  | Some arr => set_reminders (map_set key (arr ++ [r]) (reminders w)) w
  | None => w
  end.

(** [Array#findIndex(r => r.id === reminderId)] *)
Fixpoint findIndex (reminderId : string) (arr : list Reminder) : option nat :=
  match arr with
  | [] => None
  | r :: arr' =>
      if (id r =? reminderId)%string then Some O
      else option_map S (findIndex reminderId arr')
  end.

(** [Array#sort] with a comparator [(a, b) => key(a) - key(b)]: the sort
    is stable. *)
Fixpoint insertBy (key : Reminder -> Z) (x : Reminder) (l : list Reminder)
  : list Reminder :=
  match l with
  | [] => [x]
  | y :: l' => if key x <=? key y then x :: y :: l' else y :: insertBy key x l'
  end.
Fixpoint sortBy (key : Reminder -> Z) (l : list Reminder) : list Reminder :=
  match l with
  | [] => []
  | x :: l' => insertBy key x (sortBy key l')
  end.

Definition setWhatsAppService (svc : Notifier) : M World unit :=
  modify (fun w => mkWorld (reminders w) (Some svc) (uuidCalls w) (sendCalls w) (outbox w)).

(** [await this.whatsappService.sendMessage(phone, text)] *)
Definition sendMessage (send : Notifier) (to text : string) : M World unit :=
  fun w =>
    let w' := mkWorld (reminders w) (whatsappService w) (uuidCalls w)
                      (S (sendCalls w)) (outbox w) in
    match send (sendCalls w) to text with
    | Some msg => (Throw msg, w')
    | None =>
        (Return tt,
         mkWorld (reminders w') (whatsappService w') (uuidCalls w')
                 (sendCalls w') (outbox w' ++ [(to, text)]))
    end.

(** [a === b] on values that are [null] or a string, as the [switch] and
    the tests of the sources use it. *)
Definition strictEq (a b : option string) : bool :=
  match a, b with
  | Some x, Some y => (x =? y)%string
  | None, None => true
  | _, _ => false
  end.
Infix "===" := strictEq (at level 70, no associativity).

Section WithUuid.

(** [uuidv4()]: the identifier returned by the n-th call. *)
Variable uuidv4 : nat -> string.

Definition uuid : M World string :=
  fun w =>
    (Return (uuidv4 (uuidCalls w)),
     mkWorld (reminders w) (whatsappService w) (S (uuidCalls w))
             (sendCalls w) (outbox w)).

(** [setReminder(phone, message, datetime, options)]; [datetime] is
    given by what [moment(datetime)] makes of it.  [message] is a string,
    as the command handler passes it: this is the create of a text message.
    (POST /set-reminder tests [req.body.message] for truthiness only; for a
    value that is not a string, the [message.substring] of the log line
    below throws after the push.  The [message] of a [Reminder] is a string,
    and the create of such a value is not described here.) *)
Definition setReminder (phone_ message_ : string) (datetime_ : option Z)
           (options : SetOptions) (now : Z) : M World Reminder :=
  try_catch
    (match datetime_ with
     | None => throw "Invalid date/time format"
     | Some reminderTime =>
         if Moment.isBefore reminderTime now
         then throw "Reminder time cannot be in the past"
         else
           let* reminderId := uuid in
           let reminder :=
             mkReminder reminderId phone_ message_ reminderTime
               (opt_timezone options) (opt_recurring options)
               (opt_recurrence_type options) (opt_priority options)
               "active" now false None None None in
           let* has := gets (fun w => map_has phone_ (reminders w)) in
           (if negb has
            then modify (fun w => set_reminders (map_set phone_ [] (reminders w)) w)
            else ret tt) ;;
           modify (push phone_ reminder) ;;
           (* logger.info(`... ${message.substring(0, 50)}...`): the
              [substring] of a string returns, and the line changes nothing *)
           ret reminder
     end)
    (fun msg => throw ("Failed to set reminder: " ++ msg)).

(** [getUserReminders(phone, options)].  With [status = 'all'] the
    array that is sorted is the stored one, so the store is reordered;
    otherwise [filter] made a fresh array. *)
Definition getUserReminders (phone_ : string) (options : ListOptions)
  : M World (list Reminder) :=
  try_catch
    (let* stored := gets (fun w => map_get phone_ (reminders w)) in
     let userReminders := default [] stored in
     let key := if (opt_sort options =? "datetime")%string
                then datetime else created_at in
     let* sorted :=
       (if negb (opt_status options =? "all")%string
        then ret (sortBy key
                    (filter (fun r => (status r =? opt_status options)%string = true)
                            userReminders))
        else
          let sorted := sortBy key userReminders in
          match stored with
          | Some _ =>
              modify (fun w => set_reminders (map_set phone_ sorted (reminders w)) w) ;;
              ret sorted
          | None => ret sorted
          end) in
     if 0 <? opt_limit options
     then ret (take (Z.to_nat (opt_limit options)) sorted)
     else ret sorted)
    (fun _ => throw "Failed to get user reminders").

(** [cancelReminder(phone, reminderId)] *)
Definition cancelReminder (phone_ reminderId : string) : M World Reminder :=
  try_catch
    (let* stored := gets (fun w => map_get phone_ (reminders w)) in
     let userReminders := default [] stored in
     match findIndex reminderId userReminders with
     | None => throw "Reminder not found"
     | Some reminderIndex =>
         match userReminders !! reminderIndex with
         | None => throw "Cannot set properties of undefined (setting 'status')"
         | Some reminder =>
             modify (assign (phone_, reminderIndex) (set_status "cancelled")) ;;
             ret (set_status "cancelled" reminder)
         end
     end)
    (fun msg => throw ("Failed to cancel reminder: " ++ msg)).

(** [Object.assign(reminder, updates)], a validated [updates.datetime]
    already replaced by its ISO string; the number 0, which is not validated,
    is written as it is. *)
Definition objectAssign (u : Updates) (r : Reminder) : Reminder :=
  mkReminder
    (default (id r) (upd_id u))
    (default (phone r) (upd_phone u))
    (default (message r) (upd_message u))
    (match upd_datetime u with
     | Some (Truthy (Some t)) => t
     | Some Zero => 0
     | _ => datetime r
     end)
    (default (timezone r) (upd_timezone u))
    (default (recurring r) (upd_recurring u))
    (default (recurrence_type r) (upd_recurrence_type u))
    (default (priority r) (upd_priority u))
    (default (status r) (upd_status u))
    (default (created_at r) (upd_created_at u))
    (default (sent r) (upd_sent u))
    (default (sent_at r) (upd_sent_at u))
    (default (error r) (upd_error u))
    (default (updated_at r) (upd_updated_at u)).

(** [updateReminder(phone, reminderId, updates)] *)
Definition updateReminder (phone_ reminderId : string) (updates : Updates)
           (now : Z) : M World Reminder :=
  try_catch
    (let* stored := gets (fun w => map_get phone_ (reminders w)) in
     let userReminders := default [] stored in
     match findIndex reminderId userReminders with
     | None => throw "Reminder not found"
     | Some reminderIndex =>
         match userReminders !! reminderIndex with
         | None => throw "Cannot set properties of undefined (setting 'updated_at')"
         | Some reminder =>
             (* Validate updates: if (updates.datetime) *)
             (match upd_datetime updates with
              | Some (Truthy None) => throw "Invalid date/time format"
              | Some (Truthy (Some newTime)) =>
                  if Moment.isBefore newTime now
                  then throw "Reminder time cannot be in the past"
                  else ret tt
              | Some Zero | None => ret tt
              end) ;;
             (* Apply updates *)
             let applied := set_updated_at (Some now) (objectAssign updates reminder) in
             modify (assign (phone_, reminderIndex) (fun _ => applied)) ;;
             ret applied
         end
     end)
    (fun msg => throw ("Failed to update reminder: " ++ msg)).

(** [reminder.recurring && reminder.recurrence_type]: [null] and the
    empty string are falsy. *)
Definition truthy (s : option string) : bool :=
  match s with
  | Some s => negb (s =? "")%string
  | None => false
  end.

(** [scheduleNextRecurrence(reminder)]: the error of an unknown
    recurrence type, or of a missing array for [reminder.phone], is
    caught and logged. *)
Definition scheduleNextRecurrence (reminder : Ref) (now : Z) : M World unit :=
  try_catch
    (let* obj := gets (deref reminder) in
     match obj with
     | None => ret tt
     | Some r =>
         let currentTime := datetime r in
         (* switch (reminder.recurrence_type) *)
         let* nextTime :=
           (if recurrence_type r === Some "daily"
            then ret (Moment.addDays 1 currentTime)
            else if recurrence_type r === Some "weekly"
            then ret (Moment.addWeeks 1 currentTime)
            else if recurrence_type r === Some "monthly"
            then ret (Moment.addMonths 1 currentTime)
            else throw "Invalid recurrence type") in
         (* Create new reminder for next occurrence *)
         let* newId := uuid in
         let nextReminder :=
           mkReminder newId (phone r) (message r) nextTime (timezone r)
             (recurring r) (recurrence_type r) (priority r) "active" now
             false (sent_at r) (error r) (updated_at r) in
         let* userReminders := gets (fun w => map_get (phone r) (reminders w)) in
         match userReminders with
         | None => throw "Cannot read properties of undefined (reading 'push')"
         | Some _ => modify (push (phone r) nextReminder)
         end
     end)
    (fun _ => ret tt).

(** The text of a delivery (the pictographs of the template are left
    out). *)
Definition reminderMessage (r : Reminder) : string :=
  "*Reminder*" ++ String "010" (String "010" "") ++ message r
    ++ String "010" (String "010" "") ++ "Scheduled for: "
    ++ Moment.format_YYYY_MM_DD_HH_mm (datetime r).

(** [sendReminder(reminder)] *)
Definition sendReminder (reminder : Ref) (now : Z) : M World unit :=
  try_catch
    (let* svc := gets whatsappService in
     match svc with
     | None => throw "WhatsApp service not available"
     | Some send =>
         let* obj := gets (deref reminder) in
         match obj with
         | None => ret tt
         | Some r =>
             sendMessage send (phone r) (reminderMessage r) ;;
             (* Mark as sent *)
             modify (assign reminder (fun r => set_sent_at (Some now) (set_sent true r))) ;;
             (* Handle recurring reminders *)
             if recurring r && truthy (recurrence_type r)
             then scheduleNextRecurrence reminder now
             else modify (assign reminder (set_status "sent"))
         end
     end)
    (fun msg =>
       modify (assign reminder (fun r => set_error (Some msg) (set_status "failed" r)))).

(** The test of [checkReminders] on one reminder. *)
Definition isDue (now : Z) (reminder : Reminder) : bool :=
  (status reminder =? "active")%string && negb (sent reminder) &&
  (Moment.isSameOrAfter now (datetime reminder) &&
   (Moment.diffMinutes now (datetime reminder) <=? 1)).

(** [for (const reminder of userReminders) ...]: the array iterator
    reads the array afresh at every step, so it also visits the elements
    pushed while it runs.  [fuel] bounds the number of steps. *)
Fixpoint scanReminders (fuel : nat) (key : string) (i : nat) (now : Z)
         (sentCount : Z) : M World Z :=
  match fuel with
  | O => stop
  | S fuel' =>
      let* userReminders := gets (fun w => default [] (map_get key (reminders w))) in
      match userReminders !! i with
      | None => ret sentCount
      | Some reminder =>
          if isDue now reminder
          then sendReminder (key, i) now ;;
               scanReminders fuel' key (S i) now (sentCount + 1)
          else scanReminders fuel' key (S i) now sentCount
      end
  end.

(** [for (const [phone, userReminders] of this.reminders.entries())]:
    no key is added or removed during a tick, so the keys are those at
    its start, in insertion order. *)
Fixpoint scanUsers (fuel : nat) (keys : list string) (now : Z)
         (sentCount : Z) : M World Z :=
  match keys with
  | [] => ret sentCount
  | key :: keys' =>
      let* sentCount' := scanReminders fuel key 0 now sentCount in
      scanUsers fuel keys' now sentCount'
  end.

(** [checkReminders()]: the count, or [undefined] ([None]) when the
    [catch] ran.  [fuel] bounds the steps of each array iteration. *)
Definition checkReminders (fuel : nat) (now : Z) : M World (option Z) :=
  try_catch
    (let* keys := gets (fun w => map fst (reminders w)) in
     let* sentCount := scanUsers fuel keys now 0 in
     ret (Some sentCount))
    (fun _ => ret None).

End WithUuid.

Section WithMomentParse.

(** [moment(text)] on an arbitrary string: moment's own parser, an
    instant or an invalid moment. *)
Variable momentParse : string -> option Z.

(** [/(\d{1,2}):?(\d{2})?\s*(am|pm)?/] *)
Definition re_tomorrow : Text.regex :=
  Text.cat [Text.Cap 1 (Text.Cat Text.Digit (Text.Opt Text.Digit));
            Text.Opt (Text.Lit ":");
            Text.Opt (Text.Cap 2 (Text.Cat Text.Digit Text.Digit));
            Text.Star Text.Space;
            Text.Opt (Text.Cap 3 (Text.Alt (Text.Lit "am") (Text.Lit "pm")))].

(** [/in (\d+) (minute|hour|day)s?/] *)
Definition re_in : Text.regex :=
  Text.cat [Text.Lit "in ";
            Text.Cap 1 (Text.Cat Text.Digit (Text.Star Text.Digit));
            Text.Lit " ";
            Text.Cap 2 (Text.Alt (Text.Lit "minute")
                          (Text.Alt (Text.Lit "hour") (Text.Lit "day")));
            Text.Opt (Text.Lit "s")].

(** [/at (\d{1,2}):(\d{2})\s*(am|pm)?/] *)
Definition re_at : Text.regex :=
  Text.cat [Text.Lit "at ";
            Text.Cap 1 (Text.Cat Text.Digit (Text.Opt Text.Digit));
            Text.Lit ":";
            Text.Cap 2 (Text.Cat Text.Digit Text.Digit);
            Text.Star Text.Space;
            Text.Opt (Text.Cap 3 (Text.Alt (Text.Lit "am") (Text.Lit "pm")))].

(** [/(\d{1,2})\/(\d{1,2})\/(\d{4})/] *)
Definition re_date : Text.regex :=
  Text.cat [Text.Cap 1 (Text.Cat Text.Digit (Text.Opt Text.Digit));
            Text.Lit "/";
            Text.Cap 2 (Text.Cat Text.Digit (Text.Opt Text.Digit));
            Text.Lit "/";
            Text.Cap 3 (Text.cat [Text.Digit; Text.Digit; Text.Digit; Text.Digit])].

(** [parseInt(m[i])], and [parseInt(m[i]) || 0] for a group that may be
    [undefined]. *)
Definition intGroup (i : nat) (m : Text.captures) : Z :=
  match Text.group i m with
  | Some s => Text.parseInt s
  | None => 0
  end.

(** [m[3] === 'pm'] *)
Definition isPMGroup (m : Text.captures) : bool :=
  Text.group 3 m === Some "pm".

(** The two [if]s that turn the hour of a 12-hour clock into [finalHour]. *)
Definition finalHourOf (hour : Z) (isPM : bool) : Z :=
  let finalHour := hour in
  let finalHour := if isPM && (hour <? 12) then finalHour + 12 else finalHour in
  let finalHour := if negb isPM && (hour =? 12) then 0 else finalHour in
  finalHour.

(** The range of [Date]: an instant outside it is an invalid moment. *)
Definition timeClip (t : Z) : option Z :=
  if Z.abs t <=? 8640000000000000 then Some t else None.

(** The branches of [parseNaturalLanguageTime], each given the match. *)
Definition tomorrowTime (now : Z) (timeMatch : Text.captures) : Z :=
  let hour := intGroup 1 timeMatch in
  let minute := intGroup 2 timeMatch in
  let isPM := isPMGroup timeMatch in
  let finalHour := finalHourOf hour isPM in
  Moment.setSecond 0 (Moment.setMinute minute
    (Moment.setHour finalHour (Moment.addDays 1 now))).

Definition inTime (now : Z) (inMatch : Text.captures) : option Z :=
  let amount := intGroup 1 inMatch in
  let unit := Text.group 2 inMatch in
  if unit === Some "minute" then timeClip (Moment.addMinutes amount now)
  else if unit === Some "hour" then timeClip (Moment.addHours amount now)
  else (* the match leaves 'day' only *) timeClip (Moment.addDays amount now).

Definition atTime (now : Z) (timeMatch : Text.captures) : Z :=
  let hour := intGroup 1 timeMatch in
  let minute := intGroup 2 timeMatch in
  let isPM := isPMGroup timeMatch in
  let finalHour := finalHourOf hour isPM in
  let targetTime :=
    Moment.setSecond 0 (Moment.setMinute minute (Moment.setHour finalHour now)) in
  (* If time has passed today, schedule for tomorrow *)
  if Moment.isBefore targetTime now
  then Moment.addDays 1 targetTime
  else targetTime.

Definition dateTime (dateMatch : Text.captures) : option Z :=
  let month := intGroup 1 dateMatch - 1 in
  let day := intGroup 2 dateMatch in
  let year := intGroup 3 dateMatch in
  Moment.fromArray year month day.

(** [parseNaturalLanguageTime(text)]: a moment, [None] when invalid. *)
Definition parseNaturalLanguageTime (text : string) (now : Z) : option Z :=
  let lowerText := Text.toLowerCase text in
  match (if Text.includes lowerText "tomorrow"
         then Text.search re_tomorrow lowerText else None) with
  | Some timeMatch => Some (tomorrowTime now timeMatch)
  | None =>
      match Text.search re_in lowerText with
      | Some inMatch => inTime now inMatch
      | None =>
          match Text.search re_at lowerText with
          | Some timeMatch => Some (atTime now timeMatch)
          | None =>
              match Text.search re_date lowerText with
              | Some dateMatch => dateTime dateMatch
              | None => momentParse text
              end
          end
      end
  end.

End WithMomentParse.

(** [getUpcomingReminders(phone, hours)]; [hours] is a whole number, 24
    when the caller gives none. *)
Definition getUpcomingReminders (phone_ : string) (hours now : Z)
  : M World (list Reminder) :=
  try_catch
    (let* userReminders :=
       getUserReminders phone_
         (mkListOptions "active" (opt_limit defaultListOptions)
            (opt_sort defaultListOptions)) in
     let cutoff := Moment.addHours hours now in
     ret (filter (fun reminder =>
                    Moment.isAfter (datetime reminder) now
                    && Moment.isBefore (datetime reminder) cutoff = true)
                 userReminders))
    (fun _ => throw "Failed to get upcoming reminders").

(** The test of the [filter] of [cleanupOldReminders]. *)
Definition keptByCleanup (cutoff : Z) (reminder : Reminder) : bool :=
  (status reminder =? "active")%string || Moment.isAfter (datetime reminder) cutoff.

(** The loop of [cleanupOldReminders] over the entries of the map; a
    [Map#set] on a key that is there keeps the order of the keys. *)
Fixpoint cleanupEntries (keys : list string) (cutoff : Z) (cleanedCount : Z)
  : M World Z :=
  match keys with
  | [] => ret cleanedCount
  | phone_ :: keys' =>
      let* userReminders := gets (fun w => default [] (map_get phone_ (reminders w))) in
      let initialLength := Z.of_nat (length userReminders) in
      (* Remove old sent or cancelled reminders *)
      modify (fun w =>
                set_reminders
                  (map_set phone_
                     (filter (fun reminder => keptByCleanup cutoff reminder = true)
                             userReminders)
                     (reminders w)) w) ;;
      let* newLength :=
        gets (fun w => Z.of_nat (length (default [] (map_get phone_ (reminders w))))) in
      cleanupEntries keys' cutoff (cleanedCount + (initialLength - newLength))
  end.

(** [cleanupOldReminders(daysOld)], [daysOld] 30 when the caller gives
    none; the count is logged and nothing is returned. *)
Definition cleanupOldReminders (daysOld now : Z) : M World unit :=
  let cutoff := Moment.addDays (- daysOld) now in
  let* keys := gets (fun w => map fst (reminders w)) in
  let* cleanedCount := cleanupEntries keys cutoff 0 in
  ret tt.

(** The object [getStats] returns. *)
Record Stats : Type := mkStats {
  stats_total : Z;
  stats_active : Z;
  stats_sent : Z;
  stats_users : Z
}.

(** The loop of [getStats] over the arrays of the map. *)
Fixpoint statsLoop (values : list (list Reminder))
         (totalReminders activeReminders sentReminders : Z) : Z * Z * Z :=
  match values with
  | [] => (totalReminders, activeReminders, sentReminders)
  | userReminders :: values' =>
      statsLoop values'
        (totalReminders + Z.of_nat (length userReminders))
        (activeReminders
         + Z.of_nat (length (filter (fun r => (status r =? "active")%string = true)
                                    userReminders)))
        (sentReminders
         + Z.of_nat (length (filter (fun r => (status r =? "sent")%string = true)
                                    userReminders)))
  end.

(** [getStats()] *)
Definition getStats : M World Stats :=
  gets (fun w =>
          let '(totalReminders, activeReminders, sentReminders) :=
            statsLoop (map snd (reminders w)) 0 0 0 in
          mkStats totalReminders activeReminders sentReminders
                  (Z.of_nat (length (reminders w)))).

End ReminderService.

(** ** handlers/messageHandler.js (src/index.js, line 193 on) *)
Module MessageHandler.
Import Eff.
Local Open Scope eff_scope.

(** [/remind.*to/] *)
Definition re_remind_to : Text.regex :=
  Text.cat [Text.Lit "remind"; Text.Star Text.AnyChar; Text.Lit "to"].

(** [detectIntent(message)] *)
Definition detectIntent (message : string) : string :=
  let lowerMessage := Text.toLowerCase message in
  (* Image generation keywords *)
  if Text.includes lowerMessage "generate image" ||
     Text.includes lowerMessage "create image" ||
     Text.includes lowerMessage "draw" ||
     Text.includes lowerMessage "picture" ||
     Text.includes lowerMessage "image of"
  then "image_generation"
  (* Reminder keywords *)
  else if Text.includes lowerMessage "remind me" ||
          Text.includes lowerMessage "reminder" ||
          Text.includes lowerMessage "schedule" ||
          Text.test re_remind_to lowerMessage
  then "reminder_setting"
  (* Question keywords *)
  else if Text.startsWith lowerMessage "what" ||
          Text.startsWith lowerMessage "how" ||
          Text.startsWith lowerMessage "why" ||
          Text.startsWith lowerMessage "when" ||
          Text.startsWith lowerMessage "where" ||
          Text.includes lowerMessage "?"
  then "question"
  (* Greeting keywords *)
  else if Text.includes lowerMessage "hello" ||
          Text.includes lowerMessage "hi" ||
          Text.includes lowerMessage "hey" ||
          Text.includes lowerMessage "good morning" ||
          Text.includes lowerMessage "good afternoon" ||
          Text.includes lowerMessage "good evening"
  then "greeting"
  else "chat".

(** The replies of [handleCancelReminderCommand] (their pictographs are
    left out). *)
Definition newline : string := String "010" "".
Definition quote : string := String (ascii_of_nat 34) "".

Definition monthShort (m : Z) : string :=
  nth (Z.to_nat m)
    ["Jan"; "Feb"; "Mar"; "Apr"; "May"; "Jun";
     "Jul"; "Aug"; "Sep"; "Oct"; "Nov"; "Dec"] "".

(** [mom.format('MMM DD, YYYY HH:mm')] *)
Definition format_MMM_DD_YYYY_HH_mm (t : Z) : string :=
  monthShort (Moment.month t) ++ " " ++ Moment.pad 2 (Moment.date t) ++ ", "
    ++ Moment.pad 4 (Moment.year t) ++ " " ++ Moment.pad 2 (Moment.hour t)
    ++ ":" ++ Moment.pad 2 (Moment.minute t).

Definition replyMissingId : string :=
  "Please provide the reminder ID." ++ newline ++ newline
    ++ "Example: /cancel 12345678".
Definition replyNotFound : string :=
  "Reminder not found. Use /reminders to see your active reminders.".
Definition replyCancelled (r : ReminderService.Reminder) : string :=
  "Reminder cancelled!" ++ newline ++ newline
    ++ quote ++ ReminderService.message r ++ quote ++ newline
    ++ "Was scheduled for: "
    ++ format_MMM_DD_YYYY_HH_mm (ReminderService.datetime r).
Definition replyCancelError : string :=
  "Sorry, I couldn't cancel the reminder. Please try again.".

(** [Array#find(r => r.id.startsWith(prefix))] *)
Fixpoint findByPrefix (prefix : string) (l : list ReminderService.Reminder)
  : option ReminderService.Reminder :=
  match l with
  | [] => None
  | r :: l' =>
      if Text.startsWith (ReminderService.id r) prefix then Some r
      else findByPrefix prefix l'
  end.

(** [handleCancelReminderCommand(phone, args, contact)]; [send] is the
    handler's [whatsappService.sendMessage]. *)
Definition handleCancelReminderCommand (send : ReminderService.Notifier)
           (phone args : string) : M ReminderService.World unit :=
  if (Text.trim args =? "")%string
  then ReminderService.sendMessage send phone replyMissingId
  else
    try_catch
      ((* Find reminder by partial ID *)
       let* userReminders :=
         ReminderService.getUserReminders phone
           (ReminderService.mkListOptions "active"
              (ReminderService.opt_limit ReminderService.defaultListOptions)
              (ReminderService.opt_sort ReminderService.defaultListOptions)) in
       match findByPrefix (Text.trim args) userReminders with
       | None => ReminderService.sendMessage send phone replyNotFound
       | Some reminder =>
           ReminderService.cancelReminder phone (ReminderService.id reminder) ;;
           ReminderService.sendMessage send phone (replyCancelled reminder)
       end)
      (fun _ => ReminderService.sendMessage send phone replyCancelError).

(** [s.split(' ')] *)
Fixpoint split_space (s : string) : list string :=
  match s with
  | EmptyString => [EmptyString]
  | String a s' =>
      if Ascii.eqb a " " then EmptyString :: split_space s'
      else match split_space s' with
           | first :: rest => String a first :: rest
           | [] => [String a EmptyString]
           end
  end.

(** [parts.join(' ')] *)
Fixpoint join_space (parts : list string) : string :=
  match parts with
  | [] => ""
  | [part] => part
  | part :: parts' => part ++ " " ++ join_space parts'
  end.

(** The replies of [handleCommand] (their pictographs are left out). *)
Definition replyUnknownCommand (command : string) : string :=
  "Unknown command: " ++ command ++ newline ++ newline
    ++ "Type /help to see available commands.".
Definition replyCommandError : string :=
  "Sorry, I encountered an error processing your command. Please try again.".

Section WithCommands.

(** The state the handlers act on, and the [contact] they are given. *)
Variables (State Contact : Type).

(** [this.whatsappService.sendMessage(phone, text)] *)
Variable sendMessage : string -> string -> M State unit.

(** [this.commands[command]]: the handler bound under that key, if any.
    The method is called for messages that start with "/", which no
    property inherited from [Object.prototype] does. *)
Variable commands : string -> option (string -> string -> Contact -> M State unit).

(** [handleCommand(phone, message, contact)] *)
Definition handleCommand (phone message : string) (contact : Contact) : M State unit :=
  try_catch
    (let commandParts := split_space message in
     let command := Text.toLowerCase (hd "" commandParts) in
     let args := join_space (tl commandParts) in
     match commands command with
     | Some handler => handler phone args contact
     | None => sendMessage phone (replyUnknownCommand command)
     end)
    (fun _ => sendMessage phone replyCommandError).

End WithCommands.
End MessageHandler.

(** ** src/services/mistralService.js *)
Module MistralService.
Import Eff.
Local Open Scope eff_scope.

(** An entry of a conversation: [{ role, content }]. *)
Record ChatMessage : Type := mkChatMessage {
  role : string;
  content : string
}.

(** The service's [conversationHistory]: a [Map] from phone to the array
    of that user's past messages. *)
Abbreviation History := (gmap string (list ChatMessage)).

(** The [options] of [chat] that reach the request, with their defaults
    (the sampling temperature, a float, is left out). *)
Record ChatOptions : Type := mkChatOptions {
  opt_model : string;
  opt_max_tokens : Z;
  opt_system_prompt : string
}.
Definition defaultChatOptions : ChatOptions :=
  mkChatOptions "mistral-large-latest" 500
    "You are a helpful WhatsApp assistant. Be concise, friendly, and helpful. Respond in a conversational manner suitable for messaging.".

(** What [axios.post] does with a request: it rejects with an error, or
    resolves with the contents of [response.data.choices] (empty when the
    property is missing). *)
Inductive ApiResponse : Type :=
| Rejected (msg : string)
| Resolved (choices : list string).

(** [messages.splice(1, deleteCount)] *)
Definition splice1 (deleteCount : nat) (messages : list ChatMessage)
  : list ChatMessage :=
  (take 1 messages ++ drop (1 + deleteCount) messages)%list.

(** The [messages] array of a request: the system prompt, the history and
    the new user message, cut down to 21 entries. *)
Definition buildMessages (system_prompt : string) (history : list ChatMessage)
           (message : string) : list ChatMessage :=
  let messages :=
    ([mkChatMessage "system" system_prompt] ++ history
       ++ [mkChatMessage "user" message])%list in
  (* Keep history manageable (last 10 exchanges) *)
  if (21 <? length messages)%nat
  then splice1 (length messages - 21) messages
  else messages.

Section WithApi.

(** The text generator behind [axios.post]: model, messages and
    max_tokens of the request to the response. *)
Variable post : string -> list ChatMessage -> Z -> ApiResponse.

(** [chat(userPhone, message, options)] *)
Definition chat (userPhone message : string) (options : ChatOptions)
  : M History string :=
  try_catch
    ((* Get or initialize conversation history *)
     let* has := gets (fun h : History => bool_decide (is_Some (h !! userPhone))) in
     (if negb has then modify (fun h : History => <[userPhone := []]> h) else ret tt) ;;
     let* history := gets (fun h : History => default [] (h !! userPhone)) in
     let messages := buildMessages (opt_system_prompt options) history message in
     match post (opt_model options) messages (opt_max_tokens options) with
     | Rejected msg => throw msg
     | Resolved [] => throw "No response generated"
     | Resolved (assistantMessage :: _) =>
         (* Update conversation history *)
         modify (fun h : History =>
                   <[userPhone := (history ++ [mkChatMessage "user" message;
                                               mkChatMessage "assistant" assistantMessage])%list]> h) ;;
         ret assistantMessage
     end)
    (fun msg => throw ("Failed to generate chat response: " ++ msg)).

End WithApi.

(** [clearConversationHistory(userPhone)] *)
Definition clearConversationHistory (userPhone : string) : M History unit :=
  let* has := gets (fun h : History => bool_decide (is_Some (h !! userPhone))) in
  if has then modify (fun h : History => delete userPhone h) else ret tt.

(** [getConversationHistory(userPhone)] *)
Definition getConversationHistory (userPhone : string) : M History (list ChatMessage) :=
  gets (fun h : History => default [] (h !! userPhone)).

Section WithTimestamp.

(** [entry.timestamp]: the value of that property of a stored entry,
    [undefined] ([None]) for an entry that has none. *)
Variable timestamp : ChatMessage -> option Z.

(** The test of [cleanupOldConversations] on one history; a timestamp of 0
    is falsy. *)
Definition isOldConversation (cutoff : Z) (history : list ChatMessage) : bool :=
  (length history =? 0)%nat ||
  match last history with
  | Some entry =>
      match timestamp entry with
      | Some t => negb (t =? 0) && (t <? cutoff)
      | None => false
      end
  | None => false
  end.

(** [cleanupOldConversations(maxAgeHours)], [maxAgeHours] 24 when the
    caller gives none: the entries that pass the test are deleted. *)
Definition cleanupOldConversations (maxAgeHours now : Z) : M History unit :=
  let cutoff := now - maxAgeHours * 60 * 60 * 1000 in
  modify (fun h : History =>
            filter (fun entry => isOldConversation cutoff (snd entry) = false) h).

End WithTimestamp.
End MistralService.

(** ** services/whatsappService.js (src/services/mistralService.js, line 295 on) *)
Module WhatsAppService.

(** [phone.replace(/\D/g, '')] *)
Fixpoint digitsOf (s : string) : string :=
  match s with
  | EmptyString => EmptyString
  | String a s' => if Text.isDigit a then String a (digitsOf s') else digitsOf s'
  end.

(** [formatPhone(phone)] *)
Definition formatPhone (phone : string) : string :=
  (* Remove any non-digit characters *)
  let formatted := digitsOf phone in
  (* If it doesn't start with country code, assume it's US (+1) *)
  if negb (Text.startsWith formatted "1") && (String.length formatted =? 10)%nat
  then "1" ++ formatted
  else formatted.

End WhatsAppService.

(* ===================================================================== *)
(** * Part II. The vocabulary of the spec, and sample stores                *)
(* ===================================================================== *)

Module RS := ReminderService.

(** The three ways [updateReminder] fails. *)
Definition updateFailure (msg : string) : Prop :=
  msg = "Failed to update reminder: Reminder not found" \/
  msg = "Failed to update reminder: Invalid date/time format" \/
  msg = "Failed to update reminder: Reminder time cannot be in the past".

(** A sample [uuidv4]: "id-00", "id-01", ... *)
Definition sampleIds (n : nat) : string := "id-" ++ Moment.pad 2 (Z.of_nat n).

(** A store with one reminder of alice, "call mom", due at instant 2000. *)
Definition oneReminder : RS.World :=
  snd (RS.setReminder sampleIds "alice" "call mom" (Some 2000)
         RS.defaultSetOptions 1000 RS.constructor).

(** The reminder of [oneReminder]. *)
Definition callMom : RS.Reminder :=
  RS.mkReminder "id-00" "alice" "call mom" 2000 "UTC" false None "normal"
    "active" 1000 false None None None.

(** The spec's [InvalidTime]: the two time errors of the store, as rethrown
    by [setReminder] and [updateReminder]. *)
Definition InvalidTime {A : Type} (o : Eff.Outcome A) : bool :=
  match o with
  | Eff.Throw msg =>
      (msg =? "Failed to set reminder: Invalid date/time format")%string ||
      (msg =? "Failed to set reminder: Reminder time cannot be in the past")%string ||
      (msg =? "Failed to update reminder: Invalid date/time format")%string ||
      (msg =? "Failed to update reminder: Reminder time cannot be in the past")%string
  | _ => false
  end.

(** The spec's [NotFound]. *)
Definition NotFound {A : Type} (o : Eff.Outcome A) : bool :=
  match o with
  | Eff.Throw msg =>
      (msg =? "Failed to cancel reminder: Reminder not found")%string ||
      (msg =? "Failed to update reminder: Reminder not found")%string
  | _ => false
  end.

(** The operation returned. *)
Definition succeeds {A : Type} (o : Eff.Outcome A) : bool :=
  match o with Eff.Return _ => true | _ => false end.

(** [list(recipient, {status: 'active'})]: the other options at their
    defaults. *)
Definition activeOnly : RS.ListOptions :=
  RS.mkListOptions "active" (RS.opt_limit RS.defaultListOptions)
    (RS.opt_sort RS.defaultListOptions).

(** A reminder matches the fields (recipient, text, dueAt). *)
Definition matchesFields (recipient text : string) (dueAt : Z) (r : RS.Reminder) : bool :=
  (RS.phone r =? recipient)%string && (RS.message r =? text)%string &&
  (RS.datetime r =? dueAt).

(** The number of reminders of [l] that satisfy [f]. *)
Fixpoint countIf (f : RS.Reminder -> bool) (l : list RS.Reminder) : nat :=
  match l with
  | [] => O
  | r :: l' => ((if f r then 1 else 0) + countIf f l')%nat
  end.

(** The reminders of [l] with status 'active', as [getUserReminders]
    filters them. *)
Definition activeOf (l : list RS.Reminder) : list RS.Reminder :=
  filter (fun r => (RS.status r =? "active")%string = true) l.

(** One recurrence unit after [t]: the spec's daily, weekly and monthly. *)
Definition advance (unit : string) (t : Z) : option Z :=
  if (unit =? "daily")%string then Some (Moment.addDays 1 t)
  else if (unit =? "weekly")%string then Some (Moment.addWeeks 1 t)
  else if (unit =? "monthly")%string then Some (Moment.addMonths 1 t)
  else None.

(** A Notifier that accepts every message. *)
Definition acceptAll : RS.Notifier := fun _ _ _ => None.

(** A store with one daily reminder of alice due at 2000, and a Notifier
    that accepts every message. *)
Definition dailyStandup : RS.World :=
  snd (RS.setReminder sampleIds "alice" "stand-up" (Some 2000)
         (RS.mkSetOptions "UTC" true (Some "daily") "normal") 1000
         (snd (RS.setWhatsAppService acceptAll RS.constructor))).

(** The reminder of [dailyStandup]. *)
Definition standup : RS.Reminder :=
  RS.mkReminder "id-00" "alice" "stand-up" 2000 "UTC" true (Some "daily") "normal"
    "active" 1000 false None None None.

(** A Notifier whose second call throws. *)
Definition failSecond : RS.Notifier :=
  fun n _ _ => if (n =? 1)%nat then Some "Request failed with status code 500" else None.

(** Three reminders of alice, all due at 2000; the Notifier throws on its
    second call. *)
Definition threeDue : RS.World :=
  let w := snd (RS.setWhatsAppService failSecond RS.constructor) in
  let w := snd (RS.setReminder sampleIds "alice" "one" (Some 2000) RS.defaultSetOptions 1000 w) in
  let w := snd (RS.setReminder sampleIds "alice" "two" (Some 2000) RS.defaultSetOptions 1000 w) in
  snd (RS.setReminder sampleIds "alice" "three" (Some 2000) RS.defaultSetOptions 1000 w).

(** The store of [oneReminder], with a Notifier that accepts every message. *)
Definition oneReminderOnline : RS.World :=
  snd (RS.setReminder sampleIds "alice" "call mom" (Some 2000)
         RS.defaultSetOptions 1000
         (snd (RS.setWhatsAppService acceptAll RS.constructor))).

(** The cues of the spec, on the lower-cased message. *)
Definition imageCue (text : string) : bool :=
  existsb (Text.includes text)
    ["generate image"; "create image"; "draw"; "picture"; "image of"].
Definition reminderCue (text : string) : bool :=
  existsb (Text.includes text) ["remind me"; "reminder"; "schedule"]
  || Text.test MessageHandler.re_remind_to text.
Definition questionCue (text : string) : bool :=
  existsb (Text.startsWith text) ["what"; "how"; "why"; "when"; "where"]
  || Text.includes text "?".
Definition greetingCue (text : string) : bool :=
  existsb (Text.includes text)
    ["hello"; "hi"; "hey"; "good morning"; "good afternoon"; "good evening"].

(** A priority-ordered match: the intent of the first rule whose cue holds. *)
Fixpoint firstMatch (rules : list ((string -> bool) * string)) (otherwise : string)
         (text : string) : string :=
  match rules with
  | [] => otherwise
  | (cue, intent) :: rules' =>
      if cue text then intent else firstMatch rules' otherwise text
  end.

(** The rules of the spec, in their order of priority. *)
Definition intentRules : list ((string -> bool) * string) :=
  [(imageCue, "image_generation"); (reminderCue, "reminder_setting");
   (questionCue, "question"); (greetingCue, "greeting")].

Module MS := MistralService.

(** A text generator that always answers "ok". *)
Definition answersOk (model : string) (messages : list MS.ChatMessage)
           (max_tokens : Z) : MS.ApiResponse :=
  MS.Resolved ["ok"].

(** The history after [n] more chats "hi" of alice, each answered. *)
Fixpoint chats (n : nat) (h : gmap string (list MS.ChatMessage))
  : gmap string (list MS.ChatMessage) :=
  match n with
  | O => h
  | S n' => chats n' (snd (MS.chat answersOk "alice" "hi" MS.defaultChatOptions h))
  end.

(** A text generator that answers with the request it was sent, told by the
    roles of its messages, one initial each: "s" for the system instruction,
    "u" for a user message, "a" for an answer of the assistant. *)
Definition answersRoles (model : string) (messages : list MS.ChatMessage)
           (max_tokens : Z) : MS.ApiResponse :=
  MS.Resolved [String.concat "" (map (fun m => substring 0 1 (MS.role m)) messages)].

(** The request of a chat once the stored history [history] has twenty
    entries or more: the system instruction, the last 19 entries of the
    history and the new message. *)
Definition cappedRequest (system_prompt : string) (history : list MS.ChatMessage)
           (message : string) : list MS.ChatMessage :=
  (MS.mkChatMessage "system" system_prompt :: drop (length history - 19) history
     ++ [MS.mkChatMessage "user" message])%list.

(** The day number one month after day [z], as [addMonths 1] computes it. *)
Definition nextMonthDay (z : Z) : Z :=
  let '(y, m, d) := Moment.civilFromDays z in
  Moment.daysFromCivil (y + m / 12) (m mod 12 + 1) (Z.min d (Moment.daysInMonth y m)).

(** Reminders of an array that a tick at [now] would deliver. *)
Definition dueIn (now : Z) (arr : list RS.Reminder) : nat := countIf (RS.isDue now) arr.

(** All the reminders of the map, and those among them due at [now]. *)
Fixpoint total (m : list (string * list RS.Reminder)) : nat :=
  match m with
  | [] => O
  | (_, arr) :: m' => (length arr + total m')%nat
  end.
Fixpoint dueTotal (now : Z) (m : list (string * list RS.Reminder)) : nat :=
  match m with
  | [] => O
  | (_, arr) :: m' => (dueIn now arr + dueTotal now m')%nat
  end.

(** The reminders under one key that are due at [now]. *)
Definition dueOf (now : Z) (key : string) (m : list (string * list RS.Reminder)) : nat :=
  dueIn now (default [] (RS.map_get key m)).

(** From [m] to [m1] the keys stay and no key gets more due reminders. *)
Definition settles (now : Z) (m m1 : list (string * list RS.Reminder)) : Prop :=
  map fst m1 = map fst m /\ forall key, (dueOf now key m1 <= dueOf now key m)%nat.

(** ** Vocabulary of the further properties *)

(** The key a listing sorts by. *)
Definition sortKey (options : RS.ListOptions) : RS.Reminder -> Z :=
  if (RS.opt_sort options =? "datetime")%string then RS.datetime else RS.created_at.

(** The list is in ascending order of [key]. *)
Definition ascending (key : RS.Reminder -> Z) (l : list RS.Reminder) : Prop :=
  StronglySorted (fun a b => key a <= key b) l.

(** The reminder is due strictly after [now] and strictly before [hours]
    hours later. *)
Definition inWindow (now hours : Z) (r : RS.Reminder) : Prop :=
  now < RS.datetime r < now + hours * 3600000.

(** What [cleanupOldReminders] keeps of an array, and of the map. *)
Definition cleaned (cutoff : Z) (arr : list RS.Reminder) : list RS.Reminder :=
  filter (fun reminder => RS.keptByCleanup cutoff reminder = true) arr.

Definition cleanedMap (cutoff : Z) (m : list (string * list RS.Reminder))
  : list (string * list RS.Reminder) :=
  map (fun entry => (fst entry, cleaned cutoff (snd entry))) m.

(** The reminders of an array with a given status; a sum over the arrays
    of the map. *)
Definition hasStatus (st : string) (arr : list RS.Reminder) : nat :=
  length (filter (fun r => (RS.status r =? st)%string = true) arr).

Fixpoint sumOver (f : list RS.Reminder -> nat) (m : list (string * list RS.Reminder)) : nat :=
  match m with
  | [] => O
  | (_, arr) :: m' => (f arr + sumOver f m')%nat
  end.

(** A reminder that a delivery attempt has dealt with. *)
Definition settled (r : RS.Reminder) : Prop :=
  RS.sent r = true \/ RS.status r = "failed".

(** The properties of a reminder that a delivery leaves alone. *)
Definition sameReminder (r r' : RS.Reminder) : Prop :=
  RS.id r' = RS.id r /\ RS.phone r' = RS.phone r /\ RS.message r' = RS.message r /\
  RS.datetime r' = RS.datetime r /\ RS.created_at r' = RS.created_at r /\
  RS.recurring r' = RS.recurring r /\ RS.recurrence_type r' = RS.recurrence_type r.

(** What a tick at [now] may make of a reminder: nothing, or, when it was
    due, the same reminder settled. *)
Definition descends (now : Z) (r r' : RS.Reminder) : Prop :=
  r' = r \/ (RS.isDue now r = true /\ settled r' /\ sameReminder r r').

(** Every reminder of [m] is still at its place in [m'], as a descendant. *)
Definition evolves (now : Z) (m m' : list (string * list RS.Reminder)) : Prop :=
  forall key arr i r,
    RS.map_get key m = Some arr -> arr !! i = Some r ->
    exists arr' r',
      RS.map_get key m' = Some arr' /\ arr' !! i = Some r' /\ descends now r r'.

(** The store after one tick at each instant of [times], in turn. *)
Fixpoint runTicks (uuidv4 : nat -> string) (fuel : nat) (times : list Z)
         (w : RS.World) : RS.World :=
  match times with
  | [] => w
  | t :: times' => runTicks uuidv4 fuel times' (snd (RS.checkReminders uuidv4 fuel t w))
  end.

(** A Notifier that is set and accepts every message. *)
Definition accepting (svc : option RS.Notifier) : Prop :=
  exists send, svc = Some send /\ forall n to text, send n to text = None.

(** From [w] to [w'] the messages [sent] went out, one at most for each
    reminder that stopped being due at [now]. *)
Definition sentSince (now : Z) (w w' : RS.World) (sent : list (string * string)) : Prop :=
  RS.whatsappService w' = RS.whatsappService w /\
  RS.outbox w' = (RS.outbox w ++ sent)%list /\
  (length sent + dueTotal now (RS.reminders w') <= dueTotal now (RS.reminders w))%nat /\
  (accepting (RS.whatsappService w) ->
   (length sent + dueTotal now (RS.reminders w') = dueTotal now (RS.reminders w))%nat) /\
  (RS.whatsappService w = None -> sent = []).

(** The ids of all the reminders of the map. *)
Definition allIds (m : list (string * list RS.Reminder)) : list string :=
  concat (map (fun entry => map RS.id (snd entry)) m).

(** The keys of the map are distinct, the ids of its reminders are
    distinct, and each one was returned by an earlier call of [uuidv4]. *)
Definition idsIssued (uuidv4 : nat -> string) (w : RS.World) : Prop :=
  NoDup (map fst (RS.reminders w)) /\
  NoDup (allIds (RS.reminders w)) /\
  forall x, In x (allIds (RS.reminders w)) ->
            exists n, (n < RS.uuidCalls w)%nat /\ x = uuidv4 n.

(** A [uuidv4] that never repeats: "i", "ii", "iii", ... *)
Fixpoint tally (n : nat) : string :=
  match n with
  | O => "i"
  | S n' => String "i" (tally n')
  end.

(** The text has one of the three relative forms of the parser: "tomorrow"
    with a time, "in N units", or "at H:MM". *)
Definition relativeForm (text : string) : bool :=
  let lowerText := Text.toLowerCase text in
  (Text.includes lowerText "tomorrow" && Text.test RS.re_tomorrow lowerText)
  || Text.test RS.re_in lowerText || Text.test RS.re_at lowerText.

(** A string of decimal digits. *)
Fixpoint allDigits (s : string) : bool :=
  match s with
  | EmptyString => true
  | String a s' => Text.isDigit a && allDigits s'
  end.

(** The milliseconds of the units of the form "in N units". *)
Definition unitMs (unit : string) : Z :=
  if (unit =? "minute")%string then Moment.msPerMinute
  else if (unit =? "hour")%string then Moment.msPerHour
  else Moment.msPerDay.

(** The loop of the matcher for [r*]. *)
Definition starLoop (r1 : Text.regex) (k : string -> Text.captures -> option Text.captures)
  : nat -> string -> Text.captures -> option Text.captures :=
  fix loop (n : nat) (s : string) (c : Text.captures) {struct n} : option Text.captures :=
    match n with
    | O => k s c
    | S n' =>
        match Text.exec r1 s c
                (fun s' c' =>
                   if (String.length s' <? String.length s)%nat
                   then loop n' s' c' else None) with
        | Some res => Some res
        | None => k s c
        end
    end.

(** What /cancel searches: the first 50 active reminders of the sender, by
    dueAt. *)
Definition cancelCandidates (phone : string) (w : RS.World) : list RS.Reminder :=
  take 50 (RS.sortBy RS.datetime (activeOf (default [] (RS.map_get phone (RS.reminders w))))).

(** The world after one more message went out. *)
Definition afterSend (to text : string) (w : RS.World) : RS.World :=
  RS.mkWorld (RS.reminders w) (RS.whatsappService w) (RS.uuidCalls w)
    (S (RS.sendCalls w)) (RS.outbox w ++ [(to, text)]).

(** A stored history is a sequence of exchanges: a user entry, then the
    assistant's answer. *)
Fixpoint exchanges (l : list MS.ChatMessage) : bool :=
  match l with
  | [] => true
  | [_] => false
  | u :: a :: l' =>
      (MS.role u =? "user")%string && (MS.role a =? "assistant")%string && exchanges l'
  end.

Definition historiesAlternate (h : gmap string (list MS.ChatMessage)) : Prop :=
  forall phone l, h !! phone = Some l -> exchanges l = true.

(** The answer of the text generator is usable. *)
Definition answered (r : MS.ApiResponse) : option string :=
  match r with
  | MS.Resolved (a :: _) => Some a
  | _ => None
  end.

(** The patch of a reschedule: [{ datetime: t }]. *)
Definition reschedule (t : Z) : RS.Updates :=
  RS.mkUpdates None None None (Some (RS.Truthy (Some t))) None None None None None None None
    None None None.

(** A reminder after a reschedule to [t] made at [now]. *)
Definition rescheduled (t now : Z) (r : RS.Reminder) : RS.Reminder :=
  RS.mkReminder (RS.id r) (RS.phone r) (RS.message r) t (RS.timezone r) (RS.recurring r)
    (RS.recurrence_type r) (RS.priority r) (RS.status r) (RS.created_at r) (RS.sent r)
    (RS.sent_at r) (RS.error r) (Some now).

(* ===================================================================== *)
(** * Part III. Properties                                                  *)
(* ===================================================================== *)

(** Unfolds the plumbing of the state-and-exception monad. *)
Ltac eff_unfold :=
  unfold Eff.try_catch, Eff.bind, Eff.gets, Eff.modify, Eff.throw, Eff.ret,
    Eff.stop in *.

(** ** The reminders map *)
Section MapFacts.

Implicit Types (m : list (string * list RS.Reminder)) (k : string)
  (v arr : list RS.Reminder).

Lemma map_get_set_eq m k v : RS.map_get k (RS.map_set k v m) = Some v.
Proof.
  induction m as [|[k' v'] m IH]; simpl.
  - now rewrite String.eqb_refl.
  - destruct (String.eqb_spec k' k) as [->|Hne]; simpl.
    + now rewrite String.eqb_refl.
    + apply String.eqb_neq in Hne. now rewrite Hne.
Qed.

Lemma map_get_set_ne m k k' v :
  k <> k' -> RS.map_get k' (RS.map_set k v m) = RS.map_get k' m.
Proof.
  intros Hkk'. induction m as [|[k0 v0] m IH]; simpl.
  - apply String.eqb_neq in Hkk'. now rewrite Hkk'.
  - destruct (String.eqb_spec k0 k) as [->|Hne]; simpl.
    + apply String.eqb_neq in Hkk'. now rewrite Hkk'.
    + now rewrite IH.
Qed.

(** Writing back the array that is already there changes nothing. *)
Lemma map_set_same m k v : RS.map_get k m = Some v -> RS.map_set k v m = m.
Proof.
  induction m as [|[k0 v0] m IH]; simpl; [discriminate|].
  destruct (String.eqb_spec k0 k) as [->|Hne].
  - now intros [= ->].
  - intros H. now rewrite IH.
Qed.

Lemma map_set_set m k v v' :
  RS.map_set k v' (RS.map_set k v m) = RS.map_set k v' m.
Proof.
  induction m as [|[k0 v0] m IH]; simpl.
  - now rewrite String.eqb_refl.
  - destruct (String.eqb_spec k0 k) as [->|Hne]; simpl.
    + now rewrite String.eqb_refl.
    + apply String.eqb_neq in Hne. rewrite Hne. now rewrite IH.
Qed.

Lemma map_set_keys m k v v0 :
  RS.map_get k m = Some v0 -> map fst (RS.map_set k v m) = map fst m.
Proof.
  induction m as [|[k0 v1] m IH]; simpl; [discriminate|].
  destruct (String.eqb_spec k0 k) as [->|Hne]; simpl; [easy|].
  intros H. now rewrite IH.
Qed.

Lemma findIndex_lookup reminderId arr i :
  RS.findIndex reminderId arr = Some i ->
  exists r, arr !! i = Some r /\ RS.id r = reminderId.
Proof.
  revert i. induction arr as [|r arr IH]; simpl; intros i; [discriminate|].
  destruct (String.eqb_spec (RS.id r) reminderId) as [Heq|Hne].
  - intros [= <-]. now exists r.
  - destruct (RS.findIndex reminderId arr) as [j|]; simpl; [|discriminate].
    intros [= <-]. now apply IH.
Qed.

Lemma findIndex_In reminderId arr r :
  In r arr -> RS.id r = reminderId ->
  exists i, RS.findIndex reminderId arr = Some i.
Proof.
  induction arr as [|r0 arr IH]; simpl; [easy|].
  intros Hin Hid. destruct (String.eqb_spec (RS.id r0) reminderId) as [Heq|Hne].
  - now exists O.
  - destruct Hin as [->|Hin]; [congruence|].
    destruct (IH Hin Hid) as [i ->]. now exists (S i).
Qed.

(** Changing the status of the found element does not move the find. *)
Lemma findIndex_set_status reminderId arr i r s :
  RS.findIndex reminderId arr = Some i -> arr !! i = Some r ->
  RS.findIndex reminderId (<[i := RS.set_status s r]> arr) = Some i.
Proof.
  revert i. induction arr as [|r0 arr IH]; simpl; intros i; [discriminate|].
  destruct (String.eqb_spec (RS.id r0) reminderId) as [Heq|Hne].
  - intros [= <-] [= <-]. simpl. rewrite Heq. now rewrite String.eqb_refl.
  - destruct (RS.findIndex reminderId arr) as [j|] eqn:Hj; simpl; [|discriminate].
    intros [= <-] Hr. simpl in *. apply String.eqb_neq in Hne. rewrite Hne.
    now rewrite (IH j eq_refl Hr).
Qed.

End MapFacts.

(** ** The calendar *)

(** Splits the tests of the goal and leaves linear arithmetic with floors. *)
Ltac calendar_arith :=
  repeat match goal with
         | |- context [if ?b then _ else _] => destruct b eqn:?
         end;
  Z.to_euclidean_division_equations; lia.

(** The fields [civilFromDays] computes on the way: the 400-year era, the
    year of the era, the day of the year counted from March 1st, and the
    month counted from March. *)
Lemma civilFromDays_fields z :
  exists era yoe doy mp,
    0 <= yoe <= 399 /\ 0 <= doy <= 365 /\ 0 <= mp <= 11 /\
    mp = (5 * doy + 2) / 153 /\
    z + 719468 = era * 146097 + (365 * yoe + yoe / 4 - yoe / 100) + doy /\
    Moment.civilFromDays z
    = (yoe + era * 400 + (if (if mp <? 10 then mp + 3 else mp - 9) <=? 2 then 1 else 0),
       if mp <? 10 then mp + 3 else mp - 9,
       doy - (153 * mp + 2) / 5 + 1).
Proof.
  unfold Moment.civilFromDays. cbv zeta.
  pose proof (Z.div_mod (z + 719468) 146097 ltac:(lia)) as Hz.
  pose proof (Z.mod_pos_bound (z + 719468) 146097 ltac:(lia)) as Hdoe.
  remember ((z + 719468) / 146097) as era eqn:Hera.
  remember (z + 719468 - era * 146097) as doe eqn:Edoe.
  assert (Hrange : 0 <= doe < 146097) by lia.
  clear Hz Hdoe Hera.
  remember ((doe - doe / 1460 + doe / 36524 - doe / 146096) / 365) as yoe eqn:Eyoe.
  remember (doe - (365 * yoe + yoe / 4 - yoe / 100)) as doy eqn:Edoy.
  exists era, yoe, doy, ((5 * doy + 2) / 153).
  assert (Hyoe : 0 <= yoe <= 399).
  { subst yoe. Z.to_euclidean_division_equations. lia. }
  assert (Hdoy : 0 <= doy <= 365).
  { subst doy yoe. Z.to_euclidean_division_equations. lia. }
  split; [exact Hyoe|]. split; [exact Hdoy|].
  split; [Z.to_euclidean_division_equations; lia|].
  split; [reflexivity|]. split; [lia|reflexivity].
Qed.

(** The two calendar conversions agree: the day number of the civil date of
    a day is that day. *)
Lemma daysFromCivil_civilFromDays z :
  let '(y, m, d) := Moment.civilFromDays z in Moment.daysFromCivil y m d = z.
Proof.
  destruct (civilFromDays_fields z) as (era & yoe & doy & mp & Hyoe & Hdoy & Hmp & Emp & Hz & ->).
  unfold Moment.daysFromCivil. cbv zeta. calendar_arith.
Qed.

Lemma addMonths_one t :
  Moment.addMonths 1 t
  = Moment.MakeDate (nextMonthDay (Moment.Day t)) (t mod Moment.msPerDay).
Proof.
  unfold Moment.addMonths, nextMonthDay, Moment.year, Moment.month, Moment.date.
  destruct (Moment.civilFromDays (Moment.Day t)) as [[y m] d]. simpl.
  replace (m - 1 + 1) with m by lia. reflexivity.
Qed.

(** One month later is at least 28 days later. *)
Lemma nextMonthDay_later z : z + 28 <= nextMonthDay z.
Proof.
  unfold nextMonthDay.
  destruct (civilFromDays_fields z) as (era & yoe & doy & mp & Hyoe & Hdoy & Hmp & Emp & Hz & ->).
  unfold Moment.daysFromCivil, Moment.daysInMonth. cbv zeta. calendar_arith.
Qed.

Lemma addMonths_later t : t + 28 * Moment.msPerDay <= Moment.addMonths 1 t.
Proof.
  rewrite addMonths_one. unfold Moment.MakeDate.
  pose proof (nextMonthDay_later (Moment.Day t)) as H.
  unfold Moment.Day, Moment.msPerDay in *.
  pose proof (Z.div_mod t 86400000 ltac:(lia)). lia.
Qed.

(** ** Reminder Store: update *)

(** C10. An update that fails (the id is not found for the recipient, or the
    patched datetime is invalid or in the past) leaves the whole store as it
    was: the patch is validated before any field is written. *)
Theorem updateReminder_failure_keeps_store
        (phone reminderId : string) (updates : RS.Updates) (now : Z)
        (w w' : RS.World) (msg : string)
        (Hfail : RS.updateReminder phone reminderId updates now w = (Eff.Throw msg, w')) :
  w' = w /\ updateFailure msg.
Proof.
  revert Hfail. unfold RS.updateReminder, updateFailure. eff_unfold.
  destruct (RS.findIndex reminderId (default [] (RS.map_get phone (RS.reminders w))))
    as [i|] eqn:Hfind; simpl.
  - destruct (findIndex_lookup _ _ _ Hfind) as (r & -> & _); simpl.
    destruct (RS.upd_datetime updates) as [[[t|]|]|]; simpl.
    + destruct (Moment.isBefore t now); simpl; intros [= <- <-]; auto.
    + intros [= <- <-]; auto.
    + intros [=].
    + intros [=].
  - intros [= <- <-]; auto.
Qed.

Lemma updateReminder_failure_keeps_store_witness :
  RS.updateReminder "alice" "id-00"
    (RS.mkUpdates None None (Some "call dad") (Some (RS.Truthy (Some 500)))
       None None None None None None None None None None)
    1000 oneReminder
  = (Eff.Throw "Failed to update reminder: Reminder time cannot be in the past", oneReminder)
  /\ (oneReminder = oneReminder /\
      updateFailure "Failed to update reminder: Reminder time cannot be in the past").
Proof.
  split; [reflexivity|].
  apply (updateReminder_failure_keeps_store "alice" "id-00"
           (RS.mkUpdates None None (Some "call dad") (Some (RS.Truthy (Some 500)))
              None None None None None None None None None None)
           1000 oneReminder oneReminder).
  reflexivity.
Defined.

(** ** Reminder Store: cancel *)

Lemma In_insertBy key x y l : In y (RS.insertBy key x l) -> y = x \/ In y l.
Proof.
  induction l as [|z l IH]; simpl.
  - intros [<-|[]]. now left.
  - destruct (key x <=? key z); simpl.
    + intros [<-|H]; auto.
    + intros [<-|H]; auto. destruct (IH H); auto.
Qed.

Lemma In_sortBy key y l : In y (RS.sortBy key l) -> In y l.
Proof.
  induction l as [|x l IH]; simpl; [easy|].
  intros H. destruct (In_insertBy _ _ _ _ H) as [->|H']; auto.
Qed.

Lemma In_take {A} (n : nat) (l : list A) (x : A) : In x (take n l) -> In x l.
Proof.
  revert n. induction l as [|y l IH]; intros [|n]; simpl; try easy.
  intros [->|H]; eauto.
Qed.

Lemma findByPrefix_None prefix l :
  (forall r, In r l -> Text.startsWith (RS.id r) prefix = false) ->
  MessageHandler.findByPrefix prefix l = None.
Proof.
  induction l as [|r l IH]; simpl; [easy|].
  intros H. rewrite (H r) by now left. apply IH. intros r' Hr'. apply H. now right.
Qed.

(** The /cancel command searches the active reminders of the sender only:
    when none of them has an id starting with the argument, it answers
    "Reminder not found" and leaves the store alone. *)
Lemma handleCancelReminderCommand_not_found send phone args w :
  Text.trim args <> "" ->
  (forall r, In r (default [] (RS.map_get phone (RS.reminders w))) ->
             RS.status r = "active" ->
             Text.startsWith (RS.id r) (Text.trim args) = false) ->
  MessageHandler.handleCancelReminderCommand send phone args w
  = Eff.try_catch (RS.sendMessage send phone MessageHandler.replyNotFound)
      (fun _ => RS.sendMessage send phone MessageHandler.replyCancelError) w.
Proof.
  intros Hargs Hnone. unfold MessageHandler.handleCancelReminderCommand.
  apply String.eqb_neq in Hargs. rewrite Hargs.
  unfold RS.getUserReminders. eff_unfold. simpl.
  rewrite findByPrefix_None; [reflexivity|].
  intros r Hr. apply In_take, In_sortBy in Hr.
  apply list_elem_of_In, list_elem_of_filter in Hr as [Hact Hr].
  apply list_elem_of_In in Hr. apply String.eqb_eq in Hact. now apply Hnone.
Qed.

(** C1, counterexample. On a store holding one reminder of alice, the first
    [cancelReminder] returns it with status 'cancelled', and the second call
    for the same recipient and id does not throw. *)
Lemma cancelReminder_second_call_not_NotFound :
  exists r w',
    RS.cancelReminder "alice" "id-00" oneReminder = (Eff.Return r, w') /\
    RS.status r = "cancelled" /\
    ~ (exists msg w'', RS.cancelReminder "alice" "id-00" w' = (Eff.Throw msg, w'')).
Proof.
  eexists _, _. split; [reflexivity|]. split; [reflexivity|].
  intros (msg & w'' & H). vm_compute in H. discriminate H.
Qed.

(** C1, as the code has it. The first [cancelReminder] for an id stored under
    the recipient returns the reminder with status 'cancelled'; the second
    call for the same recipient and id returns the same record again and
    changes nothing, since the store looks a reminder up by id alone.  It is
    the /cancel command that answers "Reminder not found" the second time,
    when the ids of the recipient's reminders are distinct and no other
    active one has an id that merely starts with the argument. *)
Theorem cancelReminder_twice
        (phone reminderId : string) (w : RS.World)
        (arr : list RS.Reminder) (r0 : RS.Reminder)
        (Harr : RS.map_get phone (RS.reminders w) = Some arr)
        (Hin : In r0 arr) (Hid : RS.id r0 = reminderId) :
  exists r w',
    RS.cancelReminder phone reminderId w = (Eff.Return r, w') /\
    RS.status r = "cancelled" /\ RS.id r = reminderId /\
    RS.cancelReminder phone reminderId w' = (Eff.Return r, w') /\
    forall send args,
      Text.trim args = reminderId -> reminderId <> "" ->
      NoDup (map RS.id arr) ->
      (forall r', In r' arr -> RS.status r' = "active" ->
                  Text.startsWith (RS.id r') reminderId = true -> RS.id r' = reminderId) ->
      MessageHandler.handleCancelReminderCommand send phone args w'
      = Eff.try_catch (RS.sendMessage send phone MessageHandler.replyNotFound)
          (fun _ => RS.sendMessage send phone MessageHandler.replyCancelError) w'.
Proof.
  destruct (findIndex_In reminderId arr r0 Hin Hid) as [i Hfind].
  destruct (findIndex_lookup _ _ _ Hfind) as (r & Hr & Hrid).
  exists (RS.set_status "cancelled" r).
  exists (RS.set_reminders
            (RS.map_set phone (<[i := RS.set_status "cancelled" r]> arr) (RS.reminders w)) w).
  assert (Hfirst :
    RS.cancelReminder phone reminderId w
    = (Eff.Return (RS.set_status "cancelled" r),
       RS.set_reminders
         (RS.map_set phone (<[i := RS.set_status "cancelled" r]> arr) (RS.reminders w)) w)).
  { unfold RS.cancelReminder. eff_unfold. rewrite Harr. simpl. rewrite Hfind, Hr. simpl.
    unfold RS.assign. simpl. now rewrite Harr, Hr. }
  split; [exact Hfirst|]. split; [reflexivity|]. split; [exact Hrid|]. split.
  - unfold RS.cancelReminder. eff_unfold. simpl. rewrite map_get_set_eq. simpl.
    rewrite (findIndex_set_status _ _ _ _ _ Hfind Hr).
    assert (Hlt : (i < length arr)%nat) by (eapply lookup_lt_Some; eauto).
    rewrite list_lookup_insert_eq by exact Hlt. simpl.
    unfold RS.assign. simpl. rewrite map_get_set_eq.
    rewrite list_lookup_insert_eq by exact Hlt.
    rewrite list_insert_insert_eq, map_set_set. reflexivity.
  - intros send args Htrim Hne Hnodup Hprefix.
    apply handleCancelReminderCommand_not_found; [congruence|].
    simpl. rewrite map_get_set_eq. simpl. rewrite Htrim.
    intros r' Hr' Hact.
    destruct (Text.startsWith (RS.id r') reminderId) eqn:Hsw; [exfalso|reflexivity].
    apply list_elem_of_In, list_elem_of_lookup in Hr' as [j Hj].
    assert (Hlt : (i < length arr)%nat) by (eapply lookup_lt_Some; eauto).
    destruct (decide (j = i)) as [->|Hji].
    + rewrite list_lookup_insert_eq in Hj by exact Hlt.
      injection Hj as <-. simpl in Hact. discriminate Hact.
    + rewrite list_lookup_insert_ne in Hj by congruence.
      assert (Hin' : In r' arr).
      { apply list_elem_of_In, list_elem_of_lookup. eauto. }
      assert (Hid' : RS.id r' = reminderId) by now apply Hprefix.
      apply Hji. apply (NoDup_lookup (map RS.id arr) j i reminderId Hnodup).
      * now rewrite list_lookup_fmap, Hj; simpl; rewrite Hid'.
      * now rewrite list_lookup_fmap, Hr; simpl; rewrite Hrid.
Qed.

Lemma cancelReminder_twice_witness :
  RS.map_get "alice" (RS.reminders oneReminder) = Some [callMom] /\
  exists r w',
    RS.cancelReminder "alice" "id-00" oneReminder = (Eff.Return r, w') /\
    RS.status r = "cancelled" /\
    RS.cancelReminder "alice" "id-00" w' = (Eff.Return r, w').
Proof.
  split; [reflexivity|].
  destruct (cancelReminder_twice "alice" "id-00" oneReminder [callMom] callMom)
    as (r & w' & H1 & H2 & _ & H3 & _).
  - reflexivity.
  - left; reflexivity.
  - reflexivity.
  - exists r, w'. auto.
Defined.

(** ** Reminder Store: the time check of create and update *)

(** C4, counterexample. A create whose dueAt equals "now" does not fail. *)
Lemma setReminder_at_now_is_accepted :
  InvalidTime (fst (RS.setReminder sampleIds "alice" "call mom" (Some 1000)
                      RS.defaultSetOptions 1000 RS.constructor)) = false /\
  succeeds (fst (RS.setReminder sampleIds "alice" "call mom" (Some 1000)
                   RS.defaultSetOptions 1000 RS.constructor)) = true.
Proof. split; reflexivity. Qed.

(** C4, as the code has it. A create of a text message fails with
    InvalidTime exactly when the supplied dueAt is invalid or strictly before
    "now", and succeeds otherwise: a dueAt equal to "now" is accepted.  An
    update that patches dueAt with a truthy value, on a reminder that exists
    for the recipient, fails with InvalidTime under the same test, and
    succeeds otherwise. *)
Theorem time_check_of_create_and_update
        (uuidv4 : nat -> string) (phone text reminderId : string)
        (dueAt : option Z) (options : RS.SetOptions) (updates : RS.Updates)
        (now : Z) (w : RS.World) :
  let past := match dueAt with Some t => t <? now | None => true end in
  let found :=
    match RS.findIndex reminderId (default [] (RS.map_get phone (RS.reminders w))) with
    | Some _ => true | None => false end in
  let patch :=
    RS.mkUpdates (RS.upd_id updates) (RS.upd_phone updates) (RS.upd_message updates)
      (Some (RS.Truthy dueAt)) (RS.upd_timezone updates) (RS.upd_recurring updates)
      (RS.upd_recurrence_type updates) (RS.upd_priority updates)
      (RS.upd_status updates) (RS.upd_created_at updates) (RS.upd_sent updates)
      (RS.upd_sent_at updates) (RS.upd_error updates) (RS.upd_updated_at updates) in
  InvalidTime (fst (RS.setReminder uuidv4 phone text dueAt options now w)) = past /\
  succeeds (fst (RS.setReminder uuidv4 phone text dueAt options now w)) = negb past /\
  InvalidTime (fst (RS.updateReminder phone reminderId patch now w)) = found && past /\
  succeeds (fst (RS.updateReminder phone reminderId patch now w)) = found && negb past /\
  NotFound (fst (RS.updateReminder phone reminderId patch now w)) = negb found.
Proof.
  cbv zeta. split; [|split].
  - unfold RS.setReminder, Moment.isBefore. eff_unfold.
    destruct dueAt as [t|]; [|reflexivity].
    destruct (t <? now); [reflexivity|].
    simpl. destruct (RS.map_has phone (RS.reminders w)); reflexivity.
  - unfold RS.setReminder, Moment.isBefore. eff_unfold.
    destruct dueAt as [t|]; [|reflexivity].
    destruct (t <? now); [reflexivity|].
    simpl. destruct (RS.map_has phone (RS.reminders w)); reflexivity.
  - unfold RS.updateReminder, Moment.isBefore. eff_unfold.
    destruct (RS.findIndex reminderId (default [] (RS.map_get phone (RS.reminders w))))
      as [i|] eqn:Hfind; simpl; [|auto].
    destruct (findIndex_lookup _ _ _ Hfind) as (r & -> & _); simpl.
    destruct dueAt as [t|]; simpl; [|auto].
    destruct (t <? now); simpl; auto.
Qed.

(** ** Reminder Store: create, then list *)

Section SortFacts.

Variable key : RS.Reminder -> Z.

Lemma countIf_app f l1 l2 :
  countIf f (l1 ++ l2)%list = (countIf f l1 + countIf f l2)%nat.
Proof. induction l1 as [|x l1 IH]; simpl; [reflexivity|]. rewrite IH. lia. Qed.

Lemma countIf_insertBy f x l :
  countIf f (RS.insertBy key x l) = ((if f x then 1 else 0) + countIf f l)%nat.
Proof.
  induction l as [|y l IH]; simpl; [reflexivity|].
  destruct (key x <=? key y); simpl; [reflexivity|]. rewrite IH. lia.
Qed.

Lemma countIf_sortBy f l : countIf f (RS.sortBy key l) = countIf f l.
Proof.
  induction l as [|x l IH]; simpl; [reflexivity|].
  now rewrite countIf_insertBy, IH.
Qed.

Lemma length_insertBy x l : length (RS.insertBy key x l) = S (length l).
Proof.
  induction l as [|y l IH]; simpl; [reflexivity|].
  destruct (key x <=? key y); simpl; [reflexivity|]. now rewrite IH.
Qed.

Lemma length_sortBy l : length (RS.sortBy key l) = length l.
Proof.
  induction l as [|x l IH]; simpl; [reflexivity|].
  now rewrite length_insertBy, IH.
Qed.

Lemma insertBy_In x l : In x (RS.insertBy key x l).
Proof.
  induction l as [|y l IH]; simpl; [now left|].
  destruct (key x <=? key y); simpl; auto.
Qed.

Lemma insertBy_incl x y l : In y l -> In y (RS.insertBy key x l).
Proof.
  induction l as [|z l IH]; simpl; [easy|].
  destruct (key x <=? key z); simpl; intros [->|H]; auto.
Qed.

Lemma sortBy_In y l : In y l -> In y (RS.sortBy key l).
Proof.
  induction l as [|x l IH]; simpl; [easy|].
  intros [->|H]; [apply insertBy_In|apply insertBy_incl; auto].
Qed.

End SortFacts.

(** A create with a dueAt that is not in the past appends one active
    reminder to the recipient's array and returns it. *)
Lemma setReminder_success uuidv4 phone text dueAt options now w :
  now <= dueAt ->
  let r := RS.mkReminder (uuidv4 (RS.uuidCalls w)) phone text dueAt
             (RS.opt_timezone options) (RS.opt_recurring options)
             (RS.opt_recurrence_type options) (RS.opt_priority options)
             "active" now false None None None in
  exists w1,
    RS.setReminder uuidv4 phone text (Some dueAt) options now w = (Eff.Return r, w1) /\
    RS.map_get phone (RS.reminders w1)
    = Some (default [] (RS.map_get phone (RS.reminders w)) ++ [r])%list.
Proof.
  intros Hle r. unfold RS.setReminder, Moment.isBefore. eff_unfold.
  assert (Hlt : (dueAt <? now) = false) by lia. rewrite Hlt. simpl.
  unfold RS.map_has, RS.push.
  destruct (RS.map_get phone (RS.reminders w)) as [arr|] eqn:Harr; simpl.
  - rewrite Harr. eexists. split; [reflexivity|]. simpl. now rewrite map_get_set_eq.
  - rewrite map_get_set_eq. eexists. split; [reflexivity|]. simpl.
    now rewrite map_get_set_eq.
Qed.

(** C7, counterexample. Alice already has the reminder "call mom" due at
    2000; creating (alice, "call mom", 2000) again and listing her active
    reminders yields two reminders matching those fields. *)
Lemma create_then_list_two_matches :
  exists r w1 l w2,
    RS.setReminder sampleIds "alice" "call mom" (Some 2000)
      RS.defaultSetOptions 1000 oneReminder = (Eff.Return r, w1) /\
    RS.getUserReminders "alice" activeOnly w1 = (Eff.Return l, w2) /\
    countIf (matchesFields "alice" "call mom" 2000) l = 2%nat /\
    countIf (matchesFields "alice" "call mom" 2000) l <> 1%nat.
Proof.
  eexists _, _, _, _. split; [reflexivity|]. split; [reflexivity|].
  split; [reflexivity|]. vm_compute. discriminate.
Qed.

(** C7, as the code has it. For a dueAt strictly in the future and a
    recipient with fewer than 50 active reminders (the default limit of the
    listing), create followed by list(recipient, {status:'active'}) yields a
    sequence that contains the created reminder, which carries the given
    recipient, text and dueAt; the reminders of the sequence matching those
    three fields are the created one and the active ones that matched them
    already, since the store keeps duplicates. *)
Theorem create_then_list_active
        (uuidv4 : nat -> string) (phone text : string) (dueAt : Z)
        (options : RS.SetOptions) (now : Z) (w : RS.World)
        (Hfuture : now < dueAt)
        (Hlimit : (length (activeOf (default [] (RS.map_get phone (RS.reminders w)))) < 50)%nat) :
  exists r w1 l w2,
    RS.setReminder uuidv4 phone text (Some dueAt) options now w = (Eff.Return r, w1) /\
    RS.getUserReminders phone activeOnly w1 = (Eff.Return l, w2) /\
    In r l /\
    RS.phone r = phone /\ RS.message r = text /\ RS.datetime r = dueAt /\
    countIf (matchesFields phone text dueAt) l
    = S (countIf (matchesFields phone text dueAt)
           (activeOf (default [] (RS.map_get phone (RS.reminders w))))).
Proof.
  destruct (setReminder_success uuidv4 phone text dueAt options now w) as (w1 & Hset & Hget);
    [lia|].
  set (r := RS.mkReminder _ _ _ _ _ _ _ _ _ _ _ _ _ _) in *.
  set (old := default [] (RS.map_get phone (RS.reminders w))) in *.
  assert (Hact : activeOf (old ++ [r])%list = (activeOf old ++ [r])%list).
  { unfold activeOf. rewrite filter_app. reflexivity. }
  assert (Hlist :
    RS.getUserReminders phone activeOnly w1
    = (Eff.Return (RS.sortBy RS.datetime (activeOf old ++ [r])%list), w1)).
  { unfold RS.getUserReminders, activeOnly. eff_unfold. simpl. rewrite Hget. simpl.
    fold (activeOf (old ++ [r])%list). rewrite Hact.
    rewrite take_ge; [reflexivity|].
    rewrite length_sortBy, length_app. simpl. lia. }
  exists r, w1, (RS.sortBy RS.datetime (activeOf old ++ [r])%list), w1.
  split; [exact Hset|]. split; [exact Hlist|]. split.
  - apply sortBy_In, in_or_app. right. now left.
  - repeat (split; [reflexivity|]).
    rewrite countIf_sortBy, countIf_app. simpl.
    unfold matchesFields at 2. simpl.
    rewrite !String.eqb_refl, Z.eqb_refl. simpl. lia.
Qed.

Lemma create_then_list_active_witness :
  1000 < 2000 /\
  exists r l,
    fst (RS.setReminder sampleIds "alice" "call mom" (Some 2000)
           RS.defaultSetOptions 1000 RS.constructor) = Eff.Return r /\
    In r l /\ countIf (matchesFields "alice" "call mom" 2000) l = 1%nat.
Proof.
  split; [lia|].
  destruct (create_then_list_active sampleIds "alice" "call mom" 2000
              RS.defaultSetOptions 1000 RS.constructor) as (r & w1 & l & w2 & H).
  - lia.
  - simpl. lia.
  - destruct H as (Hset & _ & Hin & _ & _ & _ & Hcount).
    exists r, l. rewrite Hset. auto.
Defined.

(** ** Reminder Dispatcher: delivery of one reminder *)

Lemma advance_cases unit t next :
  advance unit t = Some next ->
  (unit = "daily" /\ next = Moment.addDays 1 t) \/
  (unit = "weekly" /\ next = Moment.addWeeks 1 t) \/
  (unit = "monthly" /\ next = Moment.addMonths 1 t).
Proof.
  unfold advance.
  destruct (String.eqb_spec unit "daily") as [->|_]; [intros [= <-]; auto|].
  destruct (String.eqb_spec unit "weekly") as [->|_]; [intros [= <-]; auto|].
  destruct (String.eqb_spec unit "monthly") as [->|_]; [intros [= <-]; auto|].
  discriminate.
Qed.

Lemma deref_Some key i w arr r :
  RS.map_get key (RS.reminders w) = Some arr -> arr !! i = Some r ->
  RS.deref (key, i) w = Some r.
Proof. intros Harr Hr. unfold RS.deref. simpl. now rewrite Harr. Qed.

Lemma assign_Some key i f w arr r :
  RS.map_get key (RS.reminders w) = Some arr -> arr !! i = Some r ->
  RS.assign (key, i) f w
  = RS.set_reminders (RS.map_set key (<[i := f r]> arr) (RS.reminders w)) w.
Proof. intros Harr Hr. unfold RS.assign. simpl. now rewrite Harr, Hr. Qed.

Lemma push_Some key x w arr :
  RS.map_get key (RS.reminders w) = Some arr ->
  RS.push key x w
  = RS.set_reminders (RS.map_set key (arr ++ [x])%list (RS.reminders w)) w.
Proof. intros Harr. unfold RS.push. now rewrite Harr. Qed.

(** C2, as the code has it. When the dispatcher delivers a due recurring
    reminder (daily, weekly or monthly) and the Notifier accepts the message,
    exactly one reminder is appended to the recipient's array and nothing
    else is added anywhere: the successor, with the same text, recipient and
    recurrence, active and unsent, whose dueAt is the delivered reminder's
    dueAt advanced by one recurrence unit, whatever "now" is.  The delivered
    original has its sent flag set and keeps the status 'active'. *)
Theorem sendReminder_recurring
        (uuidv4 : nat -> string) (key : string) (i : nat) (now : Z) (w : RS.World)
        (send : RS.Notifier) (arr : list RS.Reminder) (r : RS.Reminder)
        (unit : string) (next : Z)
        (Harr : RS.map_get key (RS.reminders w) = Some arr)
        (Hr : arr !! i = Some r)
        (Hkey : RS.phone r = key)
        (Hsvc : RS.whatsappService w = Some send)
        (Hsend : send (RS.sendCalls w) (RS.phone r) (RS.reminderMessage r) = None)
        (Hdue : RS.isDue now r = true)
        (Hrec : RS.recurring r = true)
        (Hunit : RS.recurrence_type r = Some unit)
        (Hnext : advance unit (RS.datetime r) = Some next) :
  let delivered := RS.set_sent_at (Some now) (RS.set_sent true r) in
  let successor :=
    RS.mkReminder (uuidv4 (RS.uuidCalls w)) (RS.phone r) (RS.message r) next
      (RS.timezone r) true (Some unit) (RS.priority r) "active" now false
      (Some now) (RS.error r) (RS.updated_at r) in
  exists w',
    RS.sendReminder uuidv4 (key, i) now w = (Eff.Return tt, w') /\
    RS.map_get key (RS.reminders w') = Some (<[i := delivered]> arr ++ [successor])%list /\
    (forall k, k <> key -> RS.map_get k (RS.reminders w') = RS.map_get k (RS.reminders w)) /\
    RS.status delivered = "active" /\ RS.sent delivered = true.
Proof.
  intros delivered successor.
  assert (Hlt : (i < length arr)%nat) by (eapply lookup_lt_Some; eauto).
  assert (Hactive : RS.status r = "active").
  { unfold RS.isDue in Hdue. apply andb_true_iff in Hdue as [Hdue _].
    apply andb_true_iff in Hdue as [Hdue _]. now apply String.eqb_eq. }
  assert (Htruthy : RS.truthy (Some unit) = true).
  { destruct (advance_cases _ _ _ Hnext) as [[-> _]|[[-> _]|[-> _]]]; reflexivity. }
  set (w1 := RS.mkWorld (RS.reminders w) (RS.whatsappService w) (RS.uuidCalls w)
               (S (RS.sendCalls w))
               (RS.outbox w ++ [(RS.phone r, RS.reminderMessage r)])).
  set (w2 := RS.set_reminders (RS.map_set key (<[i := delivered]> arr) (RS.reminders w1)) w1).
  assert (Hsched :
    RS.scheduleNextRecurrence uuidv4 (key, i) now w2
    = (Eff.Return tt,
       RS.set_reminders
         (RS.map_set key (<[i := delivered]> arr ++ [successor])%list (RS.reminders w2))
         (RS.mkWorld (RS.reminders w2) (RS.whatsappService w2) (S (RS.uuidCalls w2))
            (RS.sendCalls w2) (RS.outbox w2)))).
  { unfold RS.scheduleNextRecurrence. eff_unfold.
    rewrite (deref_Some key i w2 (<[i := delivered]> arr) delivered);
      [|apply map_get_set_eq|now apply list_lookup_insert_eq].
    assert (Hty : RS.recurrence_type delivered = Some unit) by exact Hunit.
    assert (Hdt : RS.datetime delivered = RS.datetime r) by reflexivity.
    rewrite Hty, Hdt.
    assert (Hph : RS.phone delivered = key) by exact Hkey.
    destruct (advance_cases _ _ _ Hnext) as [[-> ->]|[[-> ->]|[-> ->]]]; simpl;
      rewrite Hkey, map_get_set_eq; simpl;
      unfold RS.push; simpl; rewrite map_get_set_eq; subst successor;
      rewrite Hrec, Hkey; reflexivity. }
  assert (Hrun :
    RS.sendReminder uuidv4 (key, i) now w
    = (Eff.Return tt,
       RS.set_reminders
         (RS.map_set key (<[i := delivered]> arr ++ [successor])%list (RS.reminders w2))
         (RS.mkWorld (RS.reminders w2) (RS.whatsappService w2) (S (RS.uuidCalls w2))
            (RS.sendCalls w2) (RS.outbox w2)))).
  { unfold RS.sendReminder. eff_unfold. rewrite Hsvc.
    rewrite (deref_Some key i w arr r Harr Hr).
    unfold RS.sendMessage. rewrite Hsend. fold w1.
    rewrite (assign_Some key i _ w1 arr r Harr Hr). fold delivered. fold w2.
    rewrite Hrec, Hunit, Htruthy. simpl. now rewrite Hsched. }
  eexists. split; [exact Hrun|]. simpl. split; [|split; [|split]].
  - apply map_get_set_eq.
  - intros k Hk. rewrite !map_get_set_ne by congruence. reflexivity.
  - exact Hactive.
  - reflexivity.
Qed.

Lemma advance_daily t : advance "daily" t = Some (t + 86400000).
Proof. reflexivity. Qed.

Lemma advance_weekly t : advance "weekly" t = Some (t + 7 * 86400000).
Proof. reflexivity. Qed.

(** C2, counterexample. A tick at 2030 delivers the daily reminder due at
    2000 and creates its successor, due at 2000 plus one day; the delivered
    original is left with status 'active'. *)
Lemma recurring_original_left_active :
  let tick := RS.checkReminders sampleIds 3 2030 dailyStandup in
  let after := default [] (RS.map_get "alice" (RS.reminders (snd tick))) in
  fst tick = Eff.Return (Some 1) /\
  RS.outbox (snd tick) = [("alice", RS.reminderMessage standup)] /\
  map RS.id after = ["id-00"; "id-01"] /\
  map RS.sent after = [true; false] /\
  map RS.datetime after = [2000; 2000 + 86400000] /\
  map RS.status after = ["active"; "active"].
Proof. vm_compute. repeat split; reflexivity. Qed.

Lemma sendReminder_recurring_witness :
  RS.isDue 2030 standup = true /\
  exists w' original successor,
    RS.sendReminder sampleIds ("alice", O) 2030 dailyStandup = (Eff.Return tt, w') /\
    RS.map_get "alice" (RS.reminders w') = Some [original; successor] /\
    RS.status original = "active" /\ RS.sent original = true /\
    RS.datetime successor = 2000 + 86400000.
Proof.
  split; [reflexivity|].
  destruct (sendReminder_recurring sampleIds "alice" O 2030 dailyStandup acceptAll
              [standup] standup "daily" (2000 + 86400000))
    as (w' & Hrun & Hget & _ & Hstatus & Hsent);
    try reflexivity.
  eexists w', _, _. split; [exact Hrun|]. split; [exact Hget|].
  repeat split; reflexivity.
Defined.

(** ** Reminder Dispatcher: the tick *)

(** [sendReminder] catches whatever its body throws. *)
Lemma sendReminder_never_throws uuidv4 ref now w msg :
  fst (RS.sendReminder uuidv4 ref now w) <> Eff.Throw msg.
Proof.
  unfold RS.sendReminder, Eff.try_catch.
  destruct (Eff.bind _ _ w) as [[a|m|] w']; simpl; discriminate.
Qed.

(** [checkReminders] never propagates an exception. *)
Lemma checkReminders_never_throws uuidv4 fuel now w msg :
  fst (RS.checkReminders uuidv4 fuel now w) <> Eff.Throw msg.
Proof.
  unfold RS.checkReminders, Eff.try_catch.
  destruct (Eff.bind _ _ w) as [[a|m|] w']; simpl; discriminate.
Qed.

(** The window of the dispatcher: [diff(..., 'minutes')] truncates, so the
    test [<= 1] holds up to, and not including, two minutes of lateness. *)
Lemma isDue_iff now r :
  RS.isDue now r = true <->
  RS.status r = "active" /\ RS.sent r = false /\
  RS.datetime r <= now < RS.datetime r + 120000.
Proof.
  unfold RS.isDue, Moment.isSameOrAfter, Moment.diffMinutes, Moment.msPerMinute.
  rewrite !andb_true_iff, negb_true_iff, String.eqb_eq, Z.leb_le, Z.leb_le.
  split.
  - intros [[Hs Hsent] [Hle Hq]]. repeat split; auto.
    rewrite Z.quot_div_nonneg in Hq by lia.
    destruct (Z_lt_le_dec now (RS.datetime r + 120000)) as [Hlt|Hge]; [exact Hlt|].
    exfalso. assert (2 <= (now - RS.datetime r) / 60000); [|lia].
    apply Z.div_le_lower_bound; lia.
  - intros (Hs & Hsent & Hle & Hlt). repeat split; auto.
    rewrite Z.quot_div_nonneg by lia.
    assert ((now - RS.datetime r) / 60000 < 2); [|lia].
    apply Z.div_lt_upper_bound; lia.
Qed.

(** C3, on the code. A tick over three due reminders whose second send
    throws: the first and the third are marked sent, the second is marked
    'failed', no exception leaves the tick, two messages went out, and the
    tick returns 3: the failed delivery is counted too. *)
Theorem checkReminders_counts_failed_delivery :
  let tick := RS.checkReminders sampleIds 4 2030 threeDue in
  let after := default [] (RS.map_get "alice" (RS.reminders (snd tick))) in
  fst tick = Eff.Return (Some 3) /\
  map RS.message after = ["one"; "two"; "three"] /\
  map RS.sent after = [true; false; true] /\
  map RS.status after = ["sent"; "failed"; "sent"] /\
  map RS.error after = [None; Some "Request failed with status code 500"; None] /\
  map fst (RS.outbox (snd tick)) = ["alice"; "alice"] /\
  length (RS.outbox (snd tick)) = 2%nat.
Proof. vm_compute. repeat split; reflexivity. Qed.

(** C5, on the code. A reminder due at 2000 is delivered by a tick at 92000,
    ninety seconds late and so outside a grace window of one minute; a tick
    at 122000 leaves it active and unsent. *)
Theorem checkReminders_delivers_ninety_seconds_late :
  let tick := RS.checkReminders sampleIds 2 92000 oneReminderOnline in
  let after := default [] (RS.map_get "alice" (RS.reminders (snd tick))) in
  92000 - RS.datetime callMom > Moment.msPerMinute /\
  RS.isDue 92000 callMom = true /\
  fst tick = Eff.Return (Some 1) /\
  map RS.sent after = [true] /\ map RS.status after = ["sent"] /\
  RS.outbox (snd tick) = [("alice", RS.reminderMessage callMom)] /\
  RS.checkReminders sampleIds 2 122000 oneReminderOnline
  = (Eff.Return (Some 0), oneReminderOnline).
Proof. vm_compute. repeat split; reflexivity. Qed.

(** ** Reminder Dispatcher: every tick returns *)

Lemma take_eq_le {A : Type} (l1 l2 : list A) (n m : nat) :
  (n <= m)%nat -> take m l1 = take m l2 -> take n l1 = take n l2.
Proof.
  intros Hle H. rewrite <- (Nat.min_l n m Hle), <- !take_take, H. reflexivity.
Qed.

Section TickFacts.

Variable uuidv4 : nat -> string.
Variable now : Z.

Implicit Types (m : list (string * list RS.Reminder)) (k key : string)
  (v arr old : list RS.Reminder) (r : RS.Reminder) (w : RS.World).

Lemma dueIn_le_length arr : (dueIn now arr <= length arr)%nat.
Proof.
  unfold dueIn. induction arr as [|r arr IH]; simpl; [lia|].
  destruct (RS.isDue now r); lia.
Qed.

Lemma dueTotal_le_total m : (dueTotal now m <= total m)%nat.
Proof.
  induction m as [|[k arr] m IH]; simpl; [lia|].
  pose proof (dueIn_le_length arr). lia.
Qed.

Lemma total_map_set m key v old :
  RS.map_get key m = Some old ->
  (total (RS.map_set key v m) + length old = total m + length v)%nat.
Proof.
  induction m as [|[k arr] m IH]; simpl; [discriminate|].
  destruct (String.eqb_spec k key) as [->|Hne]; simpl.
  - intros [= ->]. lia.
  - intros H. specialize (IH H). lia.
Qed.

Lemma dueTotal_map_set m key v old :
  RS.map_get key m = Some old ->
  (dueTotal now (RS.map_set key v m) + dueIn now old
   = dueTotal now m + dueIn now v)%nat.
Proof.
  induction m as [|[k arr] m IH]; simpl; [discriminate|].
  destruct (String.eqb_spec k key) as [->|Hne]; simpl.
  - intros [= ->]. lia.
  - intros H. specialize (IH H). lia.
Qed.

Lemma map_get_le m key old :
  RS.map_get key m = Some old ->
  (length old <= total m)%nat /\ (dueIn now old <= dueTotal now m)%nat.
Proof.
  induction m as [|[k arr] m IH]; simpl; [discriminate|].
  destruct (String.eqb_spec k key) as [->|Hne].
  - intros [= ->]. lia.
  - intros H. destruct (IH H). lia.
Qed.

Lemma dueIn_app arr1 arr2 :
  dueIn now (arr1 ++ arr2) = (dueIn now arr1 + dueIn now arr2)%nat.
Proof. apply countIf_app. Qed.

Lemma dueIn_insert arr i r r' :
  arr !! i = Some r ->
  (dueIn now (<[i := r']> arr) + (if RS.isDue now r then 1 else 0)
   = dueIn now arr + (if RS.isDue now r' then 1 else 0))%nat.
Proof.
  unfold dueIn. revert i. induction arr as [|x arr IH]; intros [|i]; simpl; try discriminate.
  - intros [= ->]. lia.
  - intros H. specialize (IH i H). lia.
Qed.

Lemma dueIn_drop arr i r :
  arr !! i = Some r ->
  dueIn now (drop i arr)
  = ((if RS.isDue now r then 1 else 0) + dueIn now (drop (S i) arr))%nat.
Proof. intros H. now rewrite (drop_S _ _ _ H). Qed.

Lemma settles_refl m : settles now m m.
Proof. split; [reflexivity|]. intros; lia. Qed.

Lemma settles_trans m1 m2 m3 :
  settles now m1 m2 -> settles now m2 m3 -> settles now m1 m3.
Proof.
  intros [Hk1 Hd1] [Hk2 Hd2]. split; [congruence|].
  intros key. specialize (Hd1 key). specialize (Hd2 key). lia.
Qed.

(** Replacing the array of a key by one with no more due reminders. *)
Lemma settles_map_set m key v old :
  RS.map_get key m = Some old -> (dueIn now v <= dueIn now old)%nat ->
  settles now m (RS.map_set key v m).
Proof.
  intros Hget Hle. split; [eapply map_set_keys; eauto|].
  intros k. unfold dueOf. destruct (String.eqb_spec key k) as [<-|Hne].
  - rewrite map_get_set_eq, Hget. exact Hle.
  - rewrite map_get_set_ne by exact Hne. lia.
Qed.

Lemma assign_step key i w arr r f :
  RS.map_get key (RS.reminders w) = Some arr -> arr !! i = Some r ->
  let w1 := RS.assign (key, i) f w in
  RS.map_get key (RS.reminders w1) = Some (<[i := f r]> arr) /\
  (dueTotal now (RS.reminders w1) + (if RS.isDue now r then 1 else 0)
   = dueTotal now (RS.reminders w) + (if RS.isDue now (f r) then 1 else 0))%nat /\
  total (RS.reminders w1) = total (RS.reminders w) /\
  (RS.isDue now (f r) = false -> settles now (RS.reminders w) (RS.reminders w1)).
Proof.
  intros Harr Hr w1. subst w1. rewrite (assign_Some key i f w arr r Harr Hr). simpl.
  pose proof (dueIn_insert arr i r (f r) Hr) as Hins.
  split; [apply map_get_set_eq|]. split; [|split].
  - pose proof (dueTotal_map_set _ key (<[i := f r]> arr) arr Harr). lia.
  - pose proof (total_map_set _ key (<[i := f r]> arr) arr Harr).
    rewrite length_insert in *. lia.
  - intros Hnot. rewrite Hnot in Hins. apply (settles_map_set _ _ _ arr Harr).
    destruct (RS.isDue now r); lia.
Qed.

(** The successor of a reminder that was due is not due. *)
Lemma successor_not_due r unit next succ :
  now < RS.datetime r + 120000 ->
  advance unit (RS.datetime r) = Some next ->
  RS.datetime succ = next ->
  RS.isDue now succ = false.
Proof.
  intros Hwin Hadv Hdt. unfold RS.isDue, Moment.isSameOrAfter. rewrite Hdt.
  assert (Hlt : now < next).
  { destruct (advance_cases _ _ _ Hadv) as [[_ ->]|[[_ ->]|[_ ->]]].
    - unfold Moment.addDays, Moment.msPerDay. lia.
    - unfold Moment.addWeeks, Moment.addDays, Moment.msPerDay. lia.
    - pose proof (addMonths_later (RS.datetime r)). unfold Moment.msPerDay in *. lia. }
  assert (Hleb : (next <=? now) = false) by lia. rewrite Hleb.
  now rewrite andb_false_r.
Qed.

Lemma nextTime_switch (ty : option string) (t : Z) :
  (if RS.strictEq ty (Some "daily")
   then (fun s : RS.World => (Eff.Return (Moment.addDays 1 t), s))
   else if RS.strictEq ty (Some "weekly")
   then (fun s : RS.World => (Eff.Return (Moment.addWeeks 1 t), s))
   else if RS.strictEq ty (Some "monthly")
   then (fun s : RS.World => (Eff.Return (Moment.addMonths 1 t), s))
   else (fun s : RS.World => (Eff.Throw "Invalid recurrence type", s)))
  = match ty with
    | Some unit =>
        match advance unit t with
        | Some next => fun s : RS.World => (Eff.Return next, s)
        | None => fun s : RS.World => (Eff.Throw "Invalid recurrence type", s)
        end
    | None => fun s : RS.World => (Eff.Throw "Invalid recurrence type", s)
    end.
Proof.
  destruct ty as [unit|]; [|reflexivity]. unfold advance. simpl.
  destruct (unit =? "daily")%string; [reflexivity|].
  destruct (unit =? "weekly")%string; [reflexivity|].
  destruct (unit =? "monthly")%string; reflexivity.
Qed.

Lemma schedule_step key i w arr r :
  RS.map_get key (RS.reminders w) = Some arr -> arr !! i = Some r ->
  now < RS.datetime r + 120000 ->
  exists w1 extra,
    RS.scheduleNextRecurrence uuidv4 (key, i) now w = (Eff.Return tt, w1) /\
    RS.map_get key (RS.reminders w1) = Some (arr ++ extra)%list /\
    dueIn now extra = O /\ (length extra <= 1)%nat /\
    dueTotal now (RS.reminders w1) = dueTotal now (RS.reminders w) /\
    (total (RS.reminders w1) <= total (RS.reminders w) + 1)%nat /\
    settles now (RS.reminders w) (RS.reminders w1).
Proof.
  intros Harr Hr Hwin. pose proof (settles_refl (RS.reminders w)) as Hrefl.
  assert (Hnil : RS.map_get key (RS.reminders w) = Some (arr ++ [])%list)
    by now rewrite app_nil_r.
  unfold RS.scheduleNextRecurrence. eff_unfold.
  rewrite (deref_Some key i w arr r Harr Hr), nextTime_switch.
  destruct (RS.recurrence_type r) as [unit|] eqn:Hty;
    [|exists w, []; repeat split; simpl; auto; lia].
  destruct (advance unit (RS.datetime r)) as [next|] eqn:Hadv;
    [|exists w, []; repeat split; simpl; auto; lia].
  unfold RS.uuid. simpl.
  destruct (RS.map_get (RS.phone r) (RS.reminders w)) as [arr_p|] eqn:Hp; simpl.
  - set (succ := RS.mkReminder _ _ _ _ _ _ _ _ _ _ _ _ _ _).
    assert (Hsucc : RS.isDue now succ = false)
      by (eapply successor_not_due; eauto; reflexivity).
    unfold RS.push. simpl. rewrite Hp.
    eexists _, (if (RS.phone r =? key)%string then [succ] else []).
    split; [reflexivity|]. simpl.
    split; [|split; [|split; [|split; [|split]]]].
    + destruct (String.eqb_spec (RS.phone r) key) as [Heq|Hne].
      * rewrite Heq in *. rewrite map_get_set_eq. congruence.
      * rewrite map_get_set_ne by exact Hne. exact Hnil.
    + destruct (RS.phone r =? key)%string; [|reflexivity].
      unfold dueIn. simpl. now rewrite Hsucc.
    + destruct (RS.phone r =? key)%string; simpl; lia.
    + pose proof (dueTotal_map_set (RS.reminders w) (RS.phone r) (arr_p ++ [succ]) arr_p Hp) as H.
      rewrite dueIn_app in H. unfold dueIn at 3 in H. simpl in H. rewrite Hsucc in H. lia.
    + pose proof (total_map_set (RS.reminders w) (RS.phone r) (arr_p ++ [succ]) arr_p Hp) as H.
      rewrite length_app in H. simpl in H. lia.
    + apply (settles_map_set _ _ _ arr_p Hp). rewrite dueIn_app.
      unfold dueIn at 2. simpl. rewrite Hsucc. lia.
  - eexists _, []. split; [reflexivity|]. simpl. repeat split; auto; lia.
Qed.

(** Delivering a due reminder, whatever the Notifier does: the reminder
    stops being due, at most one reminder is added, and it is not due. *)
Lemma sendReminder_due_step key i w arr r :
  RS.map_get key (RS.reminders w) = Some arr -> arr !! i = Some r ->
  RS.isDue now r = true ->
  exists w1 r' extra,
    RS.sendReminder uuidv4 (key, i) now w = (Eff.Return tt, w1) /\
    RS.map_get key (RS.reminders w1) = Some (<[i := r']> arr ++ extra)%list /\
    RS.isDue now r' = false /\
    dueIn now extra = O /\ (length extra <= 1)%nat /\
    (dueTotal now (RS.reminders w1) + 1 = dueTotal now (RS.reminders w))%nat /\
    (total (RS.reminders w1) <= total (RS.reminders w) + 1)%nat /\
    settles now (RS.reminders w) (RS.reminders w1).
Proof.
  intros Harr Hr Hdue.
  assert (Hlt : (i < length arr)%nat) by (eapply lookup_lt_Some; eauto).
  assert (Hwin : now < RS.datetime r + 120000) by (apply isDue_iff in Hdue; lia).
  (* the catch branch: the reminder is marked failed *)
  assert (Hfailed : forall msg w0,
    RS.reminders w0 = RS.reminders w ->
    exists w1 r' extra,
      (Eff.Return tt,
       RS.assign (key, i)
         (fun r0 => RS.set_error (Some msg) (RS.set_status "failed" r0)) w0)
      = (Eff.Return tt, w1) /\
      RS.map_get key (RS.reminders w1) = Some (<[i := r']> arr ++ extra)%list /\
      RS.isDue now r' = false /\
      dueIn now extra = O /\ (length extra <= 1)%nat /\
      (dueTotal now (RS.reminders w1) + 1 = dueTotal now (RS.reminders w))%nat /\
      (total (RS.reminders w1) <= total (RS.reminders w) + 1)%nat /\
      settles now (RS.reminders w) (RS.reminders w1)).
  { intros msg w0 Hw0. rewrite <- Hw0 in Harr.
    destruct (assign_step key i w0 arr r
                (fun r0 => RS.set_error (Some msg) (RS.set_status "failed" r0)) Harr Hr)
      as (Hget & Hdt & Htot & Hset).
    rewrite Hdue in Hdt. simpl in Hdt. rewrite Hw0 in *.
    eexists _, _, []. split; [reflexivity|]. rewrite app_nil_r.
    split; [exact Hget|]. split; [reflexivity|]. split; [reflexivity|].
    split; [simpl; lia|]. split; [lia|]. split; [lia|]. now apply Hset. }
  unfold RS.sendReminder. eff_unfold.
  destruct (RS.whatsappService w) as [send|] eqn:Hsvc; [|now apply Hfailed].
  rewrite (deref_Some key i w arr r Harr Hr).
  unfold RS.sendMessage.
  destruct (send (RS.sendCalls w) (RS.phone r) (RS.reminderMessage r)) as [msg|];
    [now apply Hfailed|].
  set (w0 := RS.mkWorld _ _ _ _ _).
  assert (Harr0 : RS.map_get key (RS.reminders w0) = Some arr) by exact Harr.
  destruct (assign_step key i w0 arr r
              (fun r0 => RS.set_sent_at (Some now) (RS.set_sent true r0)) Harr0 Hr)
    as (Hget & Hdt & Htot & Hset).
  rewrite Hdue in Hdt. simpl in Hdt.
  set (r1 := RS.set_sent_at (Some now) (RS.set_sent true r)) in *.
  set (w2 := RS.assign _ _ w0) in *.
  assert (Hr1 : <[i := r1]> arr !! i = Some r1) by now apply list_lookup_insert_eq.
  assert (Hnot : RS.isDue now r1 = false).
  { unfold RS.isDue. simpl. now rewrite andb_false_r. }
  rewrite Hnot in Hdt. specialize (Hset Hnot).
  change (RS.reminders w0) with (RS.reminders w) in *.
  destruct (RS.recurring r && RS.truthy (RS.recurrence_type r)).
  - destruct (schedule_step key i w2 (<[i := r1]> arr) r1 Hget Hr1 Hwin)
      as (w3 & extra & Hrun & Hget3 & Hextra & Hlen & Hdt3 & Htot3 & Hset3).
    rewrite Hrun. exists w3, r1, extra. split; [reflexivity|].
    split; [exact Hget3|]. split; [exact Hnot|]. split; [exact Hextra|].
    split; [exact Hlen|]. split; [lia|]. split; [lia|].
    eapply settles_trans; eauto.
  - destruct (assign_step key i w2 (<[i := r1]> arr) r1 (RS.set_status "sent") Hget Hr1)
      as (Hget3 & Hdt3 & Htot3 & Hset3).
    assert (Hnot3 : RS.isDue now (RS.set_status "sent" r1) = false) by reflexivity.
    rewrite Hnot, Hnot3 in Hdt3. specialize (Hset3 Hnot3).
    rewrite list_insert_insert_eq in Hget3.
    eexists _, _, []. split; [reflexivity|]. rewrite app_nil_r.
    split; [exact Hget3|]. split; [exact Hnot3|]. split; [reflexivity|].
    split; [simpl; lia|]. split; [lia|]. split; [lia|].
    eapply settles_trans; eauto.
Qed.

(** The scan of one array from index [i] returns.  Every step either moves
    past a reminder that is not due or turns a due one into one that is not,
    so afterwards no reminder from [i] on is due; the count grows by the
    number of due reminders from [i] on. *)
Lemma scanReminders_returns fuel : forall key i cnt w,
  (length (default [] (RS.map_get key (RS.reminders w))) - i
   + dueIn now (drop i (default [] (RS.map_get key (RS.reminders w)))) < fuel)%nat ->
  exists n w',
    RS.scanReminders uuidv4 fuel key i now cnt w = (Eff.Return (cnt + Z.of_nat n), w') /\
    (n + dueTotal now (RS.reminders w') = dueTotal now (RS.reminders w))%nat /\
    (total (RS.reminders w') + dueTotal now (RS.reminders w')
     <= total (RS.reminders w) + dueTotal now (RS.reminders w))%nat /\
    settles now (RS.reminders w) (RS.reminders w') /\
    take i (default [] (RS.map_get key (RS.reminders w')))
    = take i (default [] (RS.map_get key (RS.reminders w))) /\
    dueIn now (drop i (default [] (RS.map_get key (RS.reminders w')))) = O.
Proof.
  induction fuel as [|fuel IH]; intros key i cnt w Hfuel; [lia|].
  cbn [RS.scanReminders]. eff_unfold.
  destruct (default [] (RS.map_get key (RS.reminders w)) !! i) as [r|] eqn:Hr.
  2:{ exists O, w. split; [f_equal; f_equal; lia|]. split; [lia|]. split; [lia|].
      split; [apply settles_refl|]. split; [reflexivity|].
      apply lookup_ge_None in Hr. now rewrite drop_ge. }
  assert (Hlt : (i < length (default [] (RS.map_get key (RS.reminders w))))%nat)
    by (eapply lookup_lt_Some; eauto).
  pose proof (dueIn_drop _ _ _ Hr) as Hdrop.
  destruct (RS.isDue now r) eqn:Hdue.
  - destruct (RS.map_get key (RS.reminders w)) as [arr|] eqn:Harr;
      [simpl in *|simpl in Hr; discriminate].
    destruct (sendReminder_due_step key i w arr r Harr Hr Hdue)
      as (w1 & r' & extra & Hrun & Hget & Hnot & Hextra & Hlen & Hdt & Htot & Hset).
    rewrite Hrun.
    destruct (IH key (S i) (cnt + 1) w1)
      as (n & w' & Hscan & Hn & Hpot & Hset' & Htake & Hzero).
    { rewrite Hget. simpl. rewrite length_app, length_insert.
      rewrite drop_app_le by (rewrite length_insert; lia).
      rewrite drop_insert_lt by lia. rewrite dueIn_app, Hextra. lia. }
    rewrite Hscan. exists (S n), w'. split; [f_equal; f_equal; lia|].
    split; [lia|]. split; [lia|]. split; [eapply settles_trans; eauto|].
    rewrite Hget in Htake. simpl in Htake.
    assert (Hi' : default [] (RS.map_get key (RS.reminders w')) !! i = Some r').
    { rewrite <- (lookup_take_lt _ (S i) i) by lia. rewrite Htake.
      rewrite lookup_take_lt by lia. rewrite lookup_app_l by (rewrite length_insert; lia).
      now apply list_lookup_insert_eq. }
    split.
    + rewrite (take_eq_le _ _ i (S i) ltac:(lia) Htake).
      rewrite take_app_le by (rewrite length_insert; lia).
      now rewrite take_insert_ge by lia.
    + rewrite (dueIn_drop _ _ _ Hi'), Hnot, Hzero. reflexivity.
  - destruct (IH key (S i) cnt w)
      as (n & w' & Hscan & Hn & Hpot & Hset' & Htake & Hzero); [lia|].
    rewrite Hscan. exists n, w'. split; [reflexivity|].
    split; [exact Hn|]. split; [exact Hpot|]. split; [exact Hset'|].
    assert (Hi' : default [] (RS.map_get key (RS.reminders w')) !! i = Some r).
    { rewrite <- (lookup_take_lt _ (S i) i) by lia. rewrite Htake.
      now rewrite lookup_take_lt by lia. }
    split.
    + exact (take_eq_le _ _ i (S i) ltac:(lia) Htake).
    + rewrite (dueIn_drop _ _ _ Hi'), Hdue, Hzero. reflexivity.
Qed.

(** The scan of all the arrays returns, and leaves no due reminder under
    the keys it went through. *)
Lemma scanUsers_returns fuel keys : forall cnt w,
  (total (RS.reminders w) + dueTotal now (RS.reminders w) < fuel)%nat ->
  exists n w',
    RS.scanUsers uuidv4 fuel keys now cnt w = (Eff.Return (cnt + Z.of_nat n), w') /\
    (n + dueTotal now (RS.reminders w') = dueTotal now (RS.reminders w))%nat /\
    (total (RS.reminders w') + dueTotal now (RS.reminders w')
     <= total (RS.reminders w) + dueTotal now (RS.reminders w))%nat /\
    settles now (RS.reminders w) (RS.reminders w') /\
    forall key, In key keys -> dueOf now key (RS.reminders w') = O.
Proof.
  induction keys as [|key keys IH]; intros cnt w Hfuel.
  - exists O, w. split; [simpl; unfold Eff.ret; f_equal; f_equal; lia|].
    split; [lia|]. split; [lia|]. split; [apply settles_refl|]. intros ? [].
  - cbn [RS.scanUsers]. eff_unfold.
    destruct (scanReminders_returns fuel key O cnt w)
      as (n1 & w1 & Hscan & Hn1 & Hpot1 & Hset1 & _ & Hzero1).
    { rewrite Nat.sub_0_r, drop_0.
      destruct (RS.map_get key (RS.reminders w)) as [arr|] eqn:Harr; simpl.
      - destruct (map_get_le _ _ _ Harr). lia.
      - unfold dueIn. simpl. lia. }
    rewrite Hscan. rewrite drop_0 in Hzero1.
    destruct (IH (cnt + Z.of_nat n1) w1)
      as (n2 & w2 & Hrest & Hn2 & Hpot2 & Hset2 & Hzero2); [lia|].
    rewrite Hrest. exists (n1 + n2)%nat, w2.
    split; [f_equal; f_equal; lia|]. split; [lia|]. split; [lia|].
    split; [eapply settles_trans; eauto|].
    intros k [<-|Hk]; [|now apply Hzero2].
    destruct Hset2 as [_ Hle]. specialize (Hle key). unfold dueOf in *. lia.
Qed.

(** With distinct keys, the due reminders of the map are those of its keys. *)
Lemma dueTotal_zero m :
  (forall key, In key (map fst m) -> dueOf now key m = O) ->
  NoDup (map fst m) -> dueTotal now m = O.
Proof.
  induction m as [|[k arr] m IH]; simpl; [reflexivity|].
  intros Hzero Hnodup. apply NoDup_cons in Hnodup as [Hnotin Hnodup].
  assert (Hk : dueIn now arr = O).
  { specialize (Hzero k (or_introl eq_refl)). unfold dueOf in Hzero. simpl in Hzero.
    now rewrite String.eqb_refl in Hzero. }
  rewrite Hk, IH; [reflexivity| |exact Hnodup].
  intros key Hin. specialize (Hzero key (or_intror Hin)).
  unfold dueOf in *. simpl in Hzero.
  destruct (String.eqb_spec k key) as [->|Hne]; [|exact Hzero].
  exfalso. apply Hnotin. now apply list_elem_of_In.
Qed.

(** X1. A tick over a map with distinct keys, given more fuel than twice the
    number of stored reminders, returns: what it returns is the number of
    reminders that were due at its start, delivered or not, and none of the
    reminders is due any more after it. *)
Theorem checkReminders_returns fuel w :
  NoDup (map fst (RS.reminders w)) ->
  (2 * total (RS.reminders w) < fuel)%nat ->
  exists w',
    RS.checkReminders uuidv4 fuel now w
    = (Eff.Return (Some (Z.of_nat (dueTotal now (RS.reminders w)))), w') /\
    dueTotal now (RS.reminders w') = O.
Proof.
  intros Hnodup Hfuel. unfold RS.checkReminders. eff_unfold.
  destruct (scanUsers_returns fuel (map fst (RS.reminders w)) 0 w)
    as (n & w' & Hscan & Hn & _ & [Hkeys _] & Hzero).
  { pose proof (dueTotal_le_total (RS.reminders w)). lia. }
  assert (Hdone : dueTotal now (RS.reminders w') = O).
  { apply dueTotal_zero; rewrite Hkeys; [exact Hzero|exact Hnodup]. }
  rewrite Hscan. exists w'. split; [|exact Hdone].
  rewrite Hdone in Hn. simpl. repeat f_equal. lia.
Qed.

End TickFacts.

(** ** TimeExpression Parser: the "at H:MM" form *)

(** The hour conversion of the parser: a missing suffix is treated as "am",
    so an hour of 12 becomes 0 unless "pm" follows. *)
Lemma finalHourOf_cases hour isPM :
  RS.finalHourOf hour isPM
  = if isPM then (if hour <? 12 then hour + 12 else hour)
    else (if hour =? 12 then 0 else hour).
Proof.
  unfold RS.finalHourOf.
  destruct isPM, (hour <? 12) eqn:Hlt, (hour =? 12) eqn:Heq; simpl; try reflexivity; lia.
Qed.

(** Setting hour, minute and second of [now] to a time of day: the day and
    the milliseconds of [now] are kept. *)
Lemma set_time_of_day now h m :
  0 <= h < 24 -> 0 <= m < 60 ->
  Moment.setSecond 0 (Moment.setMinute m (Moment.setHour h now))
  = Moment.MakeDate (Moment.Day now) (Moment.MakeTime h m 0 (Moment.millisecond now)).
Proof.
  intros Hh Hm.
  unfold Moment.setSecond, Moment.setMinute, Moment.setHour, Moment.MakeDate,
    Moment.MakeTime, Moment.Day, Moment.hour, Moment.minute, Moment.second,
    Moment.millisecond, Moment.msPerDay, Moment.msPerHour, Moment.msPerMinute,
    Moment.msPerSecond.
  Z.to_euclidean_division_equations. lia.
Qed.

Lemma atTime_today_or_tomorrow now timeMatch :
  let finalHour :=
    RS.finalHourOf (RS.intGroup 1 timeMatch) (RS.isPMGroup timeMatch) in
  let minute := RS.intGroup 2 timeMatch in
  let today :=
    Moment.MakeDate (Moment.Day now)
      (Moment.MakeTime finalHour minute 0 (Moment.millisecond now)) in
  0 <= finalHour < 24 -> 0 <= minute < 60 ->
  RS.atTime now timeMatch
  = if today <? now then today + Moment.msPerDay else today.
Proof.
  intros finalHour minute today Hh Hm. unfold RS.atTime, Moment.isBefore.
  fold finalHour minute. rewrite (set_time_of_day now finalHour minute Hh Hm).
  fold today. destruct (today <? now); [|reflexivity].
  unfold Moment.addDays. lia.
Qed.

(** The third form is reached when the first two do not match. *)
Lemma parseNaturalLanguageTime_at momentParse text now timeMatch :
  (if Text.includes (Text.toLowerCase text) "tomorrow"
   then Text.search RS.re_tomorrow (Text.toLowerCase text) else None) = None ->
  Text.search RS.re_in (Text.toLowerCase text) = None ->
  Text.search RS.re_at (Text.toLowerCase text) = Some timeMatch ->
  RS.parseNaturalLanguageTime momentParse text now = Some (RS.atTime now timeMatch).
Proof.
  intros H1 H2 H3. unfold RS.parseNaturalLanguageTime. now rewrite H1, H2, H3.
Qed.

(** The instants of the examples below, as dates. *)
Lemma sample_instants_as_dates :
  map Moment.format_YYYY_MM_DD_HH_mm
    [Moment.utc 2024 1 1 10 0 0 0; Moment.utc 2024 1 1 15 0 0 0;
     Moment.utc 2024 1 2 14 30 0 0; Moment.utc 2024 1 2 0 30 0 0;
     Moment.utc 2024 1 1 12 30 0 0]
  = ["2024-01-01 10:00"; "2024-01-01 15:00"; "2024-01-02 14:30";
     "2024-01-02 00:30"; "2024-01-01 12:30"].
Proof. reflexivity. Qed.

(** C8, on the code. "at 14:30" at 2024-01-01T15:00 yields
    2024-01-02T14:30.  "at 12:30", with no am/pm, at 2024-01-01T10:00 does
    not yield 2024-01-01T12:30: the hour 12 is turned into 0 and the result
    is 00:30, rolled to 2024-01-02 because 00:30 has passed. *)
Theorem parse_at_hour_12_without_suffix (momentParse : string -> option Z) :
  RS.parseNaturalLanguageTime momentParse "at 14:30" (Moment.utc 2024 1 1 15 0 0 0)
  = Some (Moment.utc 2024 1 2 14 30 0 0) /\
  RS.finalHourOf 12 false = 0 /\
  RS.parseNaturalLanguageTime momentParse "at 12:30" (Moment.utc 2024 1 1 10 0 0 0)
  = Some (Moment.utc 2024 1 2 0 30 0 0) /\
  RS.parseNaturalLanguageTime momentParse "at 12:30" (Moment.utc 2024 1 1 10 0 0 0)
  <> Some (Moment.utc 2024 1 1 12 30 0 0).
Proof.
  split; [reflexivity|]. split; [reflexivity|]. split; [reflexivity|].
  vm_compute. discriminate.
Qed.

(** ** Command Router: intent classification *)

(** C9. [detectIntent] is the priority-ordered first match over image, then
    reminder, then question, then greeting cues, and chat when none holds;
    and the five sample messages classify as the spec says. *)
Theorem detectIntent_first_match :
  (forall message,
     MessageHandler.detectIntent message
     = firstMatch intentRules "chat" (Text.toLowerCase message)) /\
  MessageHandler.detectIntent "generate image of a cat" = "image_generation" /\
  MessageHandler.detectIntent "remind me to call mom at 3pm" = "reminder_setting" /\
  MessageHandler.detectIntent "what is AI?" = "question" /\
  MessageHandler.detectIntent "hello there" = "greeting" /\
  MessageHandler.detectIntent "" = "chat" /\
  MessageHandler.detectIntent "ok, thanks" = "chat".
Proof.
  split; [|repeat split; reflexivity].
  intros message. unfold MessageHandler.detectIntent.
  cbn [firstMatch intentRules].
  unfold imageCue, reminderCue, questionCue, greetingCue. cbn [existsb].
  rewrite !orb_false_r, <- !orb_assoc. reflexivity.
Qed.

(** ** Command Router: conversation history *)

(** The request of a chat: the system instruction, then the most recent 20
    entries of the stored history followed by the new user message. *)
Lemma buildMessages_window system_prompt history message :
  let turns := (history ++ [MS.mkChatMessage "user" message])%list in
  MS.buildMessages system_prompt history message
  = MS.mkChatMessage "system" system_prompt :: drop (length turns - 20) turns.
Proof.
  intros turns. unfold MS.buildMessages, MS.splice1. fold turns.
  cbn [app length take].
  destruct (21 <? S (length turns))%nat eqn:Hlen.
  - reflexivity.
  - apply Nat.ltb_ge in Hlen.
    replace (length turns - 20)%nat with O by lia. reflexivity.
Qed.

(** What [chat] sends is [buildMessages] of the stored history: it depends
    on the text generator through the answer to that one request only. *)
Lemma chat_sends_window post post' userPhone message options h :
  post (MS.opt_model options)
       (MS.buildMessages (MS.opt_system_prompt options)
          (default [] (h !! userPhone)) message)
       (MS.opt_max_tokens options)
  = post' (MS.opt_model options)
       (MS.buildMessages (MS.opt_system_prompt options)
          (default [] (h !! userPhone)) message)
       (MS.opt_max_tokens options) ->
  MS.chat post userPhone message options h = MS.chat post' userPhone message options h.
Proof.
  intros Hsame. unfold MS.chat. eff_unfold.
  destruct (bool_decide (is_Some (h !! userPhone))) eqn:Hhas; simpl.
  - now rewrite Hsame.
  - apply bool_decide_eq_false_1 in Hhas.
    assert (Hnone : h !! userPhone = None).
    { destruct (h !! userPhone) eqn:E; [exfalso; apply Hhas; eauto|reflexivity]. }
    rewrite Hnone in Hsame. rewrite lookup_insert_eq. simpl in *. now rewrite Hsame.
Qed.

(** An answered chat appends the user message and the answer to the stored
    history of the recipient, which is never cut down. *)
Lemma chat_appends_two post userPhone message options h answer rest :
  post (MS.opt_model options)
       (MS.buildMessages (MS.opt_system_prompt options)
          (default [] (h !! userPhone)) message)
       (MS.opt_max_tokens options) = MS.Resolved (answer :: rest) ->
  fst (MS.chat post userPhone message options h) = Eff.Return answer /\
  snd (MS.chat post userPhone message options h) !! userPhone
  = Some (default [] (h !! userPhone)
            ++ [MS.mkChatMessage "user" message; MS.mkChatMessage "assistant" answer])%list.
Proof.
  intros Hpost. unfold MS.chat. eff_unfold.
  destruct (bool_decide (is_Some (h !! userPhone))) eqn:Hhas; simpl.
  - rewrite Hpost. simpl. split; [reflexivity|]. apply lookup_insert_eq.
  - apply bool_decide_eq_false_1 in Hhas.
    assert (Hnone : h !! userPhone = None).
    { destruct (h !! userPhone) eqn:E; [exfalso; apply Hhas; eauto|reflexivity]. }
    rewrite lookup_insert_eq. rewrite Hnone in Hpost. simpl in *. rewrite Hpost. simpl.
    split; [reflexivity|]. rewrite Hnone. apply lookup_insert_eq.
Qed.

(** C6. Ten exchanges of alice are stored and she sends an eleventh chat.
    The comments of [chat] read "last 10 exchanges" and "system + 10
    exchanges (20 messages) + current", 22 messages; the test is
    [messages.length > 21].  The request has 21 messages: after the system
    instruction it starts with an answer of the assistant, the first stored
    question being cut off, so it holds nine whole exchanges.  The stored
    history is cut nowhere: it holds 22 entries after the eleventh answer and
    24 after the twelfth.  Clearing the history of alice leaves the history
    of bob as it was. *)
Theorem chat_request_is_one_short_and_history_is_kept :
  let stored := chats 10 ∅ in
  let eleventh := MS.chat answersRoles "alice" "hi" MS.defaultChatOptions stored in
  let both := snd (MS.chat answersOk "bob" "hello" MS.defaultChatOptions (chats 11 ∅)) in
  length (default [] (stored !! "alice")) = 20%nat /\
  fst eleventh = Eff.Return "sauauauauauauauauauau" /\
  length (default [] (snd eleventh !! "alice")) = 22%nat /\
  fst (MS.getConversationHistory "alice" (chats 11 ∅))
  = Eff.Return (concat (replicate 11 [MS.mkChatMessage "user" "hi";
                                      MS.mkChatMessage "assistant" "ok"])) /\
  length (default [] (chats 12 ∅ !! "alice")) = 24%nat /\
  snd (MS.clearConversationHistory "alice" both) !! "alice" = None /\
  snd (MS.clearConversationHistory "alice" both) !! "bob" = both !! "bob" /\
  both !! "bob" = Some [MS.mkChatMessage "user" "hello"; MS.mkChatMessage "assistant" "ok"].
Proof. vm_compute. repeat split; reflexivity. Qed.

(** ** Reminder Store: listing *)

Section SortedFacts.
Variable key : RS.Reminder -> Z.

Lemma insertBy_ascending x l : ascending key l -> ascending key (RS.insertBy key x l).
Proof.
  unfold ascending. induction l as [|y l IH]; simpl; intros Hs.
  - constructor; constructor.
  - apply StronglySorted_inv in Hs as [Hs Hall].
    destruct (key x <=? key y) eqn:Hle.
    + constructor; [constructor; assumption|].
      constructor; [lia|]. eapply Forall_impl; [exact Hall|]. simpl. intros; lia.
    + constructor; [now apply IH|].
      apply Forall_forall. intros z Hz. apply list_elem_of_In in Hz.
      destruct (In_insertBy _ _ _ _ Hz) as [->|Hz']; [lia|].
      rewrite Forall_forall in Hall. apply Hall. now apply list_elem_of_In.
Qed.

Lemma sortBy_ascending l : ascending key (RS.sortBy key l).
Proof.
  induction l as [|x l IH]; simpl; [constructor|]. now apply insertBy_ascending.
Qed.

Lemma insertBy_Permutation x l : Permutation (RS.insertBy key x l) (x :: l).
Proof.
  induction l as [|y l IH]; simpl; [reflexivity|].
  destruct (key x <=? key y); [reflexivity|].
  rewrite IH. apply perm_swap.
Qed.

Lemma sortBy_Permutation l : Permutation (RS.sortBy key l) l.
Proof.
  induction l as [|x l IH]; simpl; [reflexivity|].
  rewrite insertBy_Permutation. now constructor.
Qed.

Lemma take_ascending n l : ascending key l -> ascending key (take n l).
Proof.
  unfold ascending. revert n. induction l as [|x l IH]; intros [|n] Hs; simpl; try constructor.
  - apply IH. now apply StronglySorted_inv in Hs as [Hs _].
  - apply StronglySorted_inv in Hs as [_ Hall].
    apply Forall_forall. intros y Hy. rewrite Forall_forall in Hall. apply Hall.
    apply list_elem_of_In. apply list_elem_of_In in Hy. eapply In_take; eauto.
Qed.

Lemma filter_ascending (P : RS.Reminder -> Prop) `{!forall x, Decision (P x)} l :
  ascending key l -> ascending key (filter P l).
Proof.
  unfold ascending. induction l as [|x l IH]; intros Hs; [constructor|].
  apply StronglySorted_inv in Hs as [Hs Hall]. rewrite filter_cons.
  destruct (decide (P x)); [|now apply IH].
  constructor; [now apply IH|].
  apply Forall_forall. intros y Hy. rewrite Forall_forall in Hall. apply Hall.
  apply list_elem_of_filter in Hy. tauto.
Qed.

(** Sorting a list that is in order already returns it. *)
Lemma insertBy_head x l :
  Forall (fun y => key x <= key y) l -> RS.insertBy key x l = x :: l.
Proof.
  destruct l as [|y l]; simpl; [reflexivity|]. intros H. apply Forall_inv in H.
  assert (Hle : (key x <=? key y) = true) by lia. now rewrite Hle.
Qed.

Lemma sortBy_of_ascending l : ascending key l -> RS.sortBy key l = l.
Proof.
  unfold ascending. induction l as [|x l IH]; simpl; intros Hs; [reflexivity|].
  apply StronglySorted_inv in Hs as [Hs Hall]. rewrite (IH Hs).
  now apply insertBy_head.
Qed.

End SortedFacts.

(** What a listing returns and what it does to the store. *)
Lemma getUserReminders_run phone options w :
  let stored := default [] (RS.map_get phone (RS.reminders w)) in
  let all := (RS.opt_status options =? "all")%string in
  let chosen :=
    if all then stored
    else filter (fun r => (RS.status r =? RS.opt_status options)%string = true) stored in
  let sorted := RS.sortBy (sortKey options) chosen in
  RS.getUserReminders phone options w
  = (Eff.Return (if 0 <? RS.opt_limit options
                 then take (Z.to_nat (RS.opt_limit options)) sorted else sorted),
     if all then RS.set_reminders
                   (match RS.map_get phone (RS.reminders w) with
                    | Some _ => RS.map_set phone sorted (RS.reminders w)
                    | None => RS.reminders w
                    end) w
     else w).
Proof.
  unfold RS.getUserReminders, sortKey. eff_unfold. simpl.
  destruct (RS.opt_status options =? "all")%string; simpl.
  - destruct (RS.map_get phone (RS.reminders w)) as [arr|]; simpl;
      destruct (0 <? RS.opt_limit options); try reflexivity; destruct w; reflexivity.
  - destruct (0 <? RS.opt_limit options); reflexivity.
Qed.

(** X8. A listing never fails.  What it returns is in ascending order of
    the chosen key (dueAt, or the creation time), holds at most [limit]
    entries when the limit is positive, holds stored reminders of that
    recipient only, all of them with the requested status unless it is
    'all'; and it holds every such reminder when the limit is not positive
    or the recipient has no more than [limit] reminders. *)
Theorem getUserReminders_sorted_and_limited
        (phone : string) (options : RS.ListOptions) (w : RS.World) :
  exists l w',
    RS.getUserReminders phone options w = (Eff.Return l, w') /\
    ascending (sortKey options) l /\
    (0 < RS.opt_limit options -> Z.of_nat (length l) <= RS.opt_limit options) /\
    (forall r, In r l -> In r (default [] (RS.map_get phone (RS.reminders w)))) /\
    (RS.opt_status options <> "all" ->
     forall r, In r l -> RS.status r = RS.opt_status options) /\
    (RS.opt_limit options <= 0 \/
     Z.of_nat (length (default [] (RS.map_get phone (RS.reminders w)))) <= RS.opt_limit options ->
     forall r, In r (default [] (RS.map_get phone (RS.reminders w))) ->
               RS.opt_status options = "all" \/ RS.status r = RS.opt_status options ->
               In r l).
Proof.
  eexists _, _. split; [apply getUserReminders_run|].
  set (stored := default [] (RS.map_get phone (RS.reminders w))).
  set (chosen := if (RS.opt_status options =? "all")%string then stored else _).
  set (sorted := RS.sortBy (sortKey options) chosen).
  assert (Hsorted : ascending (sortKey options) sorted) by apply sortBy_ascending.
  assert (Hchosen : forall r, In r chosen -> In r stored /\
            (RS.opt_status options <> "all" -> RS.status r = RS.opt_status options)).
  { intros r. subst chosen. destruct (String.eqb_spec (RS.opt_status options) "all") as [Hall|Hall].
    - intros H. split; [exact H|]. intros Hne. now destruct Hne.
    - intros H. apply list_elem_of_In, list_elem_of_filter in H as [Hst H].
      split; [now apply list_elem_of_In|]. intros _. now apply String.eqb_eq. }
  assert (Hlen : (length chosen <= length stored)%nat).
  { subst chosen. destruct (RS.opt_status options =? "all")%string; [lia|apply length_filter]. }
  split; [|split; [|split; [|split]]].
  - destruct (0 <? RS.opt_limit options); [now apply take_ascending|exact Hsorted].
  - intros Hpos. assert (Hb : (0 <? RS.opt_limit options) = true) by lia. rewrite Hb.
    rewrite length_take. lia.
  - intros r Hr. apply Hchosen, (In_sortBy (sortKey options)).
    destruct (0 <? RS.opt_limit options); [eapply In_take; eauto|exact Hr].
  - intros Hne r Hr. apply Hchosen; [|exact Hne]. apply (In_sortBy (sortKey options)).
    destruct (0 <? RS.opt_limit options); [eapply In_take; eauto|exact Hr].
  - intros Hfit r Hr Hst.
    assert (Hin : In r sorted).
    { apply sortBy_In. subst chosen.
      destruct (String.eqb_spec (RS.opt_status options) "all") as [Hall|Hall]; [exact Hr|].
      destruct Hst as [Hst|Hst]; [contradiction|].
      apply list_elem_of_In, list_elem_of_filter. split; [now apply String.eqb_eq|].
      now apply list_elem_of_In. }
    destruct (0 <? RS.opt_limit options) eqn:Hb; [|exact Hin].
    rewrite take_ge; [exact Hin|]. subst sorted. rewrite length_sortBy. lia.
Qed.

Lemma set_reminders_same w : RS.set_reminders (RS.reminders w) w = w.
Proof. now destruct w. Qed.

(** X9. A listing with a status other than 'all' leaves the service as it
    was.  A listing with status 'all' (the default) sorts the stored array
    of the recipient in place: the same reminders in sorted order; the other
    recipients, the keys and the outbox are untouched.  In both cases a
    second listing with the same options returns the same and changes
    nothing more. *)
Theorem getUserReminders_reorders_store_once
        (phone : string) (options : RS.ListOptions) (w : RS.World) :
  let run := RS.getUserReminders phone options w in
  let stored := RS.map_get phone (RS.reminders w) in
  (RS.opt_status options <> "all" \/ stored = None -> snd run = w) /\
  RS.map_get phone (RS.reminders (snd run))
  = (if (RS.opt_status options =? "all")%string
     then option_map (RS.sortBy (sortKey options)) stored else stored) /\
  (forall arr arr', stored = Some arr ->
     RS.map_get phone (RS.reminders (snd run)) = Some arr' -> Permutation arr' arr) /\
  (forall key, key <> phone ->
     RS.map_get key (RS.reminders (snd run)) = RS.map_get key (RS.reminders w)) /\
  map fst (RS.reminders (snd run)) = map fst (RS.reminders w) /\
  RS.outbox (snd run) = RS.outbox w /\
  RS.getUserReminders phone options (snd run) = (fst run, snd run).
Proof.
  intros run stored. subst run. rewrite getUserReminders_run. simpl. fold stored.
  destruct (RS.opt_status options =? "all")%string eqn:Hall.
  - destruct stored as [arr|] eqn:Harr; subst stored.
    + simpl. rewrite map_get_set_eq.
      split; [intros [H|H]; [apply String.eqb_eq in Hall; contradiction|discriminate]|].
      split; [reflexivity|]. split.
      { intros arr0 arr' [= <-] [= <-]. apply sortBy_Permutation. }
      split; [intros key Hne; now rewrite map_get_set_ne by congruence|].
      split; [eapply map_set_keys; eauto|]. split; [reflexivity|].
      rewrite getUserReminders_run. simpl. rewrite map_get_set_eq. simpl.
      rewrite Hall.
      rewrite (sortBy_of_ascending _ _ (sortBy_ascending _ _)).
      rewrite map_set_set. reflexivity.
    + simpl. rewrite set_reminders_same.
      split; [reflexivity|]. rewrite Harr. split; [reflexivity|].
      split; [intros ? ? [=]|]. split; [reflexivity|]. split; [reflexivity|].
      split; [reflexivity|].
      rewrite getUserReminders_run. simpl. rewrite Harr. simpl.
      rewrite Hall. now rewrite set_reminders_same.
  - subst stored. split; [reflexivity|]. split; [reflexivity|].
    split; [intros arr arr' H1 H2; assert (arr' = arr) as -> by congruence; reflexivity|].
    split; [reflexivity|]. split; [reflexivity|]. split; [reflexivity|].
    rewrite getUserReminders_run. simpl. rewrite Hall. reflexivity.
Qed.

Lemma filter_none {A} (P : A -> Prop) `{!forall x, Decision (P x)} (l : list A) :
  (forall x, ~ P x) -> filter P l = [].
Proof.
  intros Hnone. induction l as [|x l IH]; [reflexivity|].
  rewrite filter_cons. destruct (decide (P x)); [now destruct (Hnone x)|exact IH].
Qed.

(** X10. [getUpcomingReminders] never fails and changes nothing.  It
    returns, in ascending order of dueAt, active reminders of the recipient
    that are due strictly after now and strictly before [hours] hours from
    now, and all of them when the recipient has at most 50 active
    reminders; nothing when [hours] is not positive. *)
Theorem getUpcomingReminders_sound_and_complete
        (phone : string) (hours now : Z) (w : RS.World) :
  let stored := default [] (RS.map_get phone (RS.reminders w)) in
  exists l,
    RS.getUpcomingReminders phone hours now w = (Eff.Return l, w) /\
    ascending RS.datetime l /\
    (forall r, In r l ->
       In r stored /\ RS.status r = "active" /\ inWindow now hours r) /\
    ((length (activeOf stored) <= 50)%nat ->
     forall r, In r stored -> RS.status r = "active" -> inWindow now hours r -> In r l) /\
    (hours <= 0 -> l = []).
Proof.
  intros stored. unfold RS.getUpcomingReminders. eff_unfold.
  rewrite getUserReminders_run. simpl. fold stored. fold (activeOf stored).
  eexists. split; [reflexivity|].
  set (P := fun reminder : RS.Reminder =>
              Moment.isAfter (RS.datetime reminder) now
              && Moment.isBefore (RS.datetime reminder) (Moment.addHours hours now) = true).
  assert (HP : forall r, P r <-> inWindow now hours r).
  { intros r. unfold P, inWindow, Moment.isAfter, Moment.isBefore, Moment.addHours,
      Moment.msPerHour. rewrite andb_true_iff. lia. }
  split; [|split; [|split]].
  - apply filter_ascending, take_ascending, sortBy_ascending.
  - intros r Hr. apply list_elem_of_In, list_elem_of_filter in Hr as [Hwin Hr].
    apply list_elem_of_In, In_take, In_sortBy in Hr.
    apply list_elem_of_In, list_elem_of_filter in Hr as [Hact Hr].
    split; [now apply list_elem_of_In|]. split; [now apply String.eqb_eq|now apply HP].
  - intros Hfit r Hr Hact Hwin. apply list_elem_of_In, list_elem_of_filter.
    split; [now apply HP|]. apply list_elem_of_In.
    rewrite take_ge by (rewrite length_sortBy; lia).
    apply sortBy_In. apply list_elem_of_In, list_elem_of_filter.
    split; [now apply String.eqb_eq|now apply list_elem_of_In].
  - intros Hle. apply filter_none. intros r Hr. apply HP in Hr. unfold inWindow in Hr. lia.
Qed.

(** ** Reminder Store: cleanup *)

Lemma map_get_cleanedMap cutoff m key :
  RS.map_get key (cleanedMap cutoff m) = option_map (cleaned cutoff) (RS.map_get key m).
Proof.
  induction m as [|[k arr] m IH]; simpl; [reflexivity|].
  destruct (k =? key)%string; [reflexivity|exact IH].
Qed.

Lemma cleanedMap_keys cutoff m : map fst (cleanedMap cutoff m) = map fst m.
Proof. unfold cleanedMap. rewrite map_map. reflexivity. Qed.

Lemma cleaned_idem cutoff arr : cleaned cutoff (cleaned cutoff arr) = cleaned cutoff arr.
Proof. unfold cleaned. apply list_filter_filter_r. auto. Qed.

Lemma map_set_notin key v (m : list (string * list RS.Reminder)) entry :
  fst entry <> key -> RS.map_set key v (entry :: m) = entry :: RS.map_set key v m.
Proof.
  destruct entry as [k v0]. simpl. intros Hne. apply String.eqb_neq in Hne. now rewrite Hne.
Qed.

(** The loop over a suffix of the entries: the entries before it are cleaned
    already, those of the suffix are cleaned one by one. *)
Lemma cleanupEntries_run cutoff : forall rest done cnt w,
  RS.reminders w = (done ++ rest)%list ->
  NoDup (map fst (done ++ rest)) ->
  RS.cleanupEntries (map fst rest) cutoff cnt w
  = (Eff.Return (cnt + (Z.of_nat (total rest) - Z.of_nat (total (cleanedMap cutoff rest)))),
     RS.set_reminders (done ++ cleanedMap cutoff rest)%list w).
Proof.
  induction rest as [|[k arr] rest IH]; intros done cnt w Hw Hnodup.
  - simpl. unfold Eff.ret. rewrite <- Hw, set_reminders_same. do 2 f_equal. lia.
  - cbn [map fst RS.cleanupEntries]. eff_unfold.
    assert (Hnotin : k ∉ map fst done).
    { rewrite map_app in Hnodup. apply NoDup_app in Hnodup as (_ & Hdisj & _).
      intros Hin. apply (Hdisj k Hin). simpl. left. }
    assert (Hget : forall tail v, RS.map_get k (done ++ (k, v) :: tail)%list = Some v).
    { intros tail v. clear -Hnotin. induction done as [|[k0 v0] done IHd]; simpl.
      - now rewrite String.eqb_refl.
      - destruct (String.eqb_spec k0 k) as [->|Hne].
        + exfalso. apply Hnotin. simpl. left.
        + apply IHd. intros Hin. apply Hnotin. simpl. now right. }
    assert (Hset : forall tail v v', RS.map_set k v' (done ++ (k, v) :: tail)%list
                                     = (done ++ (k, v') :: tail)%list).
    { intros tail v v'. clear -Hnotin. induction done as [|[k0 v0] done IHd]; simpl.
      - now rewrite String.eqb_refl.
      - destruct (String.eqb_spec k0 k) as [->|Hne].
        + exfalso. apply Hnotin. simpl. left.
        + rewrite IHd; [reflexivity|]. intros Hin. apply Hnotin. simpl. now right. }
    rewrite Hw, Hget. simpl. rewrite Hset, Hget. simpl.
    fold (cleaned cutoff arr).
    set (w1 := RS.set_reminders _ w).
    rewrite (IH (done ++ [(k, cleaned cutoff arr)])%list _ w1).
    + subst w1. rewrite <- app_assoc. simpl. f_equal. f_equal. lia.
    + subst w1. simpl. now rewrite <- app_assoc.
    + rewrite <- app_assoc. simpl. rewrite !map_app in *. simpl in *. exact Hnodup.
Qed.

Lemma cleanedMap_idem cutoff m : cleanedMap cutoff (cleanedMap cutoff m) = cleanedMap cutoff m.
Proof.
  unfold cleanedMap. rewrite map_map. apply map_ext. intros [k arr]. simpl.
  now rewrite cleaned_idem.
Qed.

Lemma In_cleaned cutoff arr r :
  In r (cleaned cutoff arr) <->
  In r arr /\ (RS.status r = "active" \/ cutoff < RS.datetime r).
Proof.
  unfold cleaned. rewrite <- !list_elem_of_In, list_elem_of_filter.
  unfold RS.keptByCleanup, Moment.isAfter.
  rewrite orb_true_iff, String.eqb_eq, Z.ltb_lt. tauto.
Qed.

(** X11. On a map with distinct keys, [cleanupOldReminders] keeps every
    key and filters each array in place, order kept: a reminder stays
    exactly when it is active or due after the cutoff ([daysOld] days
    before now).  So no active reminder is ever removed.  The count the loop
    ends with is the number of reminders removed, no message is sent, and a
    second cleanup at the same instant removes nothing more. *)
Theorem cleanupOldReminders_keeps_active_and_recent
        (daysOld now : Z) (w : RS.World)
        (Hkeys : NoDup (map fst (RS.reminders w))) :
  let cutoff := now - daysOld * 86400000 in
  exists w',
    RS.cleanupOldReminders daysOld now w = (Eff.Return tt, w') /\
    map fst (RS.reminders w') = map fst (RS.reminders w) /\
    (forall key, RS.map_get key (RS.reminders w')
                 = option_map (cleaned cutoff) (RS.map_get key (RS.reminders w))) /\
    (forall arr r, In r (cleaned cutoff arr) <->
                   In r arr /\ (RS.status r = "active" \/ cutoff < RS.datetime r)) /\
    fst (RS.cleanupEntries (map fst (RS.reminders w)) cutoff 0 w)
    = Eff.Return (Z.of_nat (total (RS.reminders w)) - Z.of_nat (total (RS.reminders w'))) /\
    RS.outbox w' = RS.outbox w /\
    RS.cleanupOldReminders daysOld now w' = (Eff.Return tt, w').
Proof.
  intros cutoff.
  assert (Hcut : Moment.addDays (- daysOld) now = cutoff).
  { unfold Moment.addDays, Moment.msPerDay. subst cutoff. lia. }
  assert (Hrun : forall w0, NoDup (map fst (RS.reminders w0)) ->
    RS.cleanupEntries (map fst (RS.reminders w0)) cutoff 0 w0
    = (Eff.Return (0 + (Z.of_nat (total (RS.reminders w0))
                        - Z.of_nat (total (cleanedMap cutoff (RS.reminders w0))))),
       RS.set_reminders (cleanedMap cutoff (RS.reminders w0)) w0)).
  { intros w0 Hnd. apply (cleanupEntries_run cutoff (RS.reminders w0) [] 0 w0); auto. }
  exists (RS.set_reminders (cleanedMap cutoff (RS.reminders w)) w).
  split; [|split; [|split; [|split; [|split; [|split]]]]].
  - unfold RS.cleanupOldReminders. eff_unfold. rewrite Hcut, (Hrun w Hkeys). reflexivity.
  - simpl. apply cleanedMap_keys.
  - intros key. simpl. apply map_get_cleanedMap.
  - intros arr r. apply In_cleaned.
  - rewrite (Hrun w Hkeys). simpl. reflexivity.
  - reflexivity.
  - unfold RS.cleanupOldReminders. eff_unfold. rewrite Hcut, Hrun.
    + simpl. rewrite cleanedMap_idem. reflexivity.
    + simpl. now rewrite cleanedMap_keys.
Qed.

Lemma cleanupOldReminders_keeps_active_and_recent_witness :
  NoDup (map fst (RS.reminders oneReminder)) /\
  exists w',
    RS.cleanupOldReminders 30 (2000 + 31 * 86400000) oneReminder = (Eff.Return tt, w') /\
    RS.map_get "alice" (RS.reminders w') = Some [callMom].
Proof.
  assert (Hkeys : NoDup (map fst (RS.reminders oneReminder))).
  { vm_compute. repeat constructor; intros H; inversion H. }
  split; [exact Hkeys|].
  destruct (cleanupOldReminders_keeps_active_and_recent 30 (2000 + 31 * 86400000)
              oneReminder Hkeys) as (w' & Hrun & _ & Hget & _).
  exists w'. split; [exact Hrun|]. rewrite Hget. reflexivity.
Defined.

(** ** Reminder Store: statistics *)

Lemma total_sumOver m : total m = sumOver length m.
Proof. induction m as [|[k arr] m IH]; simpl; congruence. Qed.

Lemma statsLoop_sums m t a s :
  RS.statsLoop (map snd m) t a s
  = (t + Z.of_nat (sumOver length m),
     a + Z.of_nat (sumOver (hasStatus "active") m),
     s + Z.of_nat (sumOver (hasStatus "sent") m)).
Proof.
  revert t a s. induction m as [|[k arr] m IH]; intros t a s; simpl.
  - now rewrite !Z.add_0_r.
  - rewrite IH. unfold hasStatus. f_equal; [f_equal|]; lia.
Qed.

Lemma getStats_run w :
  RS.getStats w
  = (Eff.Return
       (RS.mkStats (Z.of_nat (sumOver length (RS.reminders w)))
          (Z.of_nat (sumOver (hasStatus "active") (RS.reminders w)))
          (Z.of_nat (sumOver (hasStatus "sent") (RS.reminders w)))
          (Z.of_nat (length (RS.reminders w)))), w).
Proof.
  unfold RS.getStats, Eff.gets. now rewrite statsLoop_sums.
Qed.

Lemma sumOver_map_set f m key v :
  (sumOver f (RS.map_set key v m) + f (default [] (RS.map_get key m))
   = sumOver f m + f v + (if RS.map_has key m then 0 else f []))%nat.
Proof.
  unfold RS.map_has. induction m as [|[k arr] m IH]; simpl; [lia|].
  destruct (k =? key)%string; simpl; [lia|].
  destruct (RS.map_get key m); simpl in *; lia.
Qed.

Lemma length_map_set m key v :
  length (RS.map_set key v m) = (length m + (if RS.map_has key m then 0 else 1))%nat.
Proof.
  unfold RS.map_has. induction m as [|[k arr] m IH]; simpl; [reflexivity|].
  destruct (k =? key)%string; simpl; [lia|]. rewrite IH.
  destruct (RS.map_get key m); lia.
Qed.

Lemma hasStatus_app st arr1 arr2 :
  hasStatus st (arr1 ++ arr2) = (hasStatus st arr1 + hasStatus st arr2)%nat.
Proof. unfold hasStatus. now rewrite filter_app, length_app. Qed.

Lemma hasStatus_le st arr : (hasStatus st arr <= length arr)%nat.
Proof. apply length_filter. Qed.

Lemma hasStatus_disjoint arr :
  (hasStatus "active" arr + hasStatus "sent" arr <= length arr)%nat.
Proof.
  unfold hasStatus. induction arr as [|r arr IH]; simpl; [lia|].
  rewrite !filter_cons.
  destruct (decide ((RS.status r =? "active")%string = true)) as [Ha|Ha];
    destruct (decide ((RS.status r =? "sent")%string = true)) as [Hs|Hs]; simpl; try lia.
  apply String.eqb_eq in Ha, Hs. congruence.
Qed.

Lemma sumOver_disjoint m :
  (sumOver (hasStatus "active") m + sumOver (hasStatus "sent") m <= sumOver length m)%nat.
Proof.
  induction m as [|[k arr] m IH]; simpl; [lia|].
  pose proof (hasStatus_disjoint arr). lia.
Qed.

(** The store after a create that succeeds. *)
Lemma setReminder_store uuidv4 phone text dueAt options now w :
  now <= dueAt ->
  let r := RS.mkReminder (uuidv4 (RS.uuidCalls w)) phone text dueAt
             (RS.opt_timezone options) (RS.opt_recurring options)
             (RS.opt_recurrence_type options) (RS.opt_priority options)
             "active" now false None None None in
  RS.setReminder uuidv4 phone text (Some dueAt) options now w
  = (Eff.Return r,
     RS.mkWorld
       (RS.map_set phone (default [] (RS.map_get phone (RS.reminders w)) ++ [r])
          (RS.reminders w))
       (RS.whatsappService w) (S (RS.uuidCalls w)) (RS.sendCalls w) (RS.outbox w)).
Proof.
  intros Hle r. unfold RS.setReminder, Moment.isBefore. eff_unfold.
  assert (Hlt : (dueAt <? now) = false) by lia. rewrite Hlt. simpl.
  unfold RS.map_has, RS.push.
  destruct (RS.map_get phone (RS.reminders w)) as [arr|] eqn:Harr; simpl.
  - rewrite Harr. reflexivity.
  - rewrite map_get_set_eq. simpl. rewrite map_set_set. reflexivity.
Qed.

(** X12. The statistics follow a create: when the dueAt is not in the past,
    the create raises the total and the number of active reminders by one,
    leaves the number of sent ones, and raises the number of users by one
    exactly when the recipient had no entry.  [getStats] changes nothing;
    its active and sent counts never exceed the total together, and its
    number of users is the number of keys. *)
Theorem getStats_counts_a_create
        (uuidv4 : nat -> string) (phone text : string) (dueAt : Z)
        (options : RS.SetOptions) (now : Z) (w : RS.World)
        (Hle : now <= dueAt) :
  exists before r w1 after,
    RS.getStats w = (Eff.Return before, w) /\
    RS.setReminder uuidv4 phone text (Some dueAt) options now w = (Eff.Return r, w1) /\
    RS.getStats w1 = (Eff.Return after, w1) /\
    RS.stats_total after = RS.stats_total before + 1 /\
    RS.stats_active after = RS.stats_active before + 1 /\
    RS.stats_sent after = RS.stats_sent before /\
    RS.stats_users after
    = RS.stats_users before + (if RS.map_has phone (RS.reminders w) then 0 else 1) /\
    0 <= RS.stats_active before /\ 0 <= RS.stats_sent before /\
    RS.stats_active before + RS.stats_sent before <= RS.stats_total before /\
    RS.stats_users before = Z.of_nat (length (RS.reminders w)).
Proof.
  eexists _, _, _, _. split; [apply getStats_run|].
  split; [apply (setReminder_store uuidv4 phone text dueAt options now w Hle)|].
  split; [apply getStats_run|]. simpl.
  set (r := RS.mkReminder _ _ _ _ _ _ _ _ _ _ _ _ _ _).
  set (old := default [] (RS.map_get phone (RS.reminders w))).
  pose proof (sumOver_map_set length (RS.reminders w) phone (old ++ [r])) as Ht.
  pose proof (sumOver_map_set (hasStatus "active") (RS.reminders w) phone (old ++ [r])) as Ha.
  pose proof (sumOver_map_set (hasStatus "sent") (RS.reminders w) phone (old ++ [r])) as Hs.
  pose proof (sumOver_disjoint (RS.reminders w)) as Hd.
  rewrite length_app in Ht. rewrite hasStatus_app in Ha, Hs. fold old in Ht, Ha, Hs.
  change (hasStatus "active" [r]) with 1%nat in Ha.
  change (hasStatus "sent" [r]) with 0%nat in Hs.
  change (hasStatus "active" []) with 0%nat in Ha.
  change (hasStatus "sent" []) with 0%nat in Hs.
  simpl in Ht. rewrite length_map_set.
  destruct (RS.map_has phone (RS.reminders w)); repeat split; lia.
Qed.

Lemma getStats_counts_a_create_witness :
  1000 <= 2000 /\
  exists before after,
    RS.getStats RS.constructor = (Eff.Return before, RS.constructor) /\
    RS.getStats oneReminder = (Eff.Return after, oneReminder) /\
    RS.stats_total after = RS.stats_total before + 1 /\
    RS.stats_users after = RS.stats_users before + 1.
Proof.
  split; [lia|].
  destruct (getStats_counts_a_create sampleIds "alice" "call mom" 2000 RS.defaultSetOptions
              1000 RS.constructor) as (before & r & w1 & after & Hb & Hset & Ha & Ht & _ & _ & Hu & _).
  - lia.
  - assert (w1 = oneReminder) as -> by (unfold oneReminder; now rewrite Hset).
    exists before, after. repeat split; auto.
Defined.

(** ** Reminder Store: cancel, then list *)

Lemma length_filter_insert {A} (P : A -> Prop) `{!forall x, Decision (P x)}
      (l : list A) (i : nat) (c : A) :
  ~ P c -> (length (filter P (<[i := c]> l)) <= length (filter P l))%nat.
Proof.
  intros Hc. revert i. induction l as [|y l IH]; intros [|i]; simpl; try lia.
  - rewrite !filter_cons. destruct (decide (P c)); [contradiction|].
    destruct (decide (P y)); simpl; lia.
  - rewrite !filter_cons. specialize (IH i). destruct (decide (P y)); simpl; lia.
Qed.

(** What a cancel that returns has done. *)
Lemma cancelReminder_inv phone reminderId w r w1 :
  RS.cancelReminder phone reminderId w = (Eff.Return r, w1) ->
  exists arr i r0,
    RS.map_get phone (RS.reminders w) = Some arr /\
    RS.findIndex reminderId arr = Some i /\ arr !! i = Some r0 /\
    RS.id r0 = reminderId /\ r = RS.set_status "cancelled" r0 /\
    w1 = RS.set_reminders (RS.map_set phone (<[i := r]> arr) (RS.reminders w)) w.
Proof.
  unfold RS.cancelReminder. eff_unfold.
  destruct (RS.map_get phone (RS.reminders w)) as [arr|] eqn:Harr; simpl; [|discriminate].
  destruct (RS.findIndex reminderId arr) as [i|] eqn:Hfind; simpl; [|discriminate].
  destruct (findIndex_lookup _ _ _ Hfind) as (r0 & Hr0 & Hid). rewrite Hr0. simpl.
  intros [= <- <-]. exists arr, i, r0. repeat split; auto.
  unfold RS.assign. simpl. now rewrite Harr, Hr0.
Qed.

(** X13. Cancel, then list: when the ids of the recipient's reminders are
    distinct, no reminder with the cancelled id is in the listing of the
    active reminders after a cancel that succeeded, every reminder of the
    listing is an active stored one with another id, and the other active
    reminders are all listed when the recipient had at most 50 of them.  The
    cancel sends no message. *)
Theorem cancel_then_list_active
        (phone reminderId : string) (w w1 : RS.World) (r : RS.Reminder)
        (Hcancel : RS.cancelReminder phone reminderId w = (Eff.Return r, w1))
        (Hids : NoDup (map RS.id (default [] (RS.map_get phone (RS.reminders w))))) :
  let stored := default [] (RS.map_get phone (RS.reminders w)) in
  exists l,
    RS.getUserReminders phone activeOnly w1 = (Eff.Return l, w1) /\
    (forall x, In x l -> RS.id x <> reminderId /\ RS.status x = "active" /\ In x stored) /\
    ((length (activeOf stored) <= 50)%nat ->
     forall x, In x stored -> RS.status x = "active" -> RS.id x <> reminderId -> In x l) /\
    RS.outbox w1 = RS.outbox w.
Proof.
  intros stored.
  destruct (cancelReminder_inv _ _ _ _ _ Hcancel) as (arr & i & r0 & Harr & Hfind & Hr0 & Hid & -> & ->).
  subst stored. rewrite Harr in *. simpl in Hids |- *.
  assert (Hlt : (i < length arr)%nat) by (eapply lookup_lt_Some; eauto).
  set (c := RS.set_status "cancelled" r0).
  (* the active reminders after the cancel *)
  assert (Hafter : forall x, In x (activeOf (<[i := c]> arr)) <->
                             In x arr /\ RS.status x = "active" /\ RS.id x <> reminderId).
  { intros x. unfold activeOf. rewrite <- !list_elem_of_In, list_elem_of_filter, String.eqb_eq.
    rewrite !list_elem_of_lookup. split.
    - intros [Hact [j Hj]]. destruct (decide (j = i)) as [->|Hji].
      + rewrite list_lookup_insert_eq in Hj by exact Hlt. injection Hj as <-. discriminate.
      + rewrite list_lookup_insert_ne in Hj by congruence.
        split; [eauto|]. split; [exact Hact|]. intros Hidx. apply Hji.
        apply (NoDup_lookup (map RS.id arr) j i reminderId Hids).
        * now rewrite list_lookup_fmap, Hj; simpl; rewrite Hidx.
        * now rewrite list_lookup_fmap, Hr0; simpl; rewrite Hid.
    - intros [[j Hj] [Hact Hne]]. split; [exact Hact|]. exists j.
      rewrite list_lookup_insert_ne; [exact Hj|]. intros <-. congruence. }
  assert (Hlen : (length (activeOf (<[i := c]> arr)) <= length (activeOf arr))%nat).
  { unfold activeOf. apply length_filter_insert. discriminate. }
  eexists. split.
  - rewrite getUserReminders_run. simpl. rewrite map_get_set_eq. simpl. reflexivity.
  - fold c. fold (activeOf (<[i := c]> arr)). split; [|split; [|reflexivity]].
    + intros x Hx. apply In_take, In_sortBy, Hafter in Hx. tauto.
    + intros Hfit x Hx Hact Hne.
      rewrite take_ge by (rewrite length_sortBy; lia).
      apply sortBy_In, Hafter. auto.
Qed.

Lemma cancel_then_list_active_witness :
  exists l,
    RS.getUserReminders "alice" activeOnly
      (snd (RS.cancelReminder "alice" "id-00" oneReminder))
    = (Eff.Return l, snd (RS.cancelReminder "alice" "id-00" oneReminder)) /\
    forall x, In x l -> RS.id x <> "id-00".
Proof.
  destruct (cancel_then_list_active "alice" "id-00" oneReminder
              (snd (RS.cancelReminder "alice" "id-00" oneReminder))
              (RS.set_status "cancelled" callMom))
    as (l & Hrun & Hnot & _).
  - reflexivity.
  - vm_compute. repeat constructor; intros H; inversion H.
  - exists l. split; [exact Hrun|]. intros x Hx. now apply Hnot.
Defined.

(** ** Reminder Store: failures *)

(** X14. A create fails with a time error exactly when its dueAt is invalid
    or strictly before now, and that failure leaves the whole service as it
    was (no id is used up, nothing is stored); otherwise the create of a text
    message (a string) succeeds and uses one id.  A cancel fails exactly
    when no reminder of the recipient has the id, and leaves the service as
    it was; a cancel that succeeds uses no id.  Neither sends a message. *)
Theorem create_and_cancel_fail_without_effect
        (uuidv4 : nat -> string) (phone text reminderId : string) (dueAt : option Z)
        (options : RS.SetOptions) (now : Z) (w : RS.World) :
  match dueAt with
  | None =>
      RS.setReminder uuidv4 phone text dueAt options now w
      = (Eff.Throw "Failed to set reminder: Invalid date/time format", w)
  | Some t =>
      if t <? now
      then RS.setReminder uuidv4 phone text dueAt options now w
           = (Eff.Throw "Failed to set reminder: Reminder time cannot be in the past", w)
      else exists r w1,
             RS.setReminder uuidv4 phone text dueAt options now w = (Eff.Return r, w1) /\
             RS.uuidCalls w1 = S (RS.uuidCalls w) /\ RS.outbox w1 = RS.outbox w
  end /\
  match RS.findIndex reminderId (default [] (RS.map_get phone (RS.reminders w))) with
  | None =>
      RS.cancelReminder phone reminderId w
      = (Eff.Throw "Failed to cancel reminder: Reminder not found", w)
  | Some i =>
      exists r w1,
        RS.cancelReminder phone reminderId w = (Eff.Return r, w1) /\
        RS.status r = "cancelled" /\ RS.id r = reminderId /\
        RS.uuidCalls w1 = RS.uuidCalls w /\ RS.outbox w1 = RS.outbox w
  end.
Proof.
  split.
  - destruct dueAt as [t|]; [|reflexivity].
    destruct (t <? now) eqn:Hlt.
    + unfold RS.setReminder, Moment.isBefore. eff_unfold. now rewrite Hlt.
    + eexists _, _. split; [apply setReminder_store; lia|]. split; reflexivity.
  - destruct (RS.findIndex reminderId (default [] (RS.map_get phone (RS.reminders w))))
      as [i|] eqn:Hfind.
    + destruct (findIndex_lookup _ _ _ Hfind) as (r0 & Hr0 & Hid).
      unfold RS.cancelReminder. eff_unfold. rewrite Hfind, Hr0. simpl.
      eexists _, _. split; [reflexivity|]. split; [reflexivity|]. split; [exact Hid|].
      unfold RS.assign. simpl.
      destruct (RS.map_get phone (RS.reminders w)) as [arr|]; [|split; reflexivity].
      simpl in Hr0. rewrite Hr0. split; reflexivity.
    + unfold RS.cancelReminder. eff_unfold. now rewrite Hfind.
Qed.

(** ** Reminder Dispatcher: what a tick touches *)

Section TickFrame.

Variable uuidv4 : nat -> string.
Variable now : Z.

Implicit Types (m : list (string * list RS.Reminder)) (w : RS.World).

Lemma settled_not_due r t : settled r -> RS.isDue t r = false.
Proof.
  unfold RS.isDue. intros [Hsent|Hfailed].
  - rewrite Hsent. simpl. now rewrite andb_false_r.
  - rewrite Hfailed. reflexivity.
Qed.

Lemma sameReminder_refl r : sameReminder r r.
Proof. repeat split. Qed.

Lemma sameReminder_trans r1 r2 r3 :
  sameReminder r1 r2 -> sameReminder r2 r3 -> sameReminder r1 r3.
Proof. unfold sameReminder. intuition congruence. Qed.

Lemma descends_same r r' : descends now r r' -> sameReminder r r'.
Proof. intros [->|(_ & _ & H)]; [apply sameReminder_refl|exact H]. Qed.

Lemma descends_trans r1 r2 r3 :
  descends now r1 r2 -> descends now r2 r3 -> descends now r1 r3.
Proof.
  intros [->|(Hdue & Hset & Hsame)] H23; [exact H23|].
  destruct H23 as [->|(Hdue2 & _)].
  - right. auto.
  - rewrite (settled_not_due r2 now Hset) in Hdue2. discriminate.
Qed.

Lemma evolves_refl m : evolves now m m.
Proof. intros key arr i r Harr Hr. exists arr, r. repeat split; auto. now left. Qed.

Lemma evolves_trans m1 m2 m3 :
  evolves now m1 m2 -> evolves now m2 m3 -> evolves now m1 m3.
Proof.
  intros H12 H23 key arr i r Harr Hr.
  destruct (H12 key arr i r Harr Hr) as (arr2 & r2 & Harr2 & Hr2 & Hd2).
  destruct (H23 key arr2 i r2 Harr2 Hr2) as (arr3 & r3 & Harr3 & Hr3 & Hd3).
  exists arr3, r3. repeat split; auto. eapply descends_trans; eauto.
Qed.

(** Replacing the element at a place by a descendant of it. *)
Lemma evolves_insert m key arr i r x :
  RS.map_get key m = Some arr -> arr !! i = Some r -> descends now r x ->
  evolves now m (RS.map_set key (<[i := x]> arr) m).
Proof.
  intros Harr Hr Hx k arr_k j r_k Hk Hj.
  destruct (String.eqb_spec key k) as [<-|Hne].
  - rewrite map_get_set_eq. assert (arr_k = arr) as -> by congruence.
    assert (Hlt : (i < length arr)%nat) by (eapply lookup_lt_Some; eauto).
    destruct (decide (j = i)) as [->|Hji].
    + exists (<[i := x]> arr), x. split; [reflexivity|].
      split; [now apply list_lookup_insert_eq|]. congruence.
    + exists (<[i := x]> arr), r_k. split; [reflexivity|].
      split; [now rewrite list_lookup_insert_ne by congruence|now left].
  - rewrite map_get_set_ne by exact Hne. exists arr_k, r_k. repeat split; auto. now left.
Qed.

(** Pushing a reminder at the end of an array moves none. *)
Lemma evolves_push m key arr x :
  RS.map_get key m = Some arr ->
  evolves now m (RS.map_set key (arr ++ [x])%list m).
Proof.
  intros Harr k arr_k j r_k Hk Hj.
  destruct (String.eqb_spec key k) as [<-|Hne].
  - rewrite map_get_set_eq. assert (arr_k = arr) as -> by congruence.
    exists (arr ++ [x])%list, r_k. split; [reflexivity|].
    split; [|now left]. rewrite lookup_app_l; [exact Hj|]. eapply lookup_lt_Some; eauto.
  - rewrite map_get_set_ne by exact Hne. exists arr_k, r_k. repeat split; auto. now left.
Qed.

(** [scheduleNextRecurrence] returns, and pushes a reminder or does
    nothing. *)
Lemma scheduleNextRecurrence_evolves ref t w :
  exists w1,
    RS.scheduleNextRecurrence uuidv4 ref t w = (Eff.Return tt, w1) /\
    evolves now (RS.reminders w) (RS.reminders w1).
Proof.
  unfold RS.scheduleNextRecurrence. eff_unfold.
  destruct (RS.deref ref w) as [r|]; [|eexists; split; [reflexivity|apply evolves_refl]].
  rewrite nextTime_switch.
  destruct (RS.recurrence_type r) as [unit|];
    [|eexists; split; [reflexivity|apply evolves_refl]].
  destruct (advance unit (RS.datetime r)) as [next|];
    [|eexists; split; [reflexivity|apply evolves_refl]].
  unfold RS.uuid. simpl.
  destruct (RS.map_get (RS.phone r) (RS.reminders w)) as [arr_p|] eqn:Hp; simpl;
    [|eexists; split; [reflexivity|apply evolves_refl]].
  unfold RS.push. simpl. rewrite Hp. simpl.
  eexists; split; [reflexivity|]. now apply evolves_push.
Qed.

(** Delivering a due reminder settles it and moves no reminder. *)
Lemma sendReminder_evolves key i w arr r :
  RS.map_get key (RS.reminders w) = Some arr -> arr !! i = Some r ->
  RS.isDue now r = true ->
  evolves now (RS.reminders w)
    (RS.reminders (snd (RS.sendReminder uuidv4 (key, i) now w))).
Proof.
  intros Harr Hr Hdue.
  assert (Hfailed : forall msg w0,
    RS.reminders w0 = RS.reminders w ->
    evolves now (RS.reminders w)
      (RS.reminders
         (RS.assign (key, i)
            (fun r0 => RS.set_error (Some msg) (RS.set_status "failed" r0)) w0))).
  { intros msg w0 Hw0. rewrite <- Hw0 in Harr.
    rewrite (assign_Some key i _ w0 arr r Harr Hr). simpl. rewrite Hw0 in *.
    apply (evolves_insert _ _ _ _ r); auto.
    right. split; [exact Hdue|]. split; [now right|]. repeat split. }
  unfold RS.sendReminder. eff_unfold.
  destruct (RS.whatsappService w) as [send|] eqn:Hsvc; [|now apply Hfailed].
  rewrite (deref_Some key i w arr r Harr Hr).
  unfold RS.sendMessage.
  destruct (send (RS.sendCalls w) (RS.phone r) (RS.reminderMessage r)) as [msg|];
    [now apply Hfailed|].
  set (w0 := RS.mkWorld _ _ _ _ _).
  assert (Harr0 : RS.map_get key (RS.reminders w0) = Some arr) by exact Harr.
  rewrite (assign_Some key i _ w0 arr r Harr0 Hr).
  set (r1 := RS.set_sent_at (Some now) (RS.set_sent true r)).
  set (w2 := RS.set_reminders _ w0).
  assert (Hstep1 : evolves now (RS.reminders w) (RS.reminders w2)).
  { subst w2. simpl. apply (evolves_insert _ _ _ _ r); auto.
    right. split; [exact Hdue|]. split; [now left|]. repeat split. }
  assert (Hget2 : RS.map_get key (RS.reminders w2) = Some (<[i := r1]> arr))
    by apply map_get_set_eq.
  assert (Hlt : (i < length arr)%nat) by (eapply lookup_lt_Some; eauto).
  assert (Hr1 : <[i := r1]> arr !! i = Some r1) by now apply list_lookup_insert_eq.
  destruct (RS.recurring r && RS.truthy (RS.recurrence_type r)).
  - destruct (scheduleNextRecurrence_evolves (key, i) now w2) as (w3 & -> & Hsch).
    simpl. eapply evolves_trans; eauto.
  - rewrite (assign_Some key i _ w2 _ r1 Hget2 Hr1). simpl.
    rewrite list_insert_insert_eq, map_set_set.
    apply (evolves_insert _ _ _ _ r); auto.
    right. split; [exact Hdue|]. split; [now left|]. repeat split.
Qed.

(** The scans keep what every delivery of a due reminder keeps. *)
Lemma scanReminders_invariant (P : RS.World -> Prop) :
  (forall key i w arr r,
     RS.map_get key (RS.reminders w) = Some arr -> arr !! i = Some r ->
     RS.isDue now r = true -> P w ->
     P (snd (RS.sendReminder uuidv4 (key, i) now w))) ->
  forall fuel key i cnt w,
    P w -> P (snd (RS.scanReminders uuidv4 fuel key i now cnt w)).
Proof.
  intros Hsend. induction fuel as [|fuel IH]; intros key i cnt w HP; [exact HP|].
  cbn [RS.scanReminders]. eff_unfold.
  destruct (RS.map_get key (RS.reminders w)) as [arr|] eqn:Harr; simpl; [|exact HP].
  destruct (arr !! i) as [r|] eqn:Hr; [|exact HP].
  destruct (RS.isDue now r) eqn:Hdue; [|now apply IH].
  pose proof (Hsend key i w arr r Harr Hr Hdue HP) as HP1.
  destruct (RS.sendReminder uuidv4 (key, i) now w) as [[[]|msg|] w1]; simpl in *;
    [now apply IH|exact HP1|exact HP1].
Qed.

Lemma scanUsers_invariant (P : RS.World -> Prop) :
  (forall key i w arr r,
     RS.map_get key (RS.reminders w) = Some arr -> arr !! i = Some r ->
     RS.isDue now r = true -> P w ->
     P (snd (RS.sendReminder uuidv4 (key, i) now w))) ->
  forall fuel keys cnt w,
    P w -> P (snd (RS.scanUsers uuidv4 fuel keys now cnt w)).
Proof.
  intros Hsend fuel. induction keys as [|key keys IH]; intros cnt w HP; [exact HP|].
  cbn [RS.scanUsers]. eff_unfold.
  pose proof (scanReminders_invariant P Hsend fuel key O cnt w HP) as HP1.
  destruct (RS.scanReminders uuidv4 fuel key 0 now cnt w) as [[n|msg|] w1]; simpl in *;
    [now apply IH|exact HP1|exact HP1].
Qed.

Lemma checkReminders_invariant (P : RS.World -> Prop) :
  (forall key i w arr r,
     RS.map_get key (RS.reminders w) = Some arr -> arr !! i = Some r ->
     RS.isDue now r = true -> P w ->
     P (snd (RS.sendReminder uuidv4 (key, i) now w))) ->
  forall fuel w, P w -> P (snd (RS.checkReminders uuidv4 fuel now w)).
Proof.
  intros Hsend fuel w HP. unfold RS.checkReminders. eff_unfold.
  pose proof (scanUsers_invariant P Hsend fuel (map fst (RS.reminders w)) 0 w HP) as HP1.
  destruct (RS.scanUsers uuidv4 fuel (map fst (RS.reminders w)) now 0 w)
    as [[n|msg|] w1]; simpl in *; exact HP1.
Qed.

Lemma checkReminders_evolves fuel w :
  evolves now (RS.reminders w)
    (RS.reminders (snd (RS.checkReminders uuidv4 fuel now w))).
Proof.
  apply (checkReminders_invariant (fun w' => evolves now (RS.reminders w) (RS.reminders w'))).
  - intros key i w0 arr r Harr Hr Hdue Hev.
    eapply evolves_trans; [exact Hev|]. eapply sendReminder_evolves; eauto.
  - apply evolves_refl.
Qed.

(** With enough fuel and distinct keys, no reminder is due after the tick. *)
Lemma checkReminders_clears fuel w :
  NoDup (map fst (RS.reminders w)) ->
  (2 * total (RS.reminders w) < fuel)%nat ->
  dueTotal now (RS.reminders (snd (RS.checkReminders uuidv4 fuel now w))) = O.
Proof.
  intros Hnodup Hfuel. unfold RS.checkReminders. eff_unfold.
  destruct (scanUsers_returns uuidv4 now fuel (map fst (RS.reminders w)) 0 w)
    as (n & w' & Hscan & Hn & _ & [Hkeys _] & Hzero).
  { pose proof (dueTotal_le_total now (RS.reminders w)). lia. }
  rewrite Hscan. simpl. apply dueTotal_zero; rewrite Hkeys; [exact Hzero|exact Hnodup].
Qed.

Lemma due_in_store m key arr i r :
  RS.map_get key m = Some arr -> arr !! i = Some r -> RS.isDue now r = true ->
  (0 < dueTotal now m)%nat.
Proof.
  intros Harr Hr Hdue. destruct (map_get_le now m key arr Harr) as [_ Hle].
  pose proof (dueIn_drop now arr i r Hr) as Hdrop. rewrite Hdue in Hdrop.
  assert (dueIn now (drop i arr) <= dueIn now arr)%nat; [|lia].
  rewrite <- (take_drop i arr) at 2. rewrite dueIn_app. lia.
Qed.

End TickFrame.

(** X3. Whatever the fuel and the Notifier, a tick moves no reminder and
    removes none: every reminder is found afterwards at the place it had,
    with its id, recipient, text, dueAt and recurrence; it is untouched when
    it was not due, and otherwise untouched or settled (sent, or marked
    'failed').  The arrays only grow. *)
Theorem checkReminders_touches_only_due
        (uuidv4 : nat -> string) (fuel : nat) (now : Z) (w : RS.World)
        (key : string) (arr : list RS.Reminder) (i : nat) (r : RS.Reminder)
        (Harr : RS.map_get key (RS.reminders w) = Some arr)
        (Hr : arr !! i = Some r) :
  exists arr' r',
    RS.map_get key (RS.reminders (snd (RS.checkReminders uuidv4 fuel now w))) = Some arr' /\
    arr' !! i = Some r' /\
    (RS.isDue now r = false -> r' = r) /\
    (r' = r \/ settled r') /\
    sameReminder r r' /\
    (length arr <= length arr')%nat.
Proof.
  destruct (checkReminders_evolves uuidv4 now fuel w key arr i r Harr Hr)
    as (arr' & r' & Harr' & Hr' & Hd).
  exists arr', r'. split; [exact Harr'|]. split; [exact Hr'|].
  split; [|split; [|split]].
  - intros Hnot. destruct Hd as [->|(Hdue & _)]; [reflexivity|congruence].
  - destruct Hd as [->|(_ & Hs & _)]; auto.
  - eapply descends_same; eauto.
  - destruct (Nat.le_gt_cases (length arr) (length arr')) as [Hle|Hgt]; [exact Hle|].
    exfalso. destruct arr as [|x arr0] using rev_ind; [simpl in Hgt; lia|].
    clear IHarr0.
    destruct (checkReminders_evolves uuidv4 now fuel w key (arr0 ++ [x])%list (length arr0) x Harr)
      as (arr2 & r2 & Harr2 & Hr2 & _).
    { rewrite lookup_app_r by lia. now rewrite Nat.sub_diag. }
    assert (arr2 = arr') as -> by congruence.
    apply lookup_lt_Some in Hr2. rewrite length_app in Hgt. simpl in Hgt. lia.
Qed.

Lemma checkReminders_touches_only_due_witness :
  RS.map_get "alice" (RS.reminders oneReminderOnline) = Some [callMom] /\
  RS.isDue 122000 callMom = false /\
  exists arr',
    RS.map_get "alice" (RS.reminders (snd (RS.checkReminders sampleIds 2 122000 oneReminderOnline)))
    = Some arr' /\ arr' !! O = Some callMom.
Proof.
  split; [reflexivity|]. split; [reflexivity|].
  destruct (checkReminders_touches_only_due sampleIds 2 122000 oneReminderOnline
              "alice" [callMom] O callMom eq_refl eq_refl)
    as (arr' & r' & Harr' & Hr' & Hsame & _).
  exists arr'. split; [exact Harr'|]. rewrite Hr'. f_equal. apply Hsame. reflexivity.
Defined.

(** X4. A tick that runs to its end settles every reminder that was due:
    the reminder keeps its place and is marked sent, or 'failed'; from then
    on it is due at no instant, and every later tick, at any instant, leaves
    it exactly as it is.  So the dispatcher attempts a reminder once. *)
Theorem checkReminders_delivers_at_most_once
        (uuidv4 : nat -> string) (fuel : nat) (now : Z) (w : RS.World)
        (key : string) (arr : list RS.Reminder) (i : nat) (r : RS.Reminder)
        (Hkeys : NoDup (map fst (RS.reminders w)))
        (Hfuel : (2 * total (RS.reminders w) < fuel)%nat)
        (Harr : RS.map_get key (RS.reminders w) = Some arr)
        (Hr : arr !! i = Some r)
        (Hdue : RS.isDue now r = true) :
  let w' := snd (RS.checkReminders uuidv4 fuel now w) in
  exists arr' r',
    RS.map_get key (RS.reminders w') = Some arr' /\ arr' !! i = Some r' /\
    sameReminder r r' /\
    (RS.sent r' = true \/ RS.status r' = "failed") /\
    (forall t, RS.isDue t r' = false) /\
    (forall fuel2 t,
       exists arr2,
         RS.map_get key (RS.reminders (snd (RS.checkReminders uuidv4 fuel2 t w'))) = Some arr2 /\
         arr2 !! i = Some r').
Proof.
  intros w'.
  destruct (checkReminders_evolves uuidv4 now fuel w key arr i r Harr Hr)
    as (arr' & r' & Harr' & Hr' & Hd). fold w' in Harr'.
  assert (Hset : settled r').
  { destruct Hd as [->|(_ & Hs & _)]; [|exact Hs]. exfalso.
    pose proof (checkReminders_clears uuidv4 now fuel w Hkeys Hfuel) as Hzero. fold w' in Hzero.
    pose proof (due_in_store now _ _ _ _ _ Harr' Hr' Hdue). lia. }
  exists arr', r'. split; [exact Harr'|]. split; [exact Hr'|].
  split; [eapply descends_same; eauto|]. split; [exact Hset|].
  split; [intros t; now apply settled_not_due|].
  intros fuel2 t.
  destruct (checkReminders_evolves uuidv4 t fuel2 w' key arr' i r' Harr' Hr')
    as (arr2 & r2 & Harr2 & Hr2 & Hd2).
  exists arr2. split; [exact Harr2|].
  destruct Hd2 as [->|(Hdue2 & _)]; [exact Hr2|].
  rewrite (settled_not_due r' t Hset) in Hdue2. discriminate.
Qed.

Lemma checkReminders_delivers_at_most_once_witness :
  RS.isDue 2030 callMom = true /\
  exists arr' r',
    RS.map_get "alice" (RS.reminders (snd (RS.checkReminders sampleIds 4 2030 oneReminderOnline)))
    = Some arr' /\ arr' !! O = Some r' /\ RS.id r' = "id-00" /\
    RS.isDue 2031 r' = false.
Proof.
  split; [reflexivity|].
  destruct (checkReminders_delivers_at_most_once sampleIds 4 2030 oneReminderOnline
              "alice" [callMom] O callMom)
    as (arr' & r' & Harr' & Hr' & Hsame & _ & Hnever & _).
  - vm_compute. repeat constructor; intros H; inversion H.
  - vm_compute. lia.
  - reflexivity.
  - reflexivity.
  - reflexivity.
  - exists arr', r'. split; [exact Harr'|]. split; [exact Hr'|].
    split; [apply Hsame|apply Hnever].
Defined.

(** ** Reminder Dispatcher: ticks with nothing to deliver *)

Section TickIdle.

Variable uuidv4 : nat -> string.
Variable now : Z.

Lemma scanReminders_idle fuel : forall key i cnt w,
  dueIn now (drop i (default [] (RS.map_get key (RS.reminders w)))) = O ->
  (length (default [] (RS.map_get key (RS.reminders w))) - i < fuel)%nat ->
  RS.scanReminders uuidv4 fuel key i now cnt w = (Eff.Return cnt, w).
Proof.
  induction fuel as [|fuel IH]; intros key i cnt w Hzero Hfuel; [lia|].
  cbn [RS.scanReminders]. eff_unfold.
  destruct (default [] (RS.map_get key (RS.reminders w)) !! i) as [r|] eqn:Hr;
    [|reflexivity].
  assert (Hlt : (i < length (default [] (RS.map_get key (RS.reminders w))))%nat)
    by (eapply lookup_lt_Some; eauto).
  rewrite (dueIn_drop now _ _ _ Hr) in Hzero.
  destruct (RS.isDue now r); [simpl in Hzero; lia|].
  apply IH; [simpl in Hzero; exact Hzero|lia].
Qed.

Lemma scanUsers_idle fuel keys : forall cnt w,
  (forall key, dueOf now key (RS.reminders w) = O) ->
  (forall key, (length (default [] (RS.map_get key (RS.reminders w))) < fuel)%nat) ->
  RS.scanUsers uuidv4 fuel keys now cnt w = (Eff.Return cnt, w).
Proof.
  induction keys as [|key keys IH]; intros cnt w Hzero Hfuel; [reflexivity|].
  cbn [RS.scanUsers]. eff_unfold.
  rewrite scanReminders_idle.
  - now apply IH.
  - rewrite drop_0. apply Hzero.
  - specialize (Hfuel key). lia.
Qed.

End TickIdle.

(** X2. A tick at an instant at which no stored reminder is due, given
    more fuel than there are reminders, returns 0 and leaves the whole
    service as it was: the store, the counters and the outbox. *)
Theorem checkReminders_idle
        (uuidv4 : nat -> string) (fuel : nat) (now : Z) (w : RS.World)
        (Hnone : dueTotal now (RS.reminders w) = O)
        (Hfuel : (total (RS.reminders w) < fuel)%nat) :
  RS.checkReminders uuidv4 fuel now w = (Eff.Return (Some 0), w).
Proof.
  unfold RS.checkReminders. eff_unfold. rewrite scanUsers_idle; [reflexivity| |].
  - intros key. unfold dueOf.
    destruct (RS.map_get key (RS.reminders w)) as [arr|] eqn:Harr; [|reflexivity].
    destruct (map_get_le now _ _ _ Harr). simpl. lia.
  - intros key.
    destruct (RS.map_get key (RS.reminders w)) as [arr|] eqn:Harr; simpl; [|lia].
    destruct (map_get_le now _ _ _ Harr). lia.
Qed.

Lemma checkReminders_idle_witness :
  dueTotal 122000 (RS.reminders oneReminderOnline) = O /\
  RS.checkReminders sampleIds 2 122000 oneReminderOnline
  = (Eff.Return (Some 0), oneReminderOnline).
Proof.
  split; [reflexivity|].
  apply (checkReminders_idle sampleIds 2 122000 oneReminderOnline).
  - reflexivity.
  - simpl. lia.
Defined.

(** The keys of the map stay as they are over a tick. *)
Lemma runTicks_evolves_not_due uuidv4 fuel times : forall w key arr i r,
  RS.map_get key (RS.reminders w) = Some arr -> arr !! i = Some r ->
  Forall (fun t => RS.isDue t r = false) times ->
  exists arr',
    RS.map_get key (RS.reminders (runTicks uuidv4 fuel times w)) = Some arr' /\
    arr' !! i = Some r.
Proof.
  induction times as [|t times IH]; intros w key arr i r Harr Hr Hall; simpl.
  - eauto.
  - apply Forall_cons in Hall as [Ht Hall].
    destruct (checkReminders_evolves uuidv4 t fuel w key arr i r Harr Hr)
      as (arr1 & r1 & Harr1 & Hr1 & Hd).
    assert (r1 = r) as -> by (destruct Hd as [->|(Hdue & _)]; [reflexivity|congruence]).
    eapply IH; eauto.
Qed.

(** X5. A reminder is due exactly when it is active, unsent and its dueAt
    is at most 119999 ms back; so a reminder that was not scanned within two
    minutes of its dueAt is never delivered: over any sequence of ticks at
    instants two minutes or more after its dueAt it stays as it is, at its
    place. *)
Theorem missed_reminder_is_never_delivered
        (uuidv4 : nat -> string) (fuel : nat) (times : list Z) (w : RS.World)
        (key : string) (arr : list RS.Reminder) (i : nat) (r : RS.Reminder)
        (Harr : RS.map_get key (RS.reminders w) = Some arr)
        (Hr : arr !! i = Some r)
        (Hlate : Forall (fun t => RS.datetime r + 120000 <= t) times) :
  (forall t, RS.isDue t r = true <->
             RS.status r = "active" /\ RS.sent r = false /\
             RS.datetime r <= t < RS.datetime r + 120000) /\
  exists arr',
    RS.map_get key (RS.reminders (runTicks uuidv4 fuel times w)) = Some arr' /\
    arr' !! i = Some r.
Proof.
  split; [intros t; apply isDue_iff|].
  eapply runTicks_evolves_not_due; eauto.
  eapply Forall_impl; [exact Hlate|]. simpl. intros t Ht.
  destruct (RS.isDue t r) eqn:Hdue; [|reflexivity].
  apply isDue_iff in Hdue. lia.
Qed.

Lemma missed_reminder_is_never_delivered_witness :
  RS.datetime callMom + 120000 <= 122000 /\
  exists arr',
    RS.map_get "alice"
      (RS.reminders (runTicks sampleIds 2 [122000; 182000; 242000] oneReminderOnline))
    = Some arr' /\
    arr' !! O = Some callMom /\ RS.status callMom = "active" /\ RS.sent callMom = false.
Proof.
  split; [simpl; lia|].
  destruct (missed_reminder_is_never_delivered sampleIds 2 [122000; 182000; 242000]
              oneReminderOnline "alice" [callMom] O callMom eq_refl eq_refl)
    as (_ & arr' & Harr' & Hr').
  - repeat constructor; simpl; lia.
  - exists arr'. repeat split; auto.
Defined.

Lemma checkReminders_returns_witness :
  NoDup (map fst (RS.reminders threeDue)) /\
  exists w',
    RS.checkReminders sampleIds 7 2030 threeDue = (Eff.Return (Some 3), w') /\
    dueTotal 2030 (RS.reminders w') = O.
Proof.
  assert (Hkeys : NoDup (map fst (RS.reminders threeDue))).
  { vm_compute. repeat constructor; intros H; inversion H. }
  split; [exact Hkeys|].
  destruct (checkReminders_returns sampleIds 2030 7 threeDue Hkeys) as (w' & Hrun & Hzero).
  - vm_compute. lia.
  - exists w'. split; [exact Hrun|exact Hzero].
Defined.

(** ** Reminder Store: reschedule *)

(** X26. An update that patches the dueAt only, to an instant not before
    now, succeeds: the reminder found is replaced at its place by itself
    with the new dueAt and the update time, status and sent flag as they
    were, and nothing else is touched or sent.  The reminder is then due
    exactly when it is active, unsent and now is in the two minutes from
    the new dueAt; so a reminder that was delivered, had failed or was
    cancelled is not revived: whatever ticks follow, it stays as it is. *)
Theorem reschedule_does_not_revive
        (uuidv4 : nat -> string) (fuel : nat) (times : list Z)
        (phone reminderId : string) (t now : Z) (w : RS.World)
        (arr : list RS.Reminder) (i : nat) (r : RS.Reminder)
        (Harr : RS.map_get phone (RS.reminders w) = Some arr)
        (Hfind : RS.findIndex reminderId arr = Some i)
        (Hr : arr !! i = Some r)
        (Hnow : now <= t) :
  let r' := rescheduled t now r in
  exists w1,
    RS.updateReminder phone reminderId (reschedule t) now w = (Eff.Return r', w1) /\
    RS.map_get phone (RS.reminders w1) = Some (<[i := r']> arr) /\
    (forall key, key <> phone ->
       RS.map_get key (RS.reminders w1) = RS.map_get key (RS.reminders w)) /\
    RS.outbox w1 = RS.outbox w /\
    (forall x, RS.isDue x r' = true <->
               RS.status r = "active" /\ RS.sent r = false /\ t <= x < t + 120000) /\
    (RS.status r <> "active" \/ RS.sent r = true ->
     exists arr',
       RS.map_get phone (RS.reminders (runTicks uuidv4 fuel times w1)) = Some arr' /\
       arr' !! i = Some r').
Proof.
  intros r'.
  assert (Hrun : RS.updateReminder phone reminderId (reschedule t) now w
                 = (Eff.Return r',
                    RS.set_reminders (RS.map_set phone (<[i := r']> arr) (RS.reminders w)) w)).
  { unfold RS.updateReminder. eff_unfold. rewrite Harr. simpl. rewrite Hfind, Hr. simpl.
    unfold Moment.isBefore. assert (Hb : (t <? now) = false) by lia. rewrite Hb. simpl.
    rewrite (assign_Some phone i _ w arr r Harr Hr). reflexivity. }
  eexists. split; [exact Hrun|].
  assert (Hget : RS.map_get phone
                   (RS.reminders
                      (RS.set_reminders (RS.map_set phone (<[i := r']> arr) (RS.reminders w)) w))
                 = Some (<[i := r']> arr)) by apply map_get_set_eq.
  split; [exact Hget|].
  split; [intros key Hne; simpl; now rewrite map_get_set_ne by congruence|].
  split; [reflexivity|].
  split; [intros x; apply (isDue_iff x r')|].
  intros Hdead.
  eapply runTicks_evolves_not_due; [exact Hget| |].
  - apply list_lookup_insert_eq. eapply lookup_lt_Some; eauto.
  - apply Forall_forall. intros x _.
    destruct (RS.isDue x r') eqn:Hdue; [|reflexivity].
    apply isDue_iff in Hdue. simpl in Hdue. destruct Hdue as (Hact & Hsent & _).
    destruct Hdead as [Hna|Hs]; congruence.
Qed.

Lemma reschedule_does_not_revive_witness :
  3000 <= 5000 /\
  exists arr',
    RS.map_get "alice"
      (RS.reminders
         (runTicks sampleIds 3 [5000; 5030]
            (snd (RS.updateReminder "alice" "id-00" (reschedule 5000) 3000
                    (snd (RS.cancelReminder "alice" "id-00" oneReminderOnline))))))
    = Some arr' /\
    arr' !! O = Some (rescheduled 5000 3000 (RS.set_status "cancelled" callMom)).
Proof.
  split; [lia|].
  destruct (reschedule_does_not_revive sampleIds 3 [5000; 5030] "alice" "id-00" 5000 3000
              (snd (RS.cancelReminder "alice" "id-00" oneReminderOnline))
              [RS.set_status "cancelled" callMom] O (RS.set_status "cancelled" callMom))
    as (w1 & Hrun & _ & _ & _ & _ & Hticks).
  - reflexivity.
  - reflexivity.
  - reflexivity.
  - lia.
  - rewrite Hrun. simpl snd. apply Hticks. left. discriminate.
Defined.

(** The guard of the validation is [if (updates.datetime)]: a patch whose
    datetime is the number 0 is not validated, and is written.  The epoch
    is before every later "now", and the update succeeds. *)
Lemma updateReminder_zero_is_not_validated
      (phone reminderId : string) (now : Z) (w : RS.World)
      (arr : list RS.Reminder) (i : nat) (r : RS.Reminder)
      (Harr : RS.map_get phone (RS.reminders w) = Some arr)
      (Hfind : RS.findIndex reminderId arr = Some i)
      (Hr : arr !! i = Some r) :
  let patch :=
    RS.mkUpdates None None None (Some RS.Zero) None None None None None None None None
      None None in
  exists r' w',
    RS.updateReminder phone reminderId patch now w = (Eff.Return r', w') /\
    RS.datetime r' = 0 /\ RS.status r' = RS.status r /\
    RS.map_get phone (RS.reminders w') = Some (<[i := r']> arr).
Proof.
  intros patch. unfold RS.updateReminder. eff_unfold.
  rewrite Harr. simpl. rewrite Hfind, Hr. simpl.
  rewrite (assign_Some phone i _ w arr r Harr Hr).
  eexists _, _. split; [reflexivity|]. split; [reflexivity|]. split; [reflexivity|].
  apply map_get_set_eq.
Qed.

(** ** Reminder Dispatcher: the messages of a tick *)

Section TickOutbox.

Variable uuidv4 : nat -> string.
Variable now : Z.

Lemma scheduleNextRecurrence_keeps_outbox ref t w :
  let w1 := snd (RS.scheduleNextRecurrence uuidv4 ref t w) in
  RS.outbox w1 = RS.outbox w /\ RS.whatsappService w1 = RS.whatsappService w.
Proof.
  unfold RS.scheduleNextRecurrence. eff_unfold.
  destruct (RS.deref ref w) as [r|]; [|split; reflexivity].
  rewrite nextTime_switch.
  destruct (RS.recurrence_type r) as [unit|]; [|split; reflexivity].
  destruct (advance unit (RS.datetime r)) as [next|]; [|split; reflexivity].
  unfold RS.uuid. simpl.
  destruct (RS.map_get (RS.phone r) (RS.reminders w)) as [arr_p|] eqn:Hp; simpl;
    [|split; reflexivity].
  unfold RS.push. simpl. rewrite Hp. split; reflexivity.
Qed.

Lemma assign_keeps_outbox ref f w :
  RS.outbox (RS.assign ref f w) = RS.outbox w /\
  RS.whatsappService (RS.assign ref f w) = RS.whatsappService w.
Proof.
  unfold RS.assign. destruct (RS.map_get ref.1 (RS.reminders w)) as [arr|]; [|auto].
  destruct (arr !! ref.2); auto.
Qed.

(** A delivery sends one message at most, and exactly one when the
    Notifier accepts it. *)
Lemma sendReminder_outbox key i w arr r :
  RS.map_get key (RS.reminders w) = Some arr -> arr !! i = Some r ->
  let w1 := snd (RS.sendReminder uuidv4 (key, i) now w) in
  RS.whatsappService w1 = RS.whatsappService w /\
  exists sent,
    RS.outbox w1 = (RS.outbox w ++ sent)%list /\ (length sent <= 1)%nat /\
    (accepting (RS.whatsappService w) -> length sent = 1%nat) /\
    (RS.whatsappService w = None -> sent = []).
Proof.
  intros Harr Hr. unfold RS.sendReminder. eff_unfold.
  destruct (RS.whatsappService w) as [send|] eqn:Hsvc.
  2:{ simpl. destruct (assign_keeps_outbox (key, i)
         (fun r0 => RS.set_error (Some "WhatsApp service not available")
                      (RS.set_status "failed" r0)) w) as [Ho Hs].
      rewrite Ho, Hs. split; [exact Hsvc|]. exists []. rewrite app_nil_r.
      split; [reflexivity|]. split; [simpl; lia|].
      split; [intros (send & Hsome & _); discriminate|reflexivity]. }
  rewrite (deref_Some key i w arr r Harr Hr). unfold RS.sendMessage.
  destruct (send (RS.sendCalls w) (RS.phone r) (RS.reminderMessage r)) as [msg|] eqn:Hsend.
  { set (w0 := RS.mkWorld _ _ _ _ _).
    destruct (assign_keeps_outbox (key, i)
         (fun r0 => RS.set_error (Some msg) (RS.set_status "failed" r0)) w0) as [Ho Hs].
    simpl. rewrite Ho, Hs. split; [exact Hsvc|]. exists []. rewrite app_nil_r.
    split; [reflexivity|]. split; [simpl; lia|].
    split; [|discriminate].
    intros (send' & [= <-] & Hacc). rewrite Hacc in Hsend. discriminate. }
  set (w0 := RS.mkWorld _ _ _ _ _).
  set (w2 := RS.assign (key, i) _ w0).
  assert (H2 : RS.outbox w2 = (RS.outbox w ++ [(RS.phone r, RS.reminderMessage r)])%list /\
               RS.whatsappService w2 = RS.whatsappService w).
  { subst w2. destruct (assign_keeps_outbox (key, i)
         (fun r0 => RS.set_sent_at (Some now) (RS.set_sent true r0)) w0) as [Ho Hs].
    rewrite Ho, Hs. split; reflexivity. }
  destruct H2 as [Ho2 Hs2].
  assert (Hdone : forall w3,
    RS.outbox w3 = RS.outbox w2 -> RS.whatsappService w3 = RS.whatsappService w2 ->
    RS.whatsappService w3 = Some send /\
    exists sent,
      RS.outbox w3 = (RS.outbox w ++ sent)%list /\ (length sent <= 1)%nat /\
      (accepting (Some send) -> length sent = 1%nat) /\ (Some send = None -> sent = [])).
  { intros w3 Ho3 Hs3. rewrite Hs3, Hs2, Hsvc. split; [reflexivity|].
    exists [(RS.phone r, RS.reminderMessage r)]. rewrite Ho3, Ho2.
    split; [reflexivity|]. split; [simpl; lia|]. split; [reflexivity|discriminate]. }
  destruct (RS.recurring r && RS.truthy (RS.recurrence_type r)).
  - destruct (scheduleNextRecurrence_evolves uuidv4 now (key, i) now w2) as (w3 & Hrun & _).
    pose proof (scheduleNextRecurrence_keeps_outbox (key, i) now w2) as [Ho3 Hs3].
    rewrite Hrun in *. simpl in *. now apply Hdone.
  - simpl. destruct (assign_keeps_outbox (key, i) (RS.set_status "sent") w2) as [Ho3 Hs3].
    now apply Hdone.
Qed.

Lemma sentSince_refl w : sentSince now w w [].
Proof.
  unfold sentSince. rewrite app_nil_r. repeat split; simpl; auto.
Qed.

Lemma checkReminders_sentSince fuel w :
  exists sent, sentSince now w (snd (RS.checkReminders uuidv4 fuel now w)) sent.
Proof.
  apply (checkReminders_invariant uuidv4 now (fun w' => exists sent, sentSince now w w' sent)).
  - intros key i w0 arr r Harr Hr Hdue (sent & Hsvc & Hout & Hle & Hacc & Hnone).
    destruct (sendReminder_due_step uuidv4 now key i w0 arr r Harr Hr Hdue)
      as (w1 & r' & extra & Hrun & _ & _ & _ & _ & Hdt & _).
    destruct (sendReminder_outbox key i w0 arr r Harr Hr) as (Hsvc1 & more & Hout1 & Hlen1 & Hacc1 & Hnone1).
    rewrite Hrun in *. simpl in *.
    exists (sent ++ more)%list. unfold sentSince.
    split; [congruence|]. split; [rewrite Hout1, Hout; now rewrite app_assoc|].
    rewrite length_app. split; [lia|]. split.
    + intros Ha. specialize (Hacc Ha). rewrite Hsvc in Hacc1. specialize (Hacc1 Ha). lia.
    + intros Hn. rewrite Hsvc in Hnone1. rewrite (Hnone Hn), (Hnone1 Hn). reflexivity.
  - exists []. apply sentSince_refl.
Qed.

End TickOutbox.

(** X6. A tick over a map with distinct keys that runs to its end returns
    the number of reminders that were due.  The messages it sends are
    appended to the outbox, and they are never more than that count: as many
    when a Notifier is set and accepts every message, none when no Notifier
    is set. *)
Theorem checkReminders_count_bounds_messages
        (uuidv4 : nat -> string) (fuel : nat) (now : Z) (w : RS.World)
        (Hkeys : NoDup (map fst (RS.reminders w)))
        (Hfuel : (2 * total (RS.reminders w) < fuel)%nat) :
  exists count w' sent,
    RS.checkReminders uuidv4 fuel now w = (Eff.Return (Some (Z.of_nat count)), w') /\
    count = dueTotal now (RS.reminders w) /\
    RS.outbox w' = (RS.outbox w ++ sent)%list /\
    (length sent <= count)%nat /\
    (accepting (RS.whatsappService w) -> length sent = count) /\
    (RS.whatsappService w = None -> sent = []).
Proof.
  destruct (checkReminders_sentSince uuidv4 now fuel w)
    as (sent & Hsvc & Hout & Hle & Hacc & Hnone).
  pose proof (checkReminders_clears uuidv4 now fuel w Hkeys Hfuel) as Hzero.
  assert (Hrun : exists w', RS.checkReminders uuidv4 fuel now w
                 = (Eff.Return (Some (Z.of_nat (dueTotal now (RS.reminders w)))), w')).
  { unfold RS.checkReminders. eff_unfold.
    destruct (scanUsers_returns uuidv4 now fuel (map fst (RS.reminders w)) 0 w)
      as (n & w' & Hscan & Hn & _ & [Hk _] & Hz).
    { pose proof (dueTotal_le_total now (RS.reminders w)). lia. }
    rewrite Hscan. exists w'. simpl. repeat f_equal.
    assert (dueTotal now (RS.reminders w') = O)
      by (apply dueTotal_zero; rewrite Hk; [exact Hz|exact Hkeys]). lia. }
  destruct Hrun as [w' Hrun]. rewrite Hrun in *. simpl in *.
  exists (dueTotal now (RS.reminders w)), w', sent.
  split; [reflexivity|]. split; [reflexivity|]. split; [exact Hout|].
  split; [lia|]. split; [|exact Hnone].
  intros Ha. specialize (Hacc Ha). lia.
Qed.

Lemma checkReminders_count_bounds_messages_witness :
  exists w' sent,
    RS.checkReminders sampleIds 7 2030 threeDue = (Eff.Return (Some 3), w') /\
    RS.outbox w' = (RS.outbox threeDue ++ sent)%list /\ (length sent <= 3)%nat.
Proof.
  destruct (checkReminders_count_bounds_messages sampleIds 7 2030 threeDue)
    as (count & w' & sent & Hrun & Hcount & Hout & Hle & _).
  - vm_compute. repeat constructor; intros H; inversion H.
  - vm_compute. lia.
  - exists w', sent. subst count. split; [exact Hrun|]. split; [exact Hout|exact Hle].
Defined.

(** ** Reminder Store: the ids *)

Lemma tally_inj n m : tally n = tally m -> n = m.
Proof.
  revert m. induction n as [|n IH]; intros [|m]; simpl; intros H.
  - reflexivity.
  - destruct m; discriminate.
  - destruct n; discriminate.
  - f_equal. apply IH. now injection H.
Qed.

Section Ids.

Variable uuidv4 : nat -> string.
Hypothesis uuidv4_inj : forall n n', uuidv4 n = uuidv4 n' -> n = n'.

Implicit Types (m : list (string * list RS.Reminder)) (w : RS.World).

Lemma allIds_app m1 m2 : allIds (m1 ++ m2) = (allIds m1 ++ allIds m2)%list.
Proof. unfold allIds. now rewrite map_app, concat_app. Qed.

Lemma allIds_cons key arr m :
  allIds ((key, arr) :: m) = (map RS.id arr ++ allIds m)%list.
Proof. reflexivity. Qed.

(** The entry of a key that is there splits the map. *)
Lemma map_get_split m key old :
  RS.map_get key m = Some old ->
  exists m1 m2,
    m = (m1 ++ (key, old) :: m2)%list /\
    forall v, RS.map_set key v m = (m1 ++ (key, v) :: m2)%list.
Proof.
  induction m as [|[k arr] m IH]; simpl; [discriminate|].
  destruct (String.eqb_spec k key) as [->|Hne].
  - intros [= ->]. exists [], m. split; [reflexivity|]. intros v. reflexivity.
  - intros H. destruct (IH H) as (m1 & m2 & -> & Hset).
    exists ((k, arr) :: m1), m2. split; [reflexivity|]. intros v. simpl. now rewrite Hset.
Qed.

Lemma map_get_None_set m key v :
  RS.map_get key m = None ->
  RS.map_set key v m = (m ++ [(key, v)])%list /\ ~ In key (map fst m).
Proof.
  induction m as [|[k arr] m IH]; simpl; [auto|].
  destruct (String.eqb_spec k key) as [->|Hne]; [discriminate|].
  intros H. destruct (IH H) as [-> Hnotin]. split; [reflexivity|]. intros [Hk|Hin]; auto.
Qed.

Lemma NoDup_replace_mid {A} (l1 mid mid' l2 : list A) :
  NoDup (l1 ++ mid ++ l2) -> NoDup mid' -> (forall x, x ∈ mid' -> x ∈ mid) ->
  NoDup (l1 ++ mid' ++ l2).
Proof.
  rewrite !NoDup_app. intros (H1 & Hd1 & Hmid & Hd2 & H2) Hmid' Hsub.
  split; [exact H1|]. split.
  - intros x Hx Hin. apply (Hd1 x Hx). rewrite !elem_of_app in *.
    destruct Hin as [Hin|Hin]; auto.
  - split; [exact Hmid'|]. split; [|exact H2]. intros x Hx. apply Hd2. auto.
Qed.

(** Replacing an array by one whose ids are distinct and were there. *)
Lemma idsIssued_replace w w' key old v :
  idsIssued uuidv4 w ->
  RS.map_get key (RS.reminders w) = Some old ->
  RS.reminders w' = RS.map_set key v (RS.reminders w) ->
  (RS.uuidCalls w <= RS.uuidCalls w')%nat ->
  NoDup (map RS.id v) -> (forall x, In x (map RS.id v) -> In x (map RS.id old)) ->
  idsIssued uuidv4 w'.
Proof.
  intros (Hkeys & Hids & Hissued) Hget Hw' Hcalls Hv Hsub.
  destruct (map_get_split _ _ _ Hget) as (m1 & m2 & Hm & Hset).
  unfold idsIssued. rewrite Hw', Hset. rewrite Hm in Hkeys, Hids, Hissued.
  rewrite !allIds_app, !allIds_cons in *.
  split; [|split].
  - rewrite map_app in *. exact Hkeys.
  - eapply NoDup_replace_mid; [exact Hids|exact Hv|].
    intros x Hx. apply list_elem_of_In. apply Hsub. now apply list_elem_of_In.
  - intros x Hx. destruct (Hissued x) as (n & Hn & ->); [|exists n; split; [lia|reflexivity]].
    rewrite !in_app_iff in *. destruct Hx as [Hx|[Hx|Hx]]; auto.
Qed.

(** Changing the fields that are not the map, the counter of ids growing. *)
Lemma idsIssued_fields w w' :
  idsIssued uuidv4 w -> RS.reminders w' = RS.reminders w ->
  (RS.uuidCalls w <= RS.uuidCalls w')%nat -> idsIssued uuidv4 w'.
Proof.
  intros (Hkeys & Hids & Hissued) Hw' Hcalls. unfold idsIssued. rewrite Hw'.
  split; [exact Hkeys|]. split; [exact Hids|].
  intros x Hx. destruct (Hissued x Hx) as (n & Hn & ->). exists n. split; [lia|reflexivity].
Qed.

(** Pushing a reminder whose id is the next one. *)
Lemma idsIssued_push w w' key x :
  idsIssued uuidv4 w ->
  RS.reminders w'
  = RS.map_set key (default [] (RS.map_get key (RS.reminders w)) ++ [x]) (RS.reminders w) ->
  RS.id x = uuidv4 (RS.uuidCalls w) -> (RS.uuidCalls w < RS.uuidCalls w')%nat ->
  idsIssued uuidv4 w'.
Proof.
  intros (Hkeys & Hids & Hissued) Hw' Hid Hcalls.
  assert (Hfresh : ~ In (RS.id x) (allIds (RS.reminders w))).
  { intros Hin. destruct (Hissued _ Hin) as (n & Hn & Heq). rewrite Hid in Heq.
    apply uuidv4_inj in Heq. lia. }
  unfold idsIssued. rewrite Hw'.
  destruct (RS.map_get key (RS.reminders w)) as [old|] eqn:Hget; simpl.
  - destruct (map_get_split _ _ _ Hget) as (m1 & m2 & Hm & Hset). rewrite Hset.
    rewrite Hm in Hkeys, Hids, Hissued, Hfresh.
    rewrite !allIds_app, !allIds_cons in *.
    rewrite !map_app in *. simpl in *.
    split; [|split].
    + exact Hkeys.
    + rewrite <- !app_assoc. simpl.
      apply NoDup_app in Hids as (H1 & Hd1 & Hrest).
      apply NoDup_app in Hrest as (Hold & Hd2 & H2).
      rewrite !in_app_iff in Hfresh.
      apply NoDup_app. split; [exact H1|]. split.
      { intros y Hy Hin. rewrite !elem_of_app in Hin.
        destruct Hin as [Hin|Hin].
        - apply (Hd1 y Hy). rewrite elem_of_app. auto.
        - apply elem_of_cons in Hin as [->|Hin].
          + apply Hfresh. left. now apply list_elem_of_In.
          + apply (Hd1 y Hy). rewrite elem_of_app. auto. }
      apply NoDup_app. split; [exact Hold|]. split.
      { intros y Hy Hin. apply elem_of_cons in Hin as [->|Hin].
        - apply Hfresh. right. left. now apply list_elem_of_In.
        - now apply (Hd2 y Hy). }
      apply NoDup_cons. split; [|exact H2].
      intros Hin. apply Hfresh. right. right. now apply list_elem_of_In.
    + intros y Hy. rewrite <- !app_assoc in Hy. simpl in Hy.
      rewrite !in_app_iff in Hy. simpl in Hy.
      assert (Hcase : y = RS.id x \/ In y (allIds m1 ++ (map RS.id old ++ allIds m2))).
      { rewrite !in_app_iff. destruct Hy as [Hy|[Hy|[Hy|Hy]]]; auto. }
      destruct Hcase as [->|Hin].
      * exists (RS.uuidCalls w). split; [lia|exact Hid].
      * destruct (Hissued y Hin) as (n & Hn & ->). exists n. split; [lia|reflexivity].
  - destruct (map_get_None_set _ _ [x] Hget) as [-> Hnotin].
    rewrite allIds_app, map_app, allIds_cons. simpl.
    split; [|split].
    + apply NoDup_app. split; [exact Hkeys|]. split; [|apply NoDup_singleton].
      intros y Hy Hin. apply list_elem_of_singleton in Hin as ->.
      apply Hnotin. now apply list_elem_of_In.
    + apply NoDup_app. split; [exact Hids|]. split; [|apply NoDup_singleton].
      intros y Hy Hin. apply list_elem_of_singleton in Hin as ->.
      apply Hfresh. now apply list_elem_of_In.
    + intros y Hy. rewrite in_app_iff in Hy. simpl in Hy.
      destruct Hy as [Hy|[<-|[]]].
      * destruct (Hissued y Hy) as (n & Hn & ->). exists n. split; [lia|reflexivity].
      * exists (RS.uuidCalls w). split; [lia|exact Hid].
Qed.

Lemma idsIssued_assign w ref f :
  idsIssued uuidv4 w -> (forall r, RS.id (f r) = RS.id r) ->
  idsIssued uuidv4 (RS.assign ref f w).
Proof.
  intros Hw Hf. unfold RS.assign.
  destruct (RS.map_get ref.1 (RS.reminders w)) as [arr|] eqn:Harr; [|exact Hw].
  destruct (arr !! ref.2) as [r|] eqn:Hr; [|exact Hw].
  assert (Hmap : map RS.id (<[ref.2 := f r]> arr) = map RS.id arr).
  { change (map RS.id) with (fmap (M := list) RS.id).
    rewrite list_fmap_insert, Hf. apply list_insert_id. now rewrite list_lookup_fmap, Hr. }
  eapply (idsIssued_replace w _ ref.1 arr (<[ref.2 := f r]> arr)); eauto.
  - rewrite Hmap. destruct Hw as (Hkeys & Hids & _).
    destruct (map_get_split _ _ _ Harr) as (m1 & m2 & Hm & _). rewrite Hm in Hids.
    rewrite allIds_app, allIds_cons in Hids.
    apply NoDup_app in Hids as (_ & _ & Hids). now apply NoDup_app in Hids as (Hids & _).
  - now rewrite Hmap.
Qed.

Lemma NoDup_ids_of w key arr :
  idsIssued uuidv4 w -> RS.map_get key (RS.reminders w) = Some arr ->
  NoDup (map RS.id arr).
Proof.
  intros (_ & Hids & _) Harr.
  destruct (map_get_split _ _ _ Harr) as (m1 & m2 & Hm & _). rewrite Hm in Hids.
  rewrite allIds_app, allIds_cons in Hids.
  apply NoDup_app in Hids as (_ & _ & Hids). now apply NoDup_app in Hids as (Hids & _).
Qed.

Lemma idsIssued_schedule w ref t :
  idsIssued uuidv4 w -> idsIssued uuidv4 (snd (RS.scheduleNextRecurrence uuidv4 ref t w)).
Proof.
  intros Hw. unfold RS.scheduleNextRecurrence. eff_unfold.
  destruct (RS.deref ref w) as [r|]; [|exact Hw].
  rewrite nextTime_switch.
  destruct (RS.recurrence_type r) as [unit|]; [|exact Hw].
  destruct (advance unit (RS.datetime r)) as [next|]; [|exact Hw].
  unfold RS.uuid. simpl.
  destruct (RS.map_get (RS.phone r) (RS.reminders w)) as [arr_p|] eqn:Hp; simpl.
  - unfold RS.push. simpl. rewrite Hp.
    eapply (idsIssued_push w _ (RS.phone r)); [exact Hw| | |].
    + simpl. rewrite Hp. reflexivity.
    + reflexivity.
    + simpl. lia.
  - eapply idsIssued_fields; [exact Hw|reflexivity|simpl; lia].
Qed.

Lemma idsIssued_sendReminder w ref now :
  idsIssued uuidv4 w -> idsIssued uuidv4 (snd (RS.sendReminder uuidv4 ref now w)).
Proof.
  intros Hw. unfold RS.sendReminder. eff_unfold.
  destruct (RS.whatsappService w) as [send|]; [|now apply idsIssued_assign].
  destruct (RS.deref ref w) as [r|]; [|exact Hw].
  unfold RS.sendMessage.
  destruct (send (RS.sendCalls w) (RS.phone r) (RS.reminderMessage r)) as [msg|].
  { simpl. apply idsIssued_assign; [|reflexivity].
    eapply idsIssued_fields; [exact Hw|reflexivity|simpl; lia]. }
  set (w0 := RS.mkWorld _ _ _ _ _).
  assert (Hw0 : idsIssued uuidv4 w0)
    by (eapply idsIssued_fields; [exact Hw|reflexivity|simpl; lia]).
  set (w2 := RS.assign ref _ w0).
  assert (Hw2 : idsIssued uuidv4 w2) by (apply idsIssued_assign; [exact Hw0|reflexivity]).
  destruct (RS.recurring r && RS.truthy (RS.recurrence_type r)).
  - pose proof (idsIssued_schedule w2 ref now Hw2) as H3.
    destruct (scheduleNextRecurrence_evolves uuidv4 now ref now w2) as (w3 & Hrun & _).
    rewrite Hrun in *. exact H3.
  - simpl. apply idsIssued_assign; [exact Hw2|reflexivity].
Qed.

Lemma allIds_cleanedMap_sublist cutoff m : sublist (allIds (cleanedMap cutoff m)) (allIds m).
Proof.
  induction m as [|[k arr] m IH]; [constructor|].
  unfold allIds in *. simpl. apply sublist_app; [|exact IH].
  change (map RS.id) with (fmap (M := list) RS.id). apply fmap_sublist.
  unfold cleaned. apply sublist_filter.
Qed.

End Ids.

(** X7. With a [uuidv4] that never repeats, the distinctness of the ids is
    an invariant of the store: it holds of the new service, and once the
    keys of the map and the ids of all the reminders are distinct and were
    issued by [uuidv4], they remain so after a create, a listing, a cancel,
    an update that does not patch the id, a tick and a cleanup, whatever
    their outcome.  In particular the ids under one recipient are distinct. *)
Theorem ids_stay_distinct
        (uuidv4 : nat -> string) (w : RS.World)
        (Hinj : forall n n', uuidv4 n = uuidv4 n' -> n = n')
        (Hw : idsIssued uuidv4 w) :
  idsIssued uuidv4 RS.constructor /\
  (forall phone arr, RS.map_get phone (RS.reminders w) = Some arr -> NoDup (map RS.id arr)) /\
  (forall phone text dueAt options now,
     idsIssued uuidv4 (snd (RS.setReminder uuidv4 phone text dueAt options now w))) /\
  (forall phone options, idsIssued uuidv4 (snd (RS.getUserReminders phone options w))) /\
  (forall phone reminderId,
     idsIssued uuidv4 (snd (RS.cancelReminder phone reminderId w))) /\
  (forall phone reminderId updates now,
     RS.upd_id updates = None ->
     idsIssued uuidv4 (snd (RS.updateReminder phone reminderId updates now w))) /\
  (forall fuel now, idsIssued uuidv4 (snd (RS.checkReminders uuidv4 fuel now w))) /\
  (forall daysOld now, idsIssued uuidv4 (snd (RS.cleanupOldReminders daysOld now w))).
Proof.
  split; [|split; [|split; [|split; [|split; [|split; [|split]]]]]].
  - unfold idsIssued. simpl. repeat split; try constructor. intros x [].
  - intros phone arr Harr. eapply NoDup_ids_of; eauto.
  - intros phone text dueAt options now.
    destruct dueAt as [t|]; [|exact Hw].
    destruct (Z_lt_le_dec t now) as [Hlt|Hle].
    + unfold RS.setReminder, Moment.isBefore. eff_unfold.
      assert (Hb : (t <? now) = true) by lia. rewrite Hb. exact Hw.
    + rewrite (setReminder_store uuidv4 phone text t options now w Hle). simpl.
      eapply (idsIssued_push uuidv4 Hinj w _ phone); [exact Hw|reflexivity|reflexivity|].
      simpl. lia.
  - intros phone options. rewrite getUserReminders_run. simpl.
    destruct (RS.opt_status options =? "all")%string; [|exact Hw].
    destruct (RS.map_get phone (RS.reminders w)) as [arr|] eqn:Harr.
    + eapply (idsIssued_replace uuidv4 w _ phone arr); [exact Hw|exact Harr|reflexivity|simpl; lia| |].
      * simpl.
        apply (proj2 (NoDup_Permutation_proper _ _
                        (Permutation_map RS.id (sortBy_Permutation (sortKey options) arr)))).
        eapply NoDup_ids_of; eauto.
      * intros x Hx. eapply Permutation_in; [|exact Hx].
        apply Permutation_map. apply sortBy_Permutation.
    + rewrite set_reminders_same. exact Hw.
  - intros phone reminderId.
    destruct (RS.cancelReminder phone reminderId w) as [[r|msg|] w1] eqn:Hrun; simpl.
    + destruct (cancelReminder_inv _ _ _ _ _ Hrun) as (arr & i & r0 & Harr & _ & Hr0 & _ & -> & ->).
      pose proof (idsIssued_assign uuidv4 w (phone, i) (RS.set_status "cancelled") Hw
                    (fun _ => eq_refl)) as Ha.
      unfold RS.assign in Ha. simpl in Ha. rewrite Harr, Hr0 in Ha. exact Ha.
    + revert Hrun. unfold RS.cancelReminder. eff_unfold.
      destruct (RS.findIndex reminderId (default [] (RS.map_get phone (RS.reminders w))))
        as [i|] eqn:Hfind; simpl.
      * destruct (findIndex_lookup _ _ _ Hfind) as (r0 & -> & _). simpl. discriminate.
      * intros [= _ <-]. exact Hw.
    + revert Hrun. unfold RS.cancelReminder. eff_unfold.
      destruct (RS.findIndex reminderId (default [] (RS.map_get phone (RS.reminders w))))
        as [i|] eqn:Hfind; simpl.
      * destruct (findIndex_lookup _ _ _ Hfind) as (r0 & -> & _). simpl. discriminate.
      * discriminate.
  - intros phone reminderId updates now Hnoid.
    unfold RS.updateReminder. eff_unfold.
    destruct (RS.findIndex reminderId (default [] (RS.map_get phone (RS.reminders w))))
      as [i|] eqn:Hfind; simpl; [|exact Hw].
    destruct (findIndex_lookup _ _ _ Hfind) as (r0 & Hr0 & _). rewrite Hr0. simpl.
    assert (Hstep : idsIssued uuidv4
              (RS.assign (phone, i)
                 (fun _ => RS.set_updated_at (Some now) (RS.objectAssign updates r0)) w)).
    { destruct (RS.map_get phone (RS.reminders w)) as [arr|] eqn:Harr;
        [simpl in Hr0|simpl in Hr0; discriminate].
      rewrite (assign_Some phone i _ w arr r0 Harr Hr0).
      assert (Hmap : map RS.id (<[i := RS.set_updated_at (Some now) (RS.objectAssign updates r0)]> arr)
                     = map RS.id arr).
      { change (map RS.id) with (fmap (M := list) RS.id).
        rewrite list_fmap_insert. simpl. rewrite Hnoid. simpl.
        apply list_insert_id. now rewrite list_lookup_fmap, Hr0. }
      eapply (idsIssued_replace uuidv4 w _ phone arr); [exact Hw|exact Harr|reflexivity|simpl; lia| |].
      - rewrite Hmap. eapply NoDup_ids_of; eauto.
      - now rewrite Hmap. }
    destruct (RS.upd_datetime updates) as [[[t|]|]|]; simpl;
      [|exact Hw|exact Hstep|exact Hstep].
    destruct (Moment.isBefore t now); simpl; [exact Hw|exact Hstep].
  - intros fuel now.
    apply (checkReminders_invariant uuidv4 now (idsIssued uuidv4)); [|exact Hw].
    intros key i w0 arr r _ _ _ Hw0. now apply idsIssued_sendReminder.
  - intros daysOld now. unfold RS.cleanupOldReminders. eff_unfold.
    destruct Hw as (Hkeys & Hids & Hissued).
    rewrite (cleanupEntries_run _ (RS.reminders w) [] 0 w eq_refl Hkeys). simpl.
    unfold idsIssued. simpl. rewrite cleanedMap_keys.
    split; [exact Hkeys|]. split.
    + eapply sublist_NoDup; [exact Hids|apply allIds_cleanedMap_sublist].
    + intros x Hx. apply Hissued. apply list_elem_of_In.
      eapply elem_of_sublist; [apply list_elem_of_In; exact Hx|apply allIds_cleanedMap_sublist].
Qed.

Lemma ids_stay_distinct_witness :
  idsIssued tally RS.constructor /\
  idsIssued tally
    (snd (RS.checkReminders tally 3 2030
            (snd (RS.setReminder tally "alice" "call mom" (Some 2000)
                    RS.defaultSetOptions 1000 RS.constructor)))).
Proof.
  assert (H0 : idsIssued tally RS.constructor).
  { unfold idsIssued. simpl. repeat split; try constructor. intros x []. }
  split; [exact H0|].
  destruct (ids_stay_distinct tally RS.constructor tally_inj H0)
    as (_ & _ & Hset & _).
  destruct (ids_stay_distinct tally _ tally_inj
              (Hset "alice" "call mom" (Some 2000) RS.defaultSetOptions 1000))
    as (_ & _ & _ & _ & _ & _ & Htick & _).
  apply Htick.
Defined.

(** ** TimeExpression Parser: the relative forms *)

Lemma parseDigits_nonneg s acc : 0 <= acc -> 0 <= Text.parseDigits s acc.
Proof.
  revert acc. induction s as [|a s IH]; intros acc Hacc; simpl; [exact Hacc|].
  apply IH. lia.
Qed.

Lemma intGroup_nonneg i m : 0 <= RS.intGroup i m.
Proof.
  unfold RS.intGroup. destruct (Text.group i m) as [s|]; [|lia].
  apply parseDigits_nonneg. lia.
Qed.

Lemma finalHourOf_nonneg hour isPM : 0 <= hour -> 0 <= RS.finalHourOf hour isPM.
Proof. intros H. rewrite finalHourOf_cases. destruct isPM, (hour <? 12), (hour =? 12); lia. Qed.

(** Setting hour, minute and second to values that are not negative never
    goes back before the start of the day. *)
Lemma set_fields_from_day_start h m x :
  0 <= h -> 0 <= m ->
  Moment.Day x * Moment.msPerDay
  <= Moment.setSecond 0 (Moment.setMinute m (Moment.setHour h x)).
Proof.
  intros Hh Hm.
  unfold Moment.setSecond, Moment.setMinute, Moment.setHour, Moment.MakeDate,
    Moment.MakeTime, Moment.Day, Moment.hour, Moment.minute, Moment.second,
    Moment.millisecond, Moment.msPerDay, Moment.msPerHour, Moment.msPerMinute,
    Moment.msPerSecond.
  Z.to_euclidean_division_equations. lia.
Qed.

Lemma atTime_not_past now m : now <= RS.atTime now m.
Proof.
  unfold RS.atTime, Moment.isBefore.
  pose proof (set_fields_from_day_start
                (RS.finalHourOf (RS.intGroup 1 m) (RS.isPMGroup m)) (RS.intGroup 2 m) now
                (finalHourOf_nonneg _ _ (intGroup_nonneg 1 m)) (intGroup_nonneg 2 m)) as Hlow.
  set (target := Moment.setSecond 0 _) in *.
  destruct (target <? now) eqn:Hlt; [|lia].
  unfold Moment.addDays. unfold Moment.Day, Moment.msPerDay in *.
  Z.to_euclidean_division_equations. lia.
Qed.

Lemma tomorrowTime_not_past now m : now < RS.tomorrowTime now m.
Proof.
  unfold RS.tomorrowTime.
  pose proof (set_fields_from_day_start
                (RS.finalHourOf (RS.intGroup 1 m) (RS.isPMGroup m)) (RS.intGroup 2 m)
                (Moment.addDays 1 now)
                (finalHourOf_nonneg _ _ (intGroup_nonneg 1 m)) (intGroup_nonneg 2 m)) as Hlow.
  set (target := Moment.setSecond 0 _) in *.
  unfold Moment.addDays, Moment.Day, Moment.msPerDay in *.
  Z.to_euclidean_division_equations. lia.
Qed.

Lemma inTime_not_past now m t : RS.inTime now m = Some t -> now <= t.
Proof.
  unfold RS.inTime, RS.timeClip, Moment.addMinutes, Moment.addHours, Moment.addDays,
    Moment.msPerMinute, Moment.msPerHour, Moment.msPerDay.
  pose proof (intGroup_nonneg 1 m).
  destruct (RS.strictEq _ _); [|destruct (RS.strictEq _ _)];
    destruct (Z.abs _ <=? _); intros [= <-]; lia.
Qed.

(** X15. A text in one of the relative forms of the parser ("tomorrow"
    with a time, "in N units", "at H:MM") never parses to an instant before
    now, whatever the numbers in it; so a create with the parsed time, at
    the same now, is accepted and stores an active reminder due then. *)
Theorem relative_time_is_not_past
        (momentParse : string -> option Z) (uuidv4 : nat -> string)
        (text phone message : string) (options : RS.SetOptions)
        (now t : Z) (w : RS.World)
        (Hform : relativeForm text = true)
        (Hparse : RS.parseNaturalLanguageTime momentParse text now = Some t) :
  now <= t /\
  exists r w1,
    RS.setReminder uuidv4 phone message (Some t) options now w = (Eff.Return r, w1) /\
    RS.datetime r = t /\ RS.status r = "active" /\
    In r (default [] (RS.map_get phone (RS.reminders w1))).
Proof.
  assert (Hle : now <= t).
  { revert Hform Hparse. unfold relativeForm, RS.parseNaturalLanguageTime, Text.test.
    set (lowerText := Text.toLowerCase text).
    destruct (Text.includes lowerText "tomorrow"); simpl.
    - destruct (Text.search RS.re_tomorrow lowerText) as [m|]; simpl.
      + intros _ [= <-]. pose proof (tomorrowTime_not_past now m). lia.
      + destruct (Text.search RS.re_in lowerText) as [m|]; simpl.
        * intros _. apply inTime_not_past.
        * destruct (Text.search RS.re_at lowerText) as [m|]; simpl; [|discriminate].
          intros _ [= <-]. apply atTime_not_past.
    - destruct (Text.search RS.re_in lowerText) as [m|]; simpl.
      + intros _. apply inTime_not_past.
      + destruct (Text.search RS.re_at lowerText) as [m|]; simpl; [|discriminate].
        intros _ [= <-]. apply atTime_not_past. }
  split; [exact Hle|].
  eexists _, _. split; [apply (setReminder_store uuidv4 phone message t options now w Hle)|].
  split; [reflexivity|]. split; [reflexivity|]. simpl.
  rewrite map_get_set_eq. simpl. apply in_or_app. right. now left.
Qed.

Lemma relative_time_is_not_past_witness :
  relativeForm "at 14:30" = true /\
  Moment.utc 2024 1 1 15 0 0 0 <= Moment.utc 2024 1 2 14 30 0 0.
Proof.
  split; [reflexivity|].
  apply (relative_time_is_not_past (fun _ => None) sampleIds "at 14:30" "alice" "call mom"
           RS.defaultSetOptions (Moment.utc 2024 1 1 15 0 0 0)
           (Moment.utc 2024 1 2 14 30 0 0) RS.constructor).
  - reflexivity.
  - reflexivity.
Defined.

(** ** TimeExpression Parser: the "in N units" form *)

Lemma exec_Star r1 s c k :
  Text.exec (Text.Star r1) s c k = starLoop r1 k (String.length s) s c.
Proof. reflexivity. Qed.

Lemma length_append (a b : string) :
  String.length (a ++ b) = (String.length a + String.length b)%nat.
Proof. induction a as [|x a IH]; simpl; [reflexivity|]. now rewrite IH. Qed.

Lemma substring_0_all (s : string) : substring 0 (String.length s) s = s.
Proof. induction s as [|x s IH]; simpl; [reflexivity|]. now rewrite IH. Qed.

Lemma substring_skip (p r : string) :
  substring (String.length p) (String.length (p ++ r) - String.length p) (p ++ r) = r.
Proof.
  rewrite length_append. replace (String.length p + String.length r - String.length p)%nat
    with (String.length r) by lia.
  induction p as [|x p IH]; simpl; [apply substring_0_all|exact IH].
Qed.

Lemma substring_take (a b : string) :
  substring 0 (String.length (a ++ b) - String.length b) (a ++ b) = a.
Proof.
  rewrite length_append. replace (String.length a + String.length b - String.length b)%nat
    with (String.length a) by lia.
  induction a as [|x a IH]; simpl.
  - destruct b; reflexivity.
  - now rewrite IH.
Qed.

Lemma prefix_append (p r : string) : String.prefix p (p ++ r) = true.
Proof.
  induction p as [|x p IH]; [destruct r; reflexivity|].
  change (String x p ++ r) with (String x (p ++ r)). cbn [String.prefix].
  destruct (ascii_dec x x) as [_|Hne]; [exact IH|now destruct Hne].
Qed.

(** A literal at the head of the input is consumed. *)
Lemma exec_Lit_append p r c k : Text.exec (Text.Lit p) (p ++ r) c k = k r c.
Proof.
  cbn [Text.exec]. unfold Text.startsWith. now rewrite prefix_append, substring_skip.
Qed.

(** [\d*] consumes a run of digits that ends before a character that is
    not a digit, when the rest of the expression matches from there. *)
Lemma starLoop_digits k rest c res : forall ds n,
  allDigits ds = true -> (String.length ds <= n)%nat ->
  match rest with String a _ => Text.isDigit a = false | EmptyString => True end ->
  k rest c = Some res ->
  starLoop Text.Digit k n (ds ++ rest) c = Some res.
Proof.
  induction ds as [|d ds IH]; intros n Hds Hn Hrest Hk.
  - simpl. destruct n as [|n]; simpl; [exact Hk|].
    destruct rest as [|a rest']; simpl; [exact Hk|]. now rewrite Hrest.
  - simpl in Hds. apply andb_true_iff in Hds as [Hd Hds].
    destruct n as [|n]; [simpl in Hn; lia|].
    simpl. rewrite Hd.
    assert (Hlt : (String.length (ds ++ rest) <? S (String.length (ds ++ rest)))%nat = true)
      by (apply Nat.ltb_lt; lia).
    rewrite Hlt. fold (starLoop Text.Digit k).
    rewrite (IH n Hds); [reflexivity| |exact Hrest|exact Hk]. simpl in Hn. lia.
Qed.

Lemma exec_Cat r1 r2 s c k :
  Text.exec (Text.Cat r1 r2) s c k = Text.exec r1 s c (fun s' c' => Text.exec r2 s' c' k).
Proof. reflexivity. Qed.

Lemma exec_Cap i r1 s c k :
  Text.exec (Text.Cap i r1) s c k
  = Text.exec r1 s c
      (fun s' c' => k s' ((i, substring 0 (String.length s - String.length s') s) :: c')).
Proof. reflexivity. Qed.

Lemma exec_Alt r1 r2 s c k :
  Text.exec (Text.Alt r1 r2) s c k
  = match Text.exec r1 s c k with Some res => Some res | None => Text.exec r2 s c k end.
Proof. reflexivity. Qed.

Lemma exec_Opt r1 s c k :
  Text.exec (Text.Opt r1) s c k
  = match Text.exec r1 s c k with Some res => Some res | None => k s c end.
Proof. reflexivity. Qed.

Lemma exec_Lit_mismatch p s c k :
  String.prefix p s = false -> Text.exec (Text.Lit p) s c k = None.
Proof. intros H. cbn [Text.exec]. unfold Text.startsWith. now rewrite H. Qed.

(** A group of one or more digits, [(\d+)], at the head of the input. *)
Lemma exec_digits_group i ds rest c k res :
  allDigits ds = true -> ds <> "" ->
  match rest with String a _ => Text.isDigit a = false | EmptyString => True end ->
  k rest ((i, ds) :: c) = Some res ->
  Text.exec (Text.Cap i (Text.Cat Text.Digit (Text.Star Text.Digit))) (ds ++ rest) c k
  = Some res.
Proof.
  intros Hds Hne Hrest Hk. destruct ds as [|d ds]; [congruence|].
  simpl in Hds. apply andb_true_iff in Hds as [Hd Hds].
  rewrite exec_Cap, exec_Cat.
  change (String d ds ++ rest) with (String d (ds ++ rest)).
  cbn [Text.exec]. rewrite Hd. fold (starLoop Text.Digit).
  apply starLoop_digits; auto.
  - rewrite length_append. lia.
  - cbv beta.
    change (String d (ds ++ rest)) with (String d ds ++ rest).
    rewrite (substring_take (String d ds) rest). exact Hk.
Qed.

(** The match of "in N unit" at the head of the text. *)
Lemma search_re_in ds unit rest :
  allDigits ds = true -> ds <> "" ->
  unit = "minute" \/ unit = "hour" \/ unit = "day" ->
  Text.search RS.re_in ("in " ++ ds ++ " " ++ unit ++ rest) = Some [(2%nat, unit); (1%nat, ds)].
Proof.
  intros Hds Hne Hunit.
  assert (Hexec :
    Text.exec RS.re_in ("in " ++ ds ++ " " ++ unit ++ rest) [] (fun _ c => Some c)
    = Some [(2%nat, unit); (1%nat, ds)]).
  { unfold RS.re_in. cbn [Text.cat].
    rewrite exec_Cat, exec_Lit_append, exec_Cat.
    apply exec_digits_group; auto; [reflexivity|].
    rewrite exec_Cat, exec_Lit_append, exec_Cat, exec_Cap.
    pose proof (substring_take unit rest) as Hcap.
    assert (Hopt : forall c, Text.exec (Text.Opt (Text.Lit "s")) rest c (fun _ c0 => Some c0)
                             = Some c).
    { intros c. rewrite exec_Opt. cbn [Text.exec]. destruct (Text.startsWith rest "s"); reflexivity. }
    destruct Hunit as [-> | [-> | ->]].
    - rewrite exec_Alt, exec_Lit_append. cbv beta. rewrite Hcap, Hopt. reflexivity.
    - rewrite exec_Alt, exec_Lit_mismatch by reflexivity.
      rewrite exec_Alt, exec_Lit_append. cbv beta. rewrite Hcap, Hopt. reflexivity.
    - rewrite exec_Alt, exec_Lit_mismatch by reflexivity.
      rewrite exec_Alt, exec_Lit_mismatch by reflexivity.
      rewrite exec_Lit_append. cbv beta. rewrite Hcap, Hopt. reflexivity. }
  change ("in " ++ ds ++ " " ++ unit ++ rest)
    with (String "i" ("n " ++ ds ++ " " ++ unit ++ rest)) in *.
  cbn [Text.search]. now rewrite Hexec.
Qed.

(** X16. For a text that, lower-cased, starts with "in N unit", N a string
    of one or more digits and the unit "minute", "hour" or "day" (whatever
    follows, a plural "s" for one), and that does not contain "tomorrow",
    the parser yields now plus N units exactly, or an invalid time when that
    instant is outside the range of [Date]. *)
Theorem parse_in_amount
        (momentParse : string -> option Z) (text ds unit rest : string) (now : Z)
        (Hlower : Text.toLowerCase text = "in " ++ ds ++ " " ++ unit ++ rest)
        (Hds : allDigits ds = true) (Hne : ds <> "")
        (Hunit : unit = "minute" \/ unit = "hour" \/ unit = "day")
        (Hnot : Text.includes (Text.toLowerCase text) "tomorrow" = false) :
  RS.parseNaturalLanguageTime momentParse text now
  = RS.timeClip (now + Text.parseInt ds * unitMs unit) /\
  0 <= Text.parseInt ds /\
  (Z.abs (now + Text.parseInt ds * unitMs unit) <= 8640000000000000 ->
   RS.parseNaturalLanguageTime momentParse text now
   = Some (now + Text.parseInt ds * unitMs unit)).
Proof.
  assert (Hparse : RS.parseNaturalLanguageTime momentParse text now
                   = RS.timeClip (now + Text.parseInt ds * unitMs unit)).
  { unfold RS.parseNaturalLanguageTime. rewrite Hnot. rewrite Hlower.
    rewrite (search_re_in ds unit rest Hds Hne Hunit).
    unfold RS.inTime, RS.intGroup. cbn [Text.group Nat.eqb].
    destruct Hunit as [-> | [-> | ->]]; reflexivity. }
  split; [exact Hparse|]. split; [apply parseDigits_nonneg; lia|].
  intros Hrange. rewrite Hparse. unfold RS.timeClip.
  assert (Hb : (Z.abs (now + Text.parseInt ds * unitMs unit) <=? 8640000000000000) = true) by lia.
  now rewrite Hb.
Qed.

Lemma parse_in_amount_witness :
  RS.parseNaturalLanguageTime (fun _ => None) "In 90 Minutes" 1000
  = RS.timeClip (1000 + Text.parseInt "90" * unitMs "minute") /\
  RS.timeClip (1000 + Text.parseInt "90" * unitMs "minute") = Some 5401000.
Proof.
  destruct (parse_in_amount (fun _ => None) "In 90 Minutes" "90" "minute" "s" 1000)
    as (Hparse & _ & _).
  - reflexivity.
  - reflexivity.
  - discriminate.
  - now left.
  - reflexivity.
  - split; [exact Hparse|reflexivity].
Defined.

(** ** Command Router: /cancel *)

Lemma sendMessage_accepted send to text w :
  (forall n to' text', send n to' text' = None) ->
  RS.sendMessage send to text w = (Eff.Return tt, afterSend to text w).
Proof. intros Hacc. unfold RS.sendMessage. now rewrite Hacc. Qed.

Lemma getUserReminders_activeOnly phone w :
  RS.getUserReminders phone
    (RS.mkListOptions "active" (RS.opt_limit RS.defaultListOptions)
       (RS.opt_sort RS.defaultListOptions)) w
  = (Eff.Return (cancelCandidates phone w), w).
Proof. rewrite getUserReminders_run. reflexivity. Qed.

Lemma findByPrefix_Some prefix l r :
  MessageHandler.findByPrefix prefix l = Some r ->
  exists l1 l2,
    l = (l1 ++ r :: l2)%list /\ Text.startsWith (RS.id r) prefix = true /\
    forall x, In x l1 -> Text.startsWith (RS.id x) prefix = false.
Proof.
  induction l as [|y l IH]; simpl; [discriminate|].
  destruct (Text.startsWith (RS.id y) prefix) eqn:Hy.
  - intros [= ->]. exists [], l. repeat split; auto. intros x [].
  - intros H. destruct (IH H) as (l1 & l2 & -> & Hr & Hbefore).
    exists (y :: l1), l2. repeat split; auto.
    intros x [<-|Hx]; auto.
Qed.

Lemma ascending_app_r key (l1 l2 : list RS.Reminder) :
  ascending key (l1 ++ l2) -> ascending key l2.
Proof.
  unfold ascending. induction l1 as [|x l1 IH]; simpl; [auto|].
  intros H. apply StronglySorted_inv in H as [H _]. auto.
Qed.

Lemma In_cancelCandidates phone w x :
  In x (cancelCandidates phone w) ->
  In x (default [] (RS.map_get phone (RS.reminders w))) /\ RS.status x = "active".
Proof.
  unfold cancelCandidates, activeOf. intros Hx. apply In_take, In_sortBy in Hx.
  apply list_elem_of_In, list_elem_of_filter in Hx as [Hact Hx].
  split; [now apply list_elem_of_In|now apply String.eqb_eq].
Qed.

(** X17. With a Notifier that accepts every message, /cancel returns after
    exactly one message to the sender: the request for an id when the
    argument is blank, "Reminder not found" when none of the sender's first
    50 active reminders has an id starting with the argument, and otherwise
    the confirmation, after the cancel of the reminder found, which cannot
    fail.  The error reply is never sent. *)
Theorem handleCancelReminderCommand_replies_once
        (send : RS.Notifier) (phone args : string) (w : RS.World)
        (Hacc : forall n to text, send n to text = None) :
  exists text w1,
    MessageHandler.handleCancelReminderCommand send phone args w
    = (Eff.Return tt, afterSend phone text w1) /\
    RS.outbox w1 = RS.outbox w /\
    text <> MessageHandler.replyCancelError /\
    match (if (Text.trim args =? "")%string then None
           else Some (MessageHandler.findByPrefix (Text.trim args) (cancelCandidates phone w))) with
    | None => text = MessageHandler.replyMissingId /\ w1 = w
    | Some None => text = MessageHandler.replyNotFound /\ w1 = w
    | Some (Some r) =>
        text = MessageHandler.replyCancelled r /\
        exists r', RS.cancelReminder phone (RS.id r) w = (Eff.Return r', w1)
    end.
Proof.
  unfold MessageHandler.handleCancelReminderCommand.
  destruct (Text.trim args =? "")%string eqn:Hargs.
  - exists MessageHandler.replyMissingId, w.
    split; [now apply sendMessage_accepted|]. split; [reflexivity|].
    split; [discriminate|]. split; reflexivity.
  - eff_unfold. rewrite getUserReminders_activeOnly.
    destruct (MessageHandler.findByPrefix (Text.trim args) (cancelCandidates phone w))
      as [r|] eqn:Hfind.
    + destruct (findByPrefix_Some _ _ _ Hfind) as (l1 & l2 & Hl & _ & _).
      assert (Hin : In r (cancelCandidates phone w))
        by (rewrite Hl; apply in_or_app; right; now left).
      apply In_cancelCandidates in Hin as [Hin _].
      destruct (findIndex_In (RS.id r) _ r Hin eq_refl) as [i Hi].
      destruct (findIndex_lookup _ _ _ Hi) as (r0 & Hr0 & Hid0).
      assert (Hcancel : exists w1,
        RS.cancelReminder phone (RS.id r) w = (Eff.Return (RS.set_status "cancelled" r0), w1) /\
        RS.outbox w1 = RS.outbox w).
      { unfold RS.cancelReminder. eff_unfold. rewrite Hi, Hr0. simpl.
        eexists. split; [reflexivity|].
        destruct (assign_keeps_outbox (phone, i) (RS.set_status "cancelled") w) as [Ho _].
        exact Ho. }
      destruct Hcancel as (w1 & Hrun & Hout). rewrite Hrun.
      rewrite (sendMessage_accepted send phone _ w1 Hacc).
      exists (MessageHandler.replyCancelled r), w1.
      split; [reflexivity|]. split; [exact Hout|].
      split; [discriminate|]. split; [reflexivity|]. eauto.
    + rewrite (sendMessage_accepted send phone _ w Hacc).
      exists MessageHandler.replyNotFound, w.
      split; [reflexivity|]. split; [reflexivity|]. split; [discriminate|].
      split; reflexivity.
Qed.

Lemma handleCancelReminderCommand_replies_once_witness :
  exists text w1,
    MessageHandler.handleCancelReminderCommand acceptAll "alice" "id-0" oneReminderOnline
    = (Eff.Return tt, afterSend "alice" text w1) /\
    text <> MessageHandler.replyCancelError.
Proof.
  destruct (handleCancelReminderCommand_replies_once acceptAll "alice" "id-0" oneReminderOnline)
    as (text & w1 & Hrun & _ & Hne & _).
  - reflexivity.
  - exists text, w1. split; [exact Hrun|exact Hne].
Defined.

(** X18. /cancel with the first characters of an id: when the ids of the
    sender are distinct and some reminder among the sender's first 50 active
    ones has an id starting with the argument, the reminder that is
    cancelled is the earliest due of those, at its place in the sender's
    array, whatever the Notifier does; the other recipients are untouched. *)
Theorem cancel_by_prefix_takes_earliest_match
        (send : RS.Notifier) (phone args : string) (w : RS.World)
        (arr : list RS.Reminder) (r : RS.Reminder)
        (Hargs : Text.trim args <> "")
        (Harr : RS.map_get phone (RS.reminders w) = Some arr)
        (Hids : NoDup (map RS.id arr))
        (Hfind : MessageHandler.findByPrefix (Text.trim args) (cancelCandidates phone w) = Some r) :
  let w' := snd (MessageHandler.handleCancelReminderCommand send phone args w) in
  exists i,
    arr !! i = Some r /\ RS.status r = "active" /\
    Text.startsWith (RS.id r) (Text.trim args) = true /\
    (forall x, In x (cancelCandidates phone w) ->
               Text.startsWith (RS.id x) (Text.trim args) = true ->
               RS.datetime r <= RS.datetime x) /\
    RS.map_get phone (RS.reminders w') = Some (<[i := RS.set_status "cancelled" r]> arr) /\
    (forall key, key <> phone ->
       RS.map_get key (RS.reminders w') = RS.map_get key (RS.reminders w)).
Proof.
  intros w'.
  destruct (findByPrefix_Some _ _ _ Hfind) as (l1 & l2 & Hl & Hprefix & Hbefore).
  assert (Hin : In r (cancelCandidates phone w))
    by (rewrite Hl; apply in_or_app; right; now left).
  destruct (In_cancelCandidates _ _ _ Hin) as [Hstored Hactive].
  rewrite Harr in Hstored. simpl in Hstored.
  destruct (findIndex_In (RS.id r) arr r Hstored eq_refl) as [i Hi].
  destruct (findIndex_lookup _ _ _ Hi) as (r0 & Hr0 & Hid0).
  assert (r0 = r) as ->.
  { apply list_elem_of_In, list_elem_of_lookup in Hstored as [j Hj].
    assert (j = i) as ->; [|congruence].
    apply (NoDup_lookup (map RS.id arr) j i (RS.id r) Hids).
    - now rewrite list_lookup_fmap, Hj.
    - now rewrite list_lookup_fmap, Hr0; simpl; rewrite Hid0. }
  exists i. split; [exact Hr0|]. split; [exact Hactive|]. split; [exact Hprefix|]. split.
  { intros x Hx Hpx. rewrite Hl in Hx. apply in_app_or in Hx as [Hx|[<-|Hx]].
    - rewrite (Hbefore x Hx) in Hpx. discriminate.
    - lia.
    - assert (Hsorted : ascending RS.datetime (cancelCandidates phone w))
        by apply take_ascending, sortBy_ascending.
      rewrite Hl in Hsorted.
      apply ascending_app_r in Hsorted. unfold ascending in Hsorted.
      apply StronglySorted_inv in Hsorted as [_ Hall].
      rewrite Forall_forall in Hall. apply Hall. now apply list_elem_of_In. }
  (* the run *)
  assert (Hstore :
    RS.map_get phone (RS.map_set phone (<[i := RS.set_status "cancelled" r]> arr) (RS.reminders w))
    = Some (<[i := RS.set_status "cancelled" r]> arr) /\
    (forall key, key <> phone ->
       RS.map_get key (RS.map_set phone (<[i := RS.set_status "cancelled" r]> arr) (RS.reminders w))
       = RS.map_get key (RS.reminders w))).
  { split; [apply map_get_set_eq|].
    intros key Hne. now rewrite map_get_set_ne by congruence. }
  subst w'. unfold MessageHandler.handleCancelReminderCommand.
  apply String.eqb_neq in Hargs. rewrite Hargs.
  eff_unfold. rewrite getUserReminders_activeOnly, Hfind.
  unfold RS.cancelReminder. eff_unfold. rewrite Harr. simpl. rewrite Hi, Hr0. simpl.
  rewrite (assign_Some phone i _ w arr r Harr Hr0).
  unfold RS.sendMessage. simpl.
  destruct (send (RS.sendCalls w) phone (MessageHandler.replyCancelled r)) as [msg|]; simpl.
  - destruct (send (S (RS.sendCalls w)) phone MessageHandler.replyCancelError); simpl;
      exact Hstore.
  - exact Hstore.
Qed.

Lemma cancel_by_prefix_takes_earliest_match_witness :
  Text.trim " id-0 " <> "" /\
  exists i,
    [callMom] !! i = Some callMom /\
    RS.map_get "alice"
      (RS.reminders (snd (MessageHandler.handleCancelReminderCommand acceptAll "alice" " id-0 "
                            oneReminderOnline)))
    = Some (<[i := RS.set_status "cancelled" callMom]> [callMom]).
Proof.
  assert (Hargs : Text.trim " id-0 " <> "") by discriminate.
  split; [exact Hargs|].
  destruct (cancel_by_prefix_takes_earliest_match acceptAll "alice" " id-0 " oneReminderOnline
              [callMom] callMom Hargs) as (i & Hi & _ & _ & _ & Hget & _).
  - reflexivity.
  - vm_compute. repeat constructor; intros H; inversion H.
  - reflexivity.
  - exists i. split; [exact Hi|exact Hget].
Defined.

(** ** Command Router: commands *)

Lemma split_space_nonempty s : MessageHandler.split_space s <> [].
Proof.
  destruct s as [|a s]; simpl; [discriminate|].
  destruct (Ascii.eqb a " "); [discriminate|].
  destruct (MessageHandler.split_space s); discriminate.
Qed.

Lemma join_space_cons x l :
  l <> [] -> MessageHandler.join_space (x :: l) = x ++ " " ++ MessageHandler.join_space l.
Proof. destruct l; [congruence|reflexivity]. Qed.

(** Joining the parts of a split gives the string back. *)
Lemma join_split s : MessageHandler.join_space (MessageHandler.split_space s) = s.
Proof.
  induction s as [|a s IH]; [reflexivity|]. cbn [MessageHandler.split_space].
  pose proof (split_space_nonempty s) as Hnil.
  destruct (Ascii.eqb_spec a " ") as [->|Hne].
  - rewrite join_space_cons by exact Hnil. rewrite IH. reflexivity.
  - destruct (MessageHandler.split_space s) as [|x l] eqn:Hs; [congruence|].
    destruct l as [|y l].
    + cbn [MessageHandler.join_space] in *. now rewrite IH.
    + rewrite join_space_cons in * by discriminate.
      change (String a x ++ " " ++ MessageHandler.join_space (y :: l))
        with (String a (x ++ " " ++ MessageHandler.join_space (y :: l))).
      now rewrite IH.
Qed.

Lemma no_space_cons a s :
  Text.includes (String a s) " " = false -> a <> " "%char /\ Text.includes s " " = false.
Proof.
  cbn [Text.includes]. unfold Text.startsWith. cbn [String.prefix].
  destruct (ascii_dec " " a) as [<-|Hne].
  - destruct s; discriminate.
  - simpl. intros H. split; [congruence|exact H].
Qed.

Lemma split_space_word first :
  Text.includes first " " = false -> MessageHandler.split_space first = [first].
Proof.
  induction first as [|a s IH]; intros H; [reflexivity|].
  apply no_space_cons in H as [Ha Hs]. cbn [MessageHandler.split_space].
  destruct (Ascii.eqb_spec a " ") as [->|_]; [congruence|]. now rewrite (IH Hs).
Qed.

(** The first part of a split is the text before the first space, the
    other parts are the split of the text after it. *)
Lemma split_space_first first rest :
  Text.includes first " " = false ->
  MessageHandler.split_space (first ++ " " ++ rest) = first :: MessageHandler.split_space rest.
Proof.
  induction first as [|a s IH]; intros H.
  - reflexivity.
  - apply no_space_cons in H as [Ha Hs].
    change (String a s ++ " " ++ rest) with (String a (s ++ " " ++ rest)).
    cbn [MessageHandler.split_space].
    destruct (Ascii.eqb_spec a " ") as [->|_]; [congruence|]. now rewrite (IH Hs).
Qed.

(** X19. [handleCommand] takes the text before the first space as the
    command, lower-cased, and hands the handler the text after that space
    unchanged, inner and trailing spaces included (the empty string when
    there is no space).  An unknown command is answered with the "Unknown
    command" reply that names it; an exception of the handler or of that
    reply is answered with the error reply. *)
Theorem handleCommand_reads_command_and_args
        (State Contact : Type)
        (sendMessage : string -> string -> Eff.M State unit)
        (commands : string -> option (string -> string -> Contact -> Eff.M State unit))
        (phone first args : string) (contact : Contact)
        (Hfirst : Text.includes first " " = false) :
  let dispatch (rest : string) :=
    Eff.try_catch
      (match commands (Text.toLowerCase first) with
       | Some handler => handler phone rest contact
       | None => sendMessage phone (MessageHandler.replyUnknownCommand (Text.toLowerCase first))
       end)
      (fun _ => sendMessage phone MessageHandler.replyCommandError) in
  MessageHandler.handleCommand State Contact sendMessage commands phone (first ++ " " ++ args) contact
  = dispatch args /\
  MessageHandler.handleCommand State Contact sendMessage commands phone first contact = dispatch "".
Proof.
  intros dispatch. subst dispatch. unfold MessageHandler.handleCommand. split.
  - rewrite split_space_first by exact Hfirst. cbn [hd tl]. now rewrite join_split.
  - rewrite split_space_word by exact Hfirst. reflexivity.
Qed.

Lemma handleCommand_reads_command_and_args_witness :
  Text.includes "/Cancel" " " = false /\
  MessageHandler.handleCommand RS.World unit (RS.sendMessage acceptAll)
    (fun command =>
       if (command =? "/cancel")%string
       then Some (fun phone args _ => MessageHandler.handleCancelReminderCommand acceptAll phone args)
       else None)
    "alice" "/Cancel  id-0" tt oneReminderOnline
  = Eff.try_catch
      (MessageHandler.handleCancelReminderCommand acceptAll "alice" " id-0")
      (fun _ => RS.sendMessage acceptAll "alice" MessageHandler.replyCommandError) oneReminderOnline.
Proof.
  split; [reflexivity|].
  destruct (handleCommand_reads_command_and_args RS.World unit (RS.sendMessage acceptAll)
              (fun command =>
                 if (command =? "/cancel")%string
                 then Some (fun phone args _ =>
                              MessageHandler.handleCancelReminderCommand acceptAll phone args)
                 else None)
              "alice" "/Cancel" " id-0" tt) as [Hrun _].
  - reflexivity.
  - change ("/Cancel" ++ " " ++ " id-0") with "/Cancel  id-0" in Hrun.
    now rewrite Hrun.
Defined.

(** ** Conversation history: chats *)

Lemma exchanges_app l1 l2 :
  exchanges l1 = true -> exchanges l2 = true -> exchanges (l1 ++ l2) = true.
Proof.
  revert l1. fix IH 1. intros [|u [|a l1]]; simpl; intros H1 H2; [exact H2|discriminate|].
  apply andb_true_iff in H1 as [H1 H1']. rewrite H1. simpl. now apply IH.
Qed.

Lemma chat_run post userPhone message options h :
  let history := default [] (h !! userPhone) in
  let h0 := if bool_decide (is_Some (h !! userPhone)) then h else <[userPhone := []]> h in
  MS.chat post userPhone message options h
  = match post (MS.opt_model options)
            (MS.buildMessages (MS.opt_system_prompt options) history message)
            (MS.opt_max_tokens options) with
    | MS.Rejected msg => (Eff.Throw ("Failed to generate chat response: " ++ msg), h0)
    | MS.Resolved [] =>
        (Eff.Throw "Failed to generate chat response: No response generated", h0)
    | MS.Resolved (a :: _) =>
        (Eff.Return a,
         <[userPhone := (history ++ [MS.mkChatMessage "user" message;
                                     MS.mkChatMessage "assistant" a])%list]> h0)
    end.
Proof.
  intros history h0. subst history h0. unfold MS.chat. eff_unfold.
  destruct (bool_decide (is_Some (h !! userPhone))) eqn:Hhas; simpl.
  - destruct (post _ _ _) as [msg|[|a rest]]; reflexivity.
  - apply bool_decide_eq_false_1 in Hhas.
    assert (Hnone : h !! userPhone = None).
    { destruct (h !! userPhone) eqn:E; [exfalso; apply Hhas; eauto|reflexivity]. }
    rewrite lookup_insert_eq, Hnone. simpl.
    destruct (post _ _ _) as [msg|[|a rest]]; reflexivity.
Qed.

(** X20. A chat that the text generator rejects, or answers without a
    choice, throws "Failed to generate chat response: ..." and records
    nothing: the history read for every recipient is what it was, the user's
    message included in none, and a retry behaves the same. *)
Theorem failed_chat_is_not_recorded
        (post : string -> list MS.ChatMessage -> Z -> MS.ApiResponse)
        (userPhone message : string) (options : MS.ChatOptions)
        (h : gmap string (list MS.ChatMessage))
        (Hfail : answered (post (MS.opt_model options)
                             (MS.buildMessages (MS.opt_system_prompt options)
                                (default [] (h !! userPhone)) message)
                             (MS.opt_max_tokens options)) = None) :
  exists msg h',
    MS.chat post userPhone message options h = (Eff.Throw msg, h') /\
    Text.startsWith msg "Failed to generate chat response: " = true /\
    (forall phone, fst (MS.getConversationHistory phone h')
                   = fst (MS.getConversationHistory phone h)) /\
    (forall phone, phone <> userPhone -> h' !! phone = h !! phone) /\
    MS.chat post userPhone message options h' = (Eff.Throw msg, h').
Proof.
  set (h0 := if bool_decide (is_Some (h !! userPhone)) then h else <[userPhone := []]> h).
  assert (Hdef : default [] (h0 !! userPhone) = default [] (h !! userPhone)).
  { subst h0. destruct (bool_decide (is_Some (h !! userPhone))) eqn:Hhas; [reflexivity|].
    apply bool_decide_eq_false_1 in Hhas. rewrite lookup_insert_eq.
    destruct (h !! userPhone) eqn:E; [exfalso; apply Hhas; eauto|reflexivity]. }
  assert (Hsome : is_Some (h0 !! userPhone)).
  { subst h0. destruct (bool_decide (is_Some (h !! userPhone))) eqn:Hhas.
    - now apply bool_decide_eq_true_1 in Hhas.
    - rewrite lookup_insert_eq. eauto. }
  assert (Hother : forall phone, phone <> userPhone -> h0 !! phone = h !! phone).
  { intros phone Hne. subst h0. destruct (bool_decide (is_Some (h !! userPhone))); [reflexivity|].
    now rewrite lookup_insert_ne by congruence. }
  pose proof (chat_run post userPhone message options h) as Hrun.
  pose proof (chat_run post userPhone message options h0) as Hrun0.
  cbv zeta in Hrun, Hrun0. fold h0 in Hrun.
  rewrite Hdef in Hrun0. rewrite (bool_decide_eq_true_2 _ Hsome) in Hrun0.
  assert (Hget : forall phone, fst (MS.getConversationHistory phone h0)
                               = fst (MS.getConversationHistory phone h)).
  { intros phone. unfold MS.getConversationHistory, Eff.gets. simpl.
    destruct (decide (phone = userPhone)) as [->|Hne]; [now rewrite Hdef|].
    now rewrite Hother. }
  destruct (post _ _ _) as [m|[|a rest]]; simpl in Hfail; try discriminate.
  - exists ("Failed to generate chat response: " ++ m), h0.
    split; [exact Hrun|]. split; [apply prefix_append|]. auto.
  - exists "Failed to generate chat response: No response generated", h0.
    split; [exact Hrun|]. split; [reflexivity|]. auto.
Qed.

Lemma failed_chat_is_not_recorded_witness :
  exists msg h',
    MS.chat (fun _ _ _ => MS.Rejected "timeout") "alice" "hi" MS.defaultChatOptions ∅
    = (Eff.Throw msg, h') /\
    fst (MS.getConversationHistory "alice" h') = Eff.Return [].
Proof.
  destruct (failed_chat_is_not_recorded (fun _ _ _ => MS.Rejected "timeout") "alice" "hi"
              MS.defaultChatOptions ∅ eq_refl) as (msg & h' & Hrun & _ & Hget & _).
  exists msg, h'. split; [exact Hrun|]. rewrite Hget. reflexivity.
Defined.

(** X21. An answered chat returns the first choice and appends one
    exchange, the user's message and then the answer, to the sender's
    history; the other histories are untouched; and when every stored
    history is a sequence of such exchanges, it still is afterwards. *)
Theorem answered_chat_appends_one_exchange
        (post : string -> list MS.ChatMessage -> Z -> MS.ApiResponse)
        (userPhone message answer : string) (options : MS.ChatOptions)
        (h : gmap string (list MS.ChatMessage))
        (Hanswer : answered (post (MS.opt_model options)
                               (MS.buildMessages (MS.opt_system_prompt options)
                                  (default [] (h !! userPhone)) message)
                               (MS.opt_max_tokens options)) = Some answer) :
  exists h',
    MS.chat post userPhone message options h = (Eff.Return answer, h') /\
    fst (MS.getConversationHistory userPhone h')
    = Eff.Return (default [] (h !! userPhone)
                    ++ [MS.mkChatMessage "user" message;
                        MS.mkChatMessage "assistant" answer])%list /\
    (forall phone, phone <> userPhone -> h' !! phone = h !! phone) /\
    (historiesAlternate h -> historiesAlternate h').
Proof.
  pose proof (chat_run post userPhone message options h) as Hrun. cbv zeta in Hrun.
  destruct (post _ _ _) as [m|[|a rest]]; simpl in Hanswer; try discriminate.
  injection Hanswer as ->.
  eexists. split; [exact Hrun|]. split; [|split].
  - unfold MS.getConversationHistory, Eff.gets. simpl. now rewrite lookup_insert_eq.
  - intros phone Hne. rewrite lookup_insert_ne by congruence.
    destruct (bool_decide (is_Some (h !! userPhone))); [reflexivity|].
    now rewrite lookup_insert_ne by congruence.
  - intros Halt phone l. destruct (decide (phone = userPhone)) as [->|Hne].
    + rewrite lookup_insert_eq. intros [= <-].
      apply exchanges_app; [|reflexivity].
      destruct (h !! userPhone) as [l0|] eqn:Hl; [|reflexivity]. simpl. eapply Halt; eauto.
    + rewrite lookup_insert_ne by congruence.
      destruct (bool_decide (is_Some (h !! userPhone))); [apply Halt|].
      rewrite lookup_insert_ne by congruence. apply Halt.
Qed.

Lemma answered_chat_appends_one_exchange_witness :
  exists h',
    MS.chat answersOk "alice" "hi" MS.defaultChatOptions ∅ = (Eff.Return "ok", h') /\
    fst (MS.getConversationHistory "alice" h')
    = Eff.Return [MS.mkChatMessage "user" "hi"; MS.mkChatMessage "assistant" "ok"].
Proof.
  destruct (answered_chat_appends_one_exchange answersOk "alice" "hi" "ok"
              MS.defaultChatOptions ∅ eq_refl) as (h' & Hrun & Hget & _).
  exists h'. split; [exact Hrun|exact Hget].
Defined.

(** ** Conversation history: the window, clearing and cleanup *)

(** In a history of exchanges the entries at odd places are answers. *)
Lemma exchanges_lookup l : forall i e,
  exchanges l = true -> l !! i = Some e ->
  MS.role e = if Nat.even i then "user" else "assistant".
Proof.
  revert l. fix IH 1. intros [|u [|a l]] i e; simpl; intros H Hi; try discriminate.
  apply andb_true_iff in H as [H Hl]. apply andb_true_iff in H as [Hu Ha].
  apply String.eqb_eq in Hu, Ha.
  destruct i as [|[|i]]; simpl in Hi.
  - injection Hi as <-. exact Hu.
  - injection Hi as <-. exact Ha.
  - change (Nat.even (S (S i))) with (Nat.even i). eapply IH; eauto.
Qed.

Lemma exchanges_even l : exchanges l = true -> Nat.even (length l) = true.
Proof.
  revert l. fix IH 1. intros [|u [|a l]]; simpl; intros H; try discriminate; [reflexivity|].
  apply andb_true_iff in H as [_ Hl]. now apply IH.
Qed.

(** The request of a chat over a history of twenty entries or more. *)
Lemma buildMessages_capped system_prompt history message :
  (20 <= length history)%nat ->
  MS.buildMessages system_prompt history message
  = cappedRequest system_prompt history message.
Proof.
  intros Hlong. rewrite buildMessages_window. cbv zeta. unfold cappedRequest.
  rewrite length_app. simpl length.
  replace (length history + 1 - 20)%nat with (length history - 19)%nat by lia.
  now rewrite drop_app_le by lia.
Qed.

(** X22. Once the stored history of a recipient is a sequence of exchanges of
    twenty entries or more, the request [chat] sends for the next message,
    whatever the text generator, has 21 messages: the system instruction,
    the last 19 entries of the stored history and the new user message.  The
    entry after the system instruction is an answer of the assistant; the
    question it answered, the entry before it in the stored history, is cut
    off.  What [chat] returns and stores is decided by the answer to that
    request. *)
Theorem capped_request_starts_with_an_answer
        (post : string -> list MS.ChatMessage -> Z -> MS.ApiResponse)
        (userPhone message : string) (options : MS.ChatOptions)
        (h : gmap string (list MS.ChatMessage)) (history : list MS.ChatMessage)
        (Hstored : h !! userPhone = Some history)
        (Halt : exchanges history = true)
        (Hlong : (20 <= length history)%nat) :
  let request := cappedRequest (MS.opt_system_prompt options) history message in
  MS.chat post userPhone message options h
  = match post (MS.opt_model options) request (MS.opt_max_tokens options) with
    | MS.Rejected msg => (Eff.Throw ("Failed to generate chat response: " ++ msg), h)
    | MS.Resolved [] =>
        (Eff.Throw "Failed to generate chat response: No response generated", h)
    | MS.Resolved (a :: _) =>
        (Eff.Return a,
         <[userPhone := (history ++ [MS.mkChatMessage "user" message;
                                     MS.mkChatMessage "assistant" a])%list]> h)
    end /\
  length request = 21%nat /\
  request !! O = Some (MS.mkChatMessage "system" (MS.opt_system_prompt options)) /\
  (forall i, (i < 19)%nat -> request !! S i = history !! (length history - 19 + i)%nat) /\
  request !! 20%nat = Some (MS.mkChatMessage "user" message) /\
  exists question answer,
    history !! (length history - 20)%nat = Some question /\ MS.role question = "user" /\
    history !! (length history - 19)%nat = Some answer /\ MS.role answer = "assistant" /\
    request !! 1%nat = Some answer.
Proof.
  intros request.
  pose proof (chat_run post userPhone message options h) as Hrun. cbv zeta in Hrun.
  rewrite Hstored in Hrun.
  rewrite bool_decide_eq_true_2 in Hrun by eauto. simpl in Hrun.
  rewrite (buildMessages_capped _ _ _ Hlong) in Hrun. fold request in Hrun.
  split; [exact Hrun|].
  assert (Hlen : length (drop (length history - 19) history) = 19%nat)
    by (rewrite length_drop; lia).
  assert (Hhist : forall i, (i < 19)%nat ->
            request !! S i = history !! (length history - 19 + i)%nat).
  { intros i Hi. subst request. unfold cappedRequest. simpl.
    rewrite lookup_app_l by lia. apply lookup_drop. }
  split; [|split; [reflexivity|split; [exact Hhist|split]]].
  - subst request. unfold cappedRequest. simpl. rewrite length_app, Hlen. reflexivity.
  - subst request. unfold cappedRequest. simpl.
    rewrite lookup_app_r by lia. rewrite Hlen. reflexivity.
  - pose proof (exchanges_even history Halt) as Heven.
    apply Nat.even_spec in Heven as [k Hk].
    destruct (lookup_lt_is_Some_2 history (length history - 20)%nat ltac:(lia)) as [q Hq].
    destruct (lookup_lt_is_Some_2 history (length history - 19)%nat ltac:(lia)) as [a Ha].
    exists q, a. split; [exact Hq|]. split.
    { rewrite (exchanges_lookup history _ q Halt Hq).
      replace (length history - 20)%nat with (2 * (k - 10))%nat by lia.
      now rewrite Nat.even_mul. }
    split; [exact Ha|]. split.
    { rewrite (exchanges_lookup history _ a Halt Ha).
      replace (length history - 19)%nat with (S (2 * (k - 10)))%nat by lia.
      now rewrite Nat.even_succ, Nat.odd_mul. }
    rewrite (Hhist O) by lia. now rewrite Nat.add_0_r.
Qed.

Lemma capped_request_starts_with_an_answer_witness :
  exchanges (default [] (chats 11 ∅ !! "alice")) = true /\
  (20 <= length (default [] (chats 11 ∅ !! "alice")))%nat /\
  fst (MS.chat answersRoles "alice" "and then?" MS.defaultChatOptions (chats 11 ∅))
  = Eff.Return "sauauauauauauauauauau".
Proof.
  assert (Halt : exchanges (default [] (chats 11 ∅ !! "alice")) = true)
    by (vm_compute; reflexivity).
  assert (Hlong : (20 <= length (default [] (chats 11 ∅ !! "alice")))%nat)
    by (vm_compute; lia).
  split; [exact Halt|]. split; [exact Hlong|].
  destruct (capped_request_starts_with_an_answer answersRoles "alice" "and then?"
              MS.defaultChatOptions (chats 11 ∅) (default [] (chats 11 ∅ !! "alice")))
    as (Hrun & _).
  - vm_compute. reflexivity.
  - exact Halt.
  - exact Hlong.
  - rewrite Hrun. vm_compute. reflexivity.
Defined.

(** X23. Clearing the history of a recipient returns, leaves the other
    histories alone, and makes the next chat of that recipient start from
    nothing: the request holds the system instruction and the new message
    only, and the history afterwards is that one exchange. *)
Theorem clear_then_chat_starts_fresh
        (post : string -> list MS.ChatMessage -> Z -> MS.ApiResponse)
        (userPhone message answer : string) (options : MS.ChatOptions)
        (h : gmap string (list MS.ChatMessage))
        (Hanswer : answered (post (MS.opt_model options)
                               [MS.mkChatMessage "system" (MS.opt_system_prompt options);
                                MS.mkChatMessage "user" message]
                               (MS.opt_max_tokens options)) = Some answer) :
  let cleared := snd (MS.clearConversationHistory userPhone h) in
  fst (MS.clearConversationHistory userPhone h) = Eff.Return tt /\
  fst (MS.getConversationHistory userPhone cleared) = Eff.Return [] /\
  (forall phone, phone <> userPhone -> cleared !! phone = h !! phone) /\
  exists h',
    MS.chat post userPhone message options cleared = (Eff.Return answer, h') /\
    h' !! userPhone = Some [MS.mkChatMessage "user" message;
                            MS.mkChatMessage "assistant" answer].
Proof.
  intros cleared.
  assert (Hcleared : cleared = delete userPhone h).
  { subst cleared. unfold MS.clearConversationHistory. eff_unfold.
    destruct (bool_decide (is_Some (h !! userPhone))) eqn:Hhas; simpl; [reflexivity|].
    apply bool_decide_eq_false_1 in Hhas. symmetry. apply delete_id.
    destruct (h !! userPhone) eqn:E; [exfalso; apply Hhas; eauto|reflexivity]. }
  assert (Hnone : cleared !! userPhone = None) by (rewrite Hcleared; apply lookup_delete_eq).
  split; [|split; [|split]].
  - unfold MS.clearConversationHistory. eff_unfold.
    destruct (bool_decide (is_Some (h !! userPhone))); reflexivity.
  - unfold MS.getConversationHistory, Eff.gets. simpl. now rewrite Hnone.
  - intros phone Hne. rewrite Hcleared. now apply lookup_delete_ne.
  - pose proof (chat_run post userPhone message options cleared) as Hrun. cbv zeta in Hrun.
    rewrite Hnone in Hrun. simpl in Hrun.
    change (MS.buildMessages (MS.opt_system_prompt options) [] message)
      with [MS.mkChatMessage "system" (MS.opt_system_prompt options);
            MS.mkChatMessage "user" message] in Hrun.
    destruct (post _ _ _) as [m|[|a rest]]; simpl in Hanswer; try discriminate.
    injection Hanswer as ->. eexists. split; [exact Hrun|]. apply lookup_insert_eq.
Qed.

Lemma clear_then_chat_starts_fresh_witness :
  exists h',
    MS.chat answersOk "alice" "hi" MS.defaultChatOptions
      (snd (MS.clearConversationHistory "alice" (chats 11 ∅)))
    = (Eff.Return "ok", h') /\
    h' !! "alice" = Some [MS.mkChatMessage "user" "hi"; MS.mkChatMessage "assistant" "ok"].
Proof.
  destruct (clear_then_chat_starts_fresh answersOk "alice" "hi" "ok" MS.defaultChatOptions
              (chats 11 ∅) eq_refl) as (_ & _ & _ & h' & Hrun & Hget).
  exists h'. split; [exact Hrun|exact Hget].
Defined.

(** X24. The entries [chat] stores carry no timestamp.  On histories of
    such entries [cleanupOldConversations] deletes the empty histories and
    nothing else, whatever the age limit and the clock: no conversation that
    has a message is ever removed, and the history read for every recipient
    is what it was. *)
Theorem cleanupOldConversations_keeps_every_message
        (timestamp : MS.ChatMessage -> option Z) (maxAgeHours now : Z)
        (h : gmap string (list MS.ChatMessage))
        (Hnone : forall entry, timestamp entry = None) :
  exists h',
    MS.cleanupOldConversations timestamp maxAgeHours now h = (Eff.Return tt, h') /\
    (forall phone l, h !! phone = Some l -> l <> [] -> h' !! phone = Some l) /\
    (forall phone, h !! phone = Some [] -> h' !! phone = None) /\
    (forall phone, fst (MS.getConversationHistory phone h')
                   = fst (MS.getConversationHistory phone h)).
Proof.
  eexists. split; [reflexivity|].
  assert (Hold : forall cutoff l, MS.isOldConversation timestamp cutoff l = false <-> l <> []).
  { intros cutoff l. unfold MS.isOldConversation.
    destruct l as [|x l]; simpl; [split; [discriminate|congruence]|].
    destruct (last (x :: l)) as [entry|]; [rewrite Hnone|]; split; congruence. }
  assert (Hlookup : forall phone,
            filter (fun entry : string * list MS.ChatMessage =>
                      MS.isOldConversation timestamp (now - maxAgeHours * 60 * 60 * 1000)
                        (snd entry) = false) h !! phone
            = match h !! phone with
              | Some [] => None
              | other => other
              end).
  { intros phone. destruct (h !! phone) as [l|] eqn:Hl.
    - destruct l as [|x l].
      + apply map_lookup_filter_None. right. intros l' Hl'. simpl.
        rewrite Hold. congruence.
      + apply map_lookup_filter_Some. split; [exact Hl|]. simpl. now apply Hold.
    - apply map_lookup_filter_None. now left. }
  split; [|split].
  - intros phone l Hl Hne. rewrite Hlookup, Hl. destruct l; congruence.
  - intros phone Hl. now rewrite Hlookup, Hl.
  - intros phone. unfold MS.getConversationHistory, Eff.gets. simpl.
    rewrite Hlookup. destruct (h !! phone) as [[|x l]|]; reflexivity.
Qed.

Lemma cleanupOldConversations_keeps_every_message_witness :
  exists h',
    MS.cleanupOldConversations (fun _ => None) 0 1000000000 (chats 1 ∅) = (Eff.Return tt, h') /\
    h' !! "alice" = Some [MS.mkChatMessage "user" "hi"; MS.mkChatMessage "assistant" "ok"].
Proof.
  destruct (cleanupOldConversations_keeps_every_message (fun _ => None) 0 1000000000
              (chats 1 ∅)) as (h' & Hrun & Hkeep & _).
  - reflexivity.
  - exists h'. split; [exact Hrun|]. apply Hkeep; [reflexivity|discriminate].
Defined.

(** ** formatPhone *)

Lemma digitsOf_allDigits s : allDigits (WhatsAppService.digitsOf s) = true.
Proof.
  induction s as [|a s IH]; simpl; [reflexivity|].
  destruct (Text.isDigit a) eqn:Ha; [simpl; now rewrite Ha|exact IH].
Qed.

Lemma digitsOf_digits s : allDigits s = true -> WhatsAppService.digitsOf s = s.
Proof.
  induction s as [|a s IH]; simpl; [reflexivity|].
  intros H. apply andb_true_iff in H as [Ha Hs]. now rewrite Ha, (IH Hs).
Qed.

(** X25. [formatPhone] returns digits only, depends on the digits of its
    argument only, and is idempotent.  The result is the digits of the
    argument, or, for ten digits only, those digits after a "1"; a result of
    ten digits starts with "1". *)
Theorem formatPhone_normalises (phone : string) :
  let formatted := WhatsAppService.formatPhone phone in
  allDigits formatted = true /\
  WhatsAppService.formatPhone formatted = formatted /\
  WhatsAppService.formatPhone (WhatsAppService.digitsOf phone) = formatted /\
  (String.length formatted = 10%nat -> Text.startsWith formatted "1" = true) /\
  (formatted = WhatsAppService.digitsOf phone \/
   formatted = "1" ++ WhatsAppService.digitsOf phone /\
   String.length (WhatsAppService.digitsOf phone) = 10%nat).
Proof.
  intros formatted. subst formatted. unfold WhatsAppService.formatPhone.
  pose proof (digitsOf_allDigits phone) as Hd.
  rewrite (digitsOf_digits _ Hd).
  set (ds := WhatsAppService.digitsOf phone) in *.
  destruct (Text.startsWith ds "1") eqn:Hone; simpl.
  - rewrite (digitsOf_digits _ Hd), Hone. simpl. auto 6.
  - destruct (String.length ds =? 10)%nat eqn:Hlen.
    + apply Nat.eqb_eq in Hlen.
      assert (Hd1 : allDigits ("1" ++ ds) = true) by exact Hd.
      rewrite (digitsOf_digits _ Hd1).
      change (Text.startsWith ("1" ++ ds) "1") with (String.prefix "1" (String "1" ds)).
      assert (Hpre : String.prefix "1" (String "1" ds) = true).
      { cbn [String.prefix]. destruct (ascii_dec "1" "1"); [|congruence]. now destruct ds. }
      rewrite Hpre. simpl. split; [exact Hd1|]. split; [reflexivity|]. split; [reflexivity|].
      split; [auto|]. right. auto.
    + rewrite (digitsOf_digits _ Hd), Hone, Hlen. simpl.
      split; [exact Hd|]. split; [reflexivity|]. split; [reflexivity|].
      split; [|now left]. intros H. apply Nat.eqb_neq in Hlen. congruence.
Qed.
